(** * Low-thrust minimum-fuel dynamics in modified equinoctial elements

    A shallow embedding of [functions.py] and [eom.py] of the
    SpaceTelescopeRefueling package, over idealised real arithmetic.

    A Python float is modelled as [fl = option R]: [Some a] is the finite
    value [a] and [None] is an invalid value.  Square root and fractional
    power of a negative number give [None], the NaN of the source, and
    every operation is strict in [None], as every operation of the source
    is in NaN.

    A division by zero is read in two ways, after the two source files.

    - [eom.py] is compiled by numba ([@njit]), whose default error model
      is Python's: a scalar division whose divisor is zero raises
      [ZeroDivisionError] and the function returns nothing.  The two
      functions of [Eom] raise accordingly, so that in what they return
      [None] is a NaN and nothing else.  A read past the end of the state
      is given Python's [IndexError].

    - [functions.py] is plain numpy, where a division by zero gives an
      infinity or a NaN and the computation goes on.  [fdiv] gives [None]
      there, and [None] in what the functions of [Functions] return marks a
      value that is not finite or is computed from one that is not.  NaN
      is absorbing in the source as [None] is here; an infinity is not
      ([tanh] of an infinity is 1 or -1), so the embedding follows the
      source value for value at the inputs at which no divisor is zero.

    Rounding is not modelled: the arithmetic is that of the reals.  The one
    place where the statements below depend on it is the saturation of the
    throttle, for which the last two operations of line 179 of
    [functions.py] are also given in binary64 ([throttle_f64]). *)

From Stdlib Require Import Reals Lra Lia Psatz QArith List String.
From Stdlib Require Floats.
Import ListNotations.

Local Open Scope R_scope.

(** ** Floats with an invalid value *)

Definition fl : Type := option R.

Definition lit (a : R) : fl := Some a.
Coercion lit : R >-> fl.

Definition lift1 (op : R -> R) (x : fl) : fl :=
  match x with
  | Some a => Some (op a)
  | None => None
  end.

Definition lift2 (op : R -> R -> R) (x y : fl) : fl :=
  match x, y with
  | Some a, Some b => Some (op a b)
  | _, _ => None
  end.

Definition fadd : fl -> fl -> fl := lift2 Rplus.
Definition fsub : fl -> fl -> fl := lift2 Rminus.
Definition fmul : fl -> fl -> fl := lift2 Rmult.
Definition fneg : fl -> fl := lift1 Ropp.
Definition fabs : fl -> fl := lift1 Rabs.
Definition fcos : fl -> fl := lift1 cos.
Definition fsin : fl -> fl := lift1 sin.
Definition ftan : fl -> fl := lift1 tan.
Definition ftanh : fl -> fl := lift1 tanh.

(** Division: a zero denominator gives an invalid value.  Where the source
    raises instead, the division is [ndiv] below. *)
Definition fdiv (x y : fl) : fl :=
  match x, y with
  | Some a, Some b => if Req_dec_T b 0 then None else Some (a / b)
  | _, _ => None
  end.

(** Square root: a negative operand gives an invalid value. *)
Definition fsqrt (x : fl) : fl :=
  match x with
  | Some a => if Rlt_dec a 0 then None else Some (sqrt a)
  | None => None
  end.

(** The power operator [x ** y] for a literal exponent [y].  An integral
    exponent is a repeated product (or its guarded inverse); a fractional
    exponent is defined for a non-negative base only. *)
Definition fpow (x : fl) (y : Q) : fl :=
  match x with
  | None => None
  | Some a =>
      let y' := Qred y in
      match Qden y' with
      | 1%positive =>
          match Qnum y' with
          | Z0 => Some 1
          | Zpos n => Some (a ^ Pos.to_nat n)
          | Zneg n => if Req_dec_T a 0 then None
                      else Some (/ (a ^ Pos.to_nat n))
          end
      | _ =>
          if Rlt_dec a 0 then None
          else if Req_dec_T a 0
               then (if Qlt_le_dec 0 y' then Some 0 else None)
               else Some (Rpower a (Q2R y'))
      end
  end.

(** Comparison [x < y] of two floats; false when either is invalid. *)
Definition flt (x y : fl) : bool :=
  match x, y with
  | Some a, Some b => if Rlt_dec a b then true else false
  | _, _ => false
  end.

Declare Scope fl_scope.
Delimit Scope fl_scope with fl.
Bind Scope fl_scope with fl.

Notation "x + y" := (fadd x y) : fl_scope.
Notation "x - y" := (fsub x y) : fl_scope.
Notation "x * y" := (fmul x y) : fl_scope.
Notation "x / y" := (fdiv x y) : fl_scope.
Notation "- x" := (fneg x) : fl_scope.
Notation "x ** y" := (fpow x y%Q) (at level 30, right associativity) : fl_scope.

Arguments fadd (x y)%_fl.
Arguments fsub (x y)%_fl.
Arguments fmul (x y)%_fl.
Arguments fdiv (x y)%_fl.
Arguments fneg x%_fl.
Arguments fabs x%_fl.
Arguments fcos x%_fl.
Arguments fsin x%_fl.
Arguments ftan x%_fl.
Arguments ftanh x%_fl.
Arguments fsqrt x%_fl.
Arguments fpow x%_fl y%_Q.
Arguments flt (x y)%_fl.

(** ** Three-vectors and matrices of floats *)

Definition vec3 : Type := (fl * fl * fl)%type.

Definition vx (u : vec3) : fl := fst (fst u).
Definition vy (u : vec3) : fl := snd (fst u).
Definition vz (u : vec3) : fl := snd u.

(** [numpy.cross] on two three-vectors. *)
Definition cross (a b : vec3) : vec3 :=
  ((vy a * vz b - vz a * vy b)%fl,
   (vz a * vx b - vx a * vz b)%fl,
   (vx a * vy b - vy a * vx b)%fl).

(** [numpy.linalg.norm] on a three-vector: the root of the sum of squares. *)
Definition norm (a : vec3) : fl :=
  fsqrt (vx a * vx a + vy a * vy a + vz a * vz a).

(** A vector divided or multiplied by a scalar, component by component. *)
Definition vdiv (a : vec3) (s : fl) : vec3 :=
  ((vx a / s)%fl, (vy a / s)%fl, (vz a / s)%fl).

Definition vscale (a : vec3) (s : fl) : vec3 :=
  ((vx a * s)%fl, (vy a * s)%fl, (vz a * s)%fl).

Definition vneg (a : vec3) : vec3 :=
  ((- vx a)%fl, (- vy a)%fl, (- vz a)%fl).

Definition dot (a b : vec3) : fl :=
  (vx a * vx b + vy a * vy b + vz a * vz b)%fl.

(** A 3x3 matrix is the triple of its rows. *)
Definition mat3 : Type := (vec3 * vec3 * vec3)%type.

Definition row1 (M : mat3) : vec3 := fst (fst M).
Definition row2 (M : mat3) : vec3 := snd (fst M).
Definition row3 (M : mat3) : vec3 := snd M.

(** [matmul(M, u)] for a 3x3 matrix and a three-vector. *)
Definition matvec (M : mat3) (u : vec3) : vec3 :=
  (dot (row1 M) u, dot (row2 M) u, dot (row3 M) u).

Definition transpose3 (M : mat3) : mat3 :=
  ((vx (row1 M), vx (row2 M), vx (row3 M)),
   (vy (row1 M), vy (row2 M), vy (row3 M)),
   (vz (row1 M), vz (row2 M), vz (row3 M))).

(** [matmul(A, B)] for two 3x3 matrices. *)
Definition matmul3 (A B : mat3) : mat3 :=
  let Bt := transpose3 B in
  ((dot (row1 A) (row1 Bt), dot (row1 A) (row2 Bt), dot (row1 A) (row3 Bt)),
   (dot (row2 A) (row1 Bt), dot (row2 A) (row2 Bt), dot (row2 A) (row3 Bt)),
   (dot (row3 A) (row1 Bt), dot (row3 A) (row2 Bt), dot (row3 A) (row3 Bt))).

Definition det3 (M : mat3) : fl := dot (row1 M) (cross (row2 M) (row3 M)).

Definition identity3 : mat3 :=
  ((lit 1, lit 0, lit 0), (lit 0, lit 1, lit 0), (lit 0, lit 0, lit 1)).

(** ** Python exceptions *)

Inductive exn : Type :=
| NameError
| UnboundLocalError   (* a subclass of NameError *)
| IndexError
| ValueError
| ZeroDivisionError.

(** [except NameError] catches [NameError] and its subclass. *)
Definition is_NameError (e : exn) : bool :=
  match e with
  | NameError | UnboundLocalError => true
  | _ => false
  end.

Inductive res (A : Type) : Type :=
| Ok (a : A)
| Raise (e : exn).

Arguments Ok {A} a.
Arguments Raise {A} e.

Definition bind {A B : Type} (m : res A) (k : A -> res B) : res B :=
  match m with
  | Ok a => k a
  | Raise e => Raise e
  end.

Notation "' x <- m ;; k" := (bind m (fun x => k))
  (at level 100, x pattern, m at next level, k at level 200).

(** A float that is exactly zero; NaN is not. *)
Definition is_zero (x : fl) : bool :=
  match x with
  | Some a => if Req_dec_T a 0 then true else false
  | None => false
  end.

(** Division in a function compiled by numba: a zero divisor raises, whatever
    the dividend; a NaN operand gives NaN. *)
Definition ndiv (x y : fl) : res fl :=
  if is_zero y then Raise ZeroDivisionError else Ok (fdiv x y).

(** The divisions of a straight-line block, met in the order of the list of
    their divisors: the first zero divisor raises. *)
Fixpoint check_divisors (ds : list fl) : res unit :=
  match ds with
  | [] => Ok tt
  | d :: rest => ' _ <- ndiv (lit 1) d ;; check_divisors rest
  end.

(** [l[i]] on a Python sequence. *)
Definition index {A : Type} (l : list A) (i : nat) : res A :=
  match nth_error l i with
  | Some a => Ok a
  | None => Raise IndexError
  end.

(** [l[i] = v] on an array. *)
Fixpoint set_index {A : Type} (l : list A) (i : nat) (v : A) : res (list A) :=
  match l, i with
  | [], _ => Raise IndexError
  | _ :: l', O => Ok (v :: l')
  | a :: l', S i' => ' r <- set_index l' i' v ;; Ok (a :: r)
  end.

(** [data[:,j]] on a two-dimensional array given as the list of its rows. *)
Fixpoint column (data : list (list R)) (j : nat) : res (list R) :=
  match data with
  | [] => Ok []
  | row :: rest =>
      ' a <- index row j ;;
      ' col <- column rest j ;;
      Ok (a :: col)
  end.

(** [np.zeros(n)]. *)
Definition zeros (n : nat) : list fl := repeat (lit 0) n.

Definition zeros3 (n : nat) : list vec3 := repeat (lit 0, lit 0, lit 0) n.

(** [for i in range(n): s = body(i, s)]. *)
Fixpoint for_each {St : Type} (body : nat -> St -> res St)
         (idx : list nat) (s : St) : res St :=
  match idx with
  | [] => Ok s
  | i :: rest => ' s' <- body i s ;; for_each body rest s'
  end.

Definition for_range {St : Type} (n : nat) (body : nat -> St -> res St)
           (s : St) : res St :=
  for_each body (seq 0 n) s.

(** ** Configuration: [const.py] and [spacecraft_params.py]

    Neither module is part of the sources at hand; the constants they bind
    are taken as parameters. *)

Module cn.
Record t : Type := {
  mu : R;      (* gravitational parameter *)
  J2 : R;      (* oblateness coefficient *)
  Req : R;     (* Earth radius *)
  DU : R;      (* distance unit *)
  Power : R;   (* nominal solar power *)
  P : R;       (* the name [cn.P] read by [thrust_angle] *)
  g0 : R       (* standard gravity *)
}.
End cn.

Module sc.
Record t : Type := {
  c : R;       (* exhaust-velocity constant *)
  si2can : R;  (* SI to canonical units *)
  A : R;       (* solar panel area *)
  eta : R;     (* power-to-thrust efficiency *)
  Isp : R;     (* specific impulse *)
  Thr : R      (* maximum thrust *)
}.
End sc.

(** ** [functions.py] *)

Module Functions.
Section WithConfig.

Variable K : cn.t.
Variable V : sc.t.

Local Open Scope fl_scope.

(** [mee2rv] at one sample; numpy applies the same scalar formulas to every
    element of the input arrays. *)
Definition mee2rv_sample (p f g h k L : R) : vec3 * vec3 :=
  let alpha2 := h ** 2 - k ** 2 in
  let tani2s := h ** 2 + k ** 2 in
  let s2 := 1 + tani2s in
  let cosL := fcos L in
  let sinL := fsin L in
  let hk2 := 2 * h * k in
  let sq := fsqrt (cn.mu K / p) in
  let radius := p / (1 + f * cosL + g * sinL) in
  ((radius * (cosL + alpha2 * cosL + hk2 * sinL) / s2,
    radius * (sinL - alpha2 * sinL + hk2 * cosL) / s2,
    2 * radius * (h * sinL - k * cosL) / s2),
   (- sq * (sinL + alpha2 * sinL - hk2 * cosL + g - f * hk2 + alpha2 * g) / s2,
    - sq * (- cosL + alpha2 * cosL + hk2 * sinL - f + g * hk2 + alpha2 * f) / s2,
    2 * sq * (h * cosL + k * sinL + f * h + g * k) / s2)).

Fixpoint mee2rv (p f g h k L : list R) : res (list vec3 * list vec3) :=
  match p with
  | [] => Ok ([], [])
  | p0 :: p' =>
      match f, g, h, k, L with
      | f0 :: f', g0 :: g', h0 :: h', k0 :: k', L0 :: L' =>
          ' (r, v) <- mee2rv p' f' g' h' k' L' ;;
          let (r0, v0) := mee2rv_sample p0 f0 g0 h0 k0 L0 in
          Ok (r0 :: r, v0 :: v)
      | _, _, _, _, _ => Raise ValueError   (* shapes do not broadcast *)
      end
  end.

Definition classical2mee (a e inc Om w nu : R)
  : fl * fl * fl * fl * fl * fl :=
  let p := a * (1 - e ** 2) in
  let f := e * fcos (w + Om) in
  let g := e * fsin (w + Om) in
  let h := ftan (inc / 2) * fcos Om in
  let k := ftan (inc / 2) * fsin Om in
  let L := Om + w + nu in
  (p, f, g, h, k, L).

Definition inertial2radial (r v : vec3) : mat3 :=
  let hvec := cross r v in
  let h := norm hvec in
  let xrdl := vdiv r (norm r) in
  let zrdl := vdiv hvec h in
  let yrdl := cross zrdl xrdl in
  (xrdl, yrdl, zrdl).

(** The 7x3 control-influence matrix built in the loop body of
    [switch_function], as the list of its rows. *)
Definition B_matrix (p f g h k L : R) : list vec3 :=
  let SinL := fsin L in
  let CosL := fcos L in
  let q := 1 + f * CosL + g * SinL in
  let s := 1 + h ** 2 + k ** 2 in
  let C1 := fsqrt p in
  let C2 := 1 / q in
  let C3 := h * SinL - k * CosL in
  [ (lit 0, 2 * p * C2 * C1, lit 0);
    (C1 * SinL, C1 * C2 * ((q + 1) * CosL + f), - C1 * (g / q) * C3);
    (- C1 * CosL, C1 * C2 * ((q + 1) * SinL + g), C1 * (f / q) * C3);
    (lit 0, lit 0, C1 * s * CosL * C2 / 2);
    (lit 0, lit 0, C1 * s * SinL * C2 / 2);
    (lit 0, lit 0, C1 * C2 * C3);
    (lit 0, lit 0, lit 0) ].

(** [matmul(B.T, lam)]: the columns of [B] weighted by [lam] and summed. *)
Fixpoint matmulT (B : list vec3) (lam : list fl) : vec3 :=
  match B, lam with
  | b :: B', l :: lam' =>
      let acc := matmulT B' lam' in
      (vx b * l + vx acc, vy b * l + vy acc, vz b * l + vz acc)
  | _, _ => (lit 0, lit 0, lit 0)
  end.

Record columns : Type := {
  col_p : list R; col_f : list R; col_g : list R; col_h : list R;
  col_k : list R; col_L : list R; col_m : list R;
  col_plam : list R; col_flam : list R; col_glam : list R;
  col_hlam : list R; col_klam : list R; col_Llam : list R;
  col_mlam : list R
}.

(** The fourteen column slices taken at the top of [switch_function] and
    of [thrust_angle]. *)
Definition assign_variables (data : list (list R)) : res columns :=
  ' p <- column data 0 ;;
  ' f <- column data 1 ;;
  ' g <- column data 2 ;;
  ' h <- column data 3 ;;
  ' k <- column data 4 ;;
  ' L <- column data 5 ;;
  ' m <- column data 6 ;;
  ' plam <- column data 7 ;;
  ' flam <- column data 8 ;;
  ' glam <- column data 9 ;;
  ' hlam <- column data 10 ;;
  ' klam <- column data 11 ;;
  ' Llam <- column data 12 ;;
  ' mlam <- column data 13 ;;
  Ok {| col_p := p; col_f := f; col_g := g; col_h := h; col_k := k;
        col_L := L; col_m := m; col_plam := plam; col_flam := flam;
        col_glam := glam; col_hlam := hlam; col_klam := klam;
        col_Llam := Llam; col_mlam := mlam |}.

(** One pass of the loop of [switch_function] on the state
    [(S, delta, BTL)]. *)
Definition switch_body (cols : columns) (rho : R) (i : nat)
           (st : list fl * list fl * list vec3)
  : res (list fl * list fl * list vec3) :=
  let '(S0, delta, BTL) := st in
  ' p <- index (col_p cols) i ;;
  ' f <- index (col_f cols) i ;;
  ' g <- index (col_g cols) i ;;
  ' h <- index (col_h cols) i ;;
  ' k <- index (col_k cols) i ;;
  ' L <- index (col_L cols) i ;;
  ' m <- index (col_m cols) i ;;
  ' plam <- index (col_plam cols) i ;;
  ' flam <- index (col_flam cols) i ;;
  ' glam <- index (col_glam cols) i ;;
  ' hlam <- index (col_hlam cols) i ;;
  ' klam <- index (col_klam cols) i ;;
  ' Llam <- index (col_Llam cols) i ;;
  ' mlam <- index (col_mlam cols) i ;;
  let B := B_matrix p f g h k L in
  let lam : list fl := [lit plam; lit flam; lit glam; lit hlam; lit klam;
                        lit Llam; lit mlam] in
  let BTL := BTL ++ [matmulT B lam] in
  ' BTLi <- index BTL i ;;
  ' S1 <- set_index S0 i (sc.c V * sc.si2can V * norm BTLi / m + mlam - 1) ;;
  ' Si <- index S1 i ;;
  ' delta <- set_index delta i (0.5 * (1 + ftanh (Si / rho))) ;;
  Ok (S1, delta, BTL).

Definition switch_function (data : list (list R)) (rho : R)
  : res (list fl * list fl * list vec3) :=
  ' cols <- assign_variables data ;;
  let ind := List.length data in
  let S := zeros ind in
  let delta := zeros ind in
  let BTL : list vec3 := [] in
  for_range ind (switch_body cols rho) (S, delta, BTL).

(** *** [thrust_angle] *)

(** The values the parameters of [thrust_angle] can hold. *)
Inductive pyval : Type :=
| VArray (d : list (list R))
| VFloat (a : R)
| VBool (b : bool).

(** The local variables of a call: every name assigned somewhere in the
    function body is a local slot, empty until its first assignment. *)
Definition frame : Type := list (string * option pyval).

Fixpoint load_name (fr : frame) (x : string) : res pyval :=
  match fr with
  | [] => Raise NameError
  | (y, slot) :: fr' =>
      if String.eqb x y
      then match slot with
           | Some v => Ok v
           | None => Raise UnboundLocalError
           end
      else load_name fr' x
  end.

(** A tuple display [x1, ..., xn] evaluates its names from left to right. *)
Fixpoint load_tuple (fr : frame) (xs : list string) : res (list pyval) :=
  match xs with
  | [] => Ok []
  | x :: xs' =>
      ' v <- load_name fr x ;;
      ' vs <- load_tuple fr xs' ;;
      Ok (v :: vs)
  end.

(** The names [thrust_angle] assigns, in order of their first assignment. *)
Definition thrust_angle_assigned : list string :=
  ["p"; "f"; "g"; "h"; "k"; "L"; "m"; "plam"; "flam"; "glam"; "hlam";
   "klam"; "Llam"; "mlam"; "ind"; "F"; "zeta"; "Pa"; "u_inert"; "u_lvlh";
   "S"; "delta"; "BTL"; "r"; "v"; "i"; "gamma"; "Thr"; "M"]%string.

Definition thrust_angle_frame (data : list (list R)) (rho : R)
           (eclipse : bool) : frame :=
  [("data"%string, Some (VArray data));
   ("rho"%string, Some (VFloat rho));
   ("eclipse"%string, Some (VBool eclipse))]
  ++ map (fun x => (x, None)) thrust_angle_assigned.

(** [a < 0] on a one-dimensional array. *)
Definition array_lt0 (a : vec3) : list bool :=
  [flt (vx a) 0; flt (vy a) 0; flt (vz a) 0].

(** The truth value of an array in an [if]: defined for one element only. *)
Definition truth_value (bs : list bool) : res bool :=
  match bs with
  | [b] => Ok b
  | _ => Raise ValueError
  end.

(** [r[lo:hi]] on the rows of a two-dimensional array. *)
Definition slice {A : Type} (l : list A) (lo hi : nat) : list A :=
  firstn (hi - lo) (skipn lo l).

(** [numpy.linalg.norm] on a two-dimensional array: the Frobenius norm. *)
Definition norm2d (rows : list vec3) : fl :=
  fsqrt (fold_right (fun u acc => dot u u + acc) (lit 0) rows).

Record thrust_state : Type := {
  st_F : list fl; st_zeta : list fl; st_Pa : list fl;
  st_u_inert : list vec3; st_u_lvlh : list vec3
}.

Record thrust_profile : Type := {
  out_r : list vec3; out_v : list vec3;
  out_u_inert : list vec3; out_u_lvlh : list vec3;
  out_S : list fl; out_F : list fl; out_Pa : list fl;
  out_delta : list fl; out_zeta : list fl
}.

(** Lines 233-250: the eclipse model of one pass of the loop. *)
Definition eclipse_model (r : list vec3) (delta : list fl) (BTL : list vec3)
           (rho : R) (eclipse : bool) (i : nat) (st : thrust_state)
  : res thrust_state :=
  if eclipse then
    ' r0 <- index r 0 ;;
    ' sunward <- truth_value (array_lt0 r0) ;;
    if sunward then
      let gamma := norm2d (slice r 1 2) - cn.Req K / cn.DU K in
      ' zeta <- set_index (st_zeta st) i (0.5 * (1 + ftanh (gamma / rho))) ;;
      ' zi <- index zeta i ;;
      ' Pa <- set_index (st_Pa st) i (zi * cn.Power K) ;;
      ' Pai <- index Pa i ;;
      let Thr := Pai * sc.A V * sc.eta V / sc.Isp V / cn.g0 K in
      ' di <- index delta i ;;
      ' F <- set_index (st_F st) i (Thr * di) ;;
      ' BTLi <- index BTL i ;;
      ' u_inert <- set_index (st_u_inert st) i
            (vscale (vscale (vdiv (vneg BTLi) (norm BTLi)) di) zi) ;;
      Ok {| st_F := F; st_zeta := zeta; st_Pa := Pa;
            st_u_inert := u_inert; st_u_lvlh := st_u_lvlh st |}
    else
      ' Pa <- set_index (st_Pa st) i (lit (cn.Power K)) ;;
      ' Pai <- index Pa i ;;
      let Thr := Pai * sc.A V * sc.eta V / sc.Isp V / cn.g0 K in
      ' di <- index delta i ;;
      ' F <- set_index (st_F st) i (Thr * di) ;;
      ' BTLi <- index BTL i ;;
      ' u_inert <- set_index (st_u_inert st) i
            (vscale (vdiv (vneg BTLi) (norm BTLi)) di) ;;
      Ok {| st_F := F; st_zeta := st_zeta st; st_Pa := Pa;
            st_u_inert := u_inert; st_u_lvlh := st_u_lvlh st |}
  else
    ' Pa <- set_index (st_Pa st) i (lit (cn.Power K)) ;;
    let Thr := cn.P K * sc.A V * sc.eta V / sc.Isp V / cn.g0 K in
    ' di <- index delta i ;;
    ' F <- set_index (st_F st) i (Thr * di) ;;
    ' BTLi <- index BTL i ;;
    ' u_inert <- set_index (st_u_inert st) i
          (vscale (vdiv (vneg BTLi) (norm BTLi)) di) ;;
    Ok {| st_F := F; st_zeta := st_zeta st; st_Pa := Pa;
          st_u_inert := u_inert; st_u_lvlh := st_u_lvlh st |}.

(** Lines 231-253: one pass of the loop. *)
Definition thrust_body (r v : list vec3) (delta : list fl) (BTL : list vec3)
           (rho : R) (eclipse : bool) (i : nat) (st : thrust_state)
  : res thrust_state :=
  ' st1 <- eclipse_model r delta BTL rho eclipse i st ;;
  ' ri <- index r i ;;
  ' vi <- index v i ;;
  let M := inertial2radial ri vi in
  ' ui <- index (st_u_inert st1) i ;;
  ' u_lvlh <- set_index (st_u_lvlh st1) i (matvec M ui) ;;
  Ok {| st_F := st_F st1; st_zeta := st_zeta st1; st_Pa := st_Pa st1;
        st_u_inert := st_u_inert st1; st_u_lvlh := u_lvlh |}.

(** Lines 206-254: everything after the first statement. *)
Definition thrust_angle_rest (data : list (list R)) (rho : R)
           (eclipse : bool) : res thrust_profile :=
  ' cols <- assign_variables data ;;
  let ind := List.length data in
  let st0 := {| st_F := zeros ind; st_zeta := zeros ind; st_Pa := zeros ind;
                st_u_inert := zeros3 ind; st_u_lvlh := zeros3 ind |} in
  ' (S0, delta, BTL) <- switch_function data rho ;;
  ' (r, v) <- mee2rv (col_p cols) (col_f cols) (col_g cols) (col_h cols)
                     (col_k cols) (col_L cols) ;;
  ' st <- for_range ind (thrust_body r v delta BTL rho eclipse) st0 ;;
  Ok {| out_r := r; out_v := v; out_u_inert := st_u_inert st;
        out_u_lvlh := st_u_lvlh st; out_S := S0; out_F := st_F st;
        out_Pa := st_Pa st; out_delta := delta; out_zeta := st_zeta st |}.

(** [thrust_angle]: line 205 is an expression statement, the tuple of the
    nine result names, evaluated before any of them is assigned. *)
Definition thrust_angle (data : list (list R)) (rho : R) (eclipse : bool)
  : res thrust_profile :=
  ' _ <- load_tuple (thrust_angle_frame data rho eclipse)
           ["r"; "v"; "u_inert"; "u_lvlh"; "S"; "F"; "Pa"; "delta";
            "zeta"]%string ;;
  thrust_angle_rest data rho eclipse.

End WithConfig.
End Functions.

(** ** [eom.py] *)

Module Eom.

(** [numpy.linalg.norm] on a one-dimensional array of any length. *)
Definition norm1d (a : list R) : fl :=
  fsqrt (fold_right (fun (u : R) (acc : fl) => (u * u + acc)%fl) (lit 0) a).

(** [eom_twobody], lines 18-42, compiled by numba: the divisions by [r3] of
    lines 39-41 raise when [r3] is zero. *)
Definition eom_twobody (K : cn.t) (t : R) (x : list R) : res (list fl) :=
  let r3 := ((norm1d (Functions.slice x 0 3)) ** 3)%fl in
  ' x3 <- index x 3 ;;
  ' x4 <- index x 4 ;;
  ' x5 <- index x 5 ;;
  ' x0 <- index x 0 ;;
  ' dx3 <- ndiv (- cn.mu K * x0)%fl r3 ;;
  ' x1 <- index x 1 ;;
  ' dx4 <- ndiv (- cn.mu K * x1)%fl r3 ;;
  ' x2 <- index x 2 ;;
  ' dx5 <- ndiv (- cn.mu K * x2)%fl r3 ;;
  Ok [lit x3; lit x4; lit x5; dx3; dx4; dx5].

Section Minfuel.

Variable K : cn.t.
Variable V : sc.t.

(** The components [x[0]], ..., [x[13]] of the augmented state and the
    smoothing parameter. *)
Variables p f g h k L m : R.
Variables pco1 pco2 pco3 pco4 pco5 pco6 pco7 : R.
Variable rho : R.

Local Open Scope fl_scope.

Definition J2 : R := cn.J2 K.
Definition c : R := sc.c V.
Definition si2can : R := sc.si2can V.

(** The eclipse model of lines 67-72 is commented out; line 73 stands. *)
Definition Thr : R := sc.Thr V.

(** Lines 94-250, one definition for each assignment. *)
Definition t2 : fl := fcos (L).
Definition t3 : fl := fsin (L).
Definition t8 : fl := f * t2.
Definition t9 : fl := g * t3.
Definition t4 : fl := t8 + t9 + 1.
Definition t5 : fl := t4 ** 2.
Definition t6 : fl := 1 / m.
Definition t7 : fl := h * t3.
Definition t10 : fl := fsqrt (p).
Definition t11 : fl := 1 / t4.
Definition t12 : fl := h ** 2.
Definition t13 : fl := k ** 2.
Definition t14 : fl := t12 + t13 + 1.
Definition t29 : fl := k * t2.
Definition t15 : fl := t7 - t29.
Definition t30 : fl := pco5 * t3 * t10 * t11 * t14 * (1 / 2).
Definition t31 : fl := g * pco2 * t10 * t11 * t15.
Definition t32 : fl := pco4 * t2 * t10 * t11 * t14 * (1 / 2).
Definition t16 : fl :=
  fabs (t30 - t31 + t32 + pco6 * t10 * t11 * t15 + f * pco3 * t10 * t11 *
  t15).
Definition t17 : fl := p ** 1.5.
Definition t18 : fl := t8 + t9 + 2.
Definition t21 : fl := pco1 * t11 * t17 * 2.
Definition t22 : fl := t2 * t18.
Definition t23 : fl := f + t22.
Definition t24 : fl := pco2 * t10 * t11 * t23.
Definition t25 : fl := t3 * t18.
Definition t26 : fl := g + t25.
Definition t27 : fl := pco3 * t10 * t11 * t26.
Definition t28 : fl := t21 + t24 + t27.
Definition t19 : fl := fabs (t28).
Definition t35 : fl := pco3 * t2 * t10.
Definition t36 : fl := pco2 * t3 * t10.
Definition t37 : fl := t35 - t36.
Definition t20 : fl := fabs (t37).
Definition t44 : fl := pco6 * t10 * t11 * (t7 - t29).
Definition t45 : fl := f * pco3 * t10 * t11 * (t7 - t29).
Definition t46 : fl := t30 - t31 + t32 + t44 + t45.
Definition t33 : fl := fabs (t46).
Definition t34 : fl := t19 ** 2.
Definition t38 : fl := t20 ** 2.
Definition t39 : fl := 1 / (p ** 4).
Definition t40 : fl := t7 - t29.
Definition t41 : fl := 1 / (t14 ** 2).
Definition t42 : fl := t5 ** 2.
Definition t43 : fl := 1 / rho.
Definition t47 : fl := t33 ** 2.
Definition t48 : fl := t34 + t38 + t47.
Definition t49 : fl := 1 / fsqrt (t48).
Definition t50 : fl := h * t2.
Definition t51 : fl := k * t3.
Definition t52 : fl := t50 + t51.
Definition t53 : fl := J2 * t15 * t39 * t41 * t42 * t52 * 12.
Definition t54 : fl := fsqrt (t48).
Definition t55 : fl := c * si2can * t6 * t54.
Definition t56 : fl := pco7 + t55 - 1.
Definition t57 : fl := t43 * t56.
Definition t58 : fl := ftanh (t57).
Definition t59 : fl := t58 * (1 / 2).
Definition t60 : fl := t59 + 1 / 2.
Definition t61 : fl := t7 - t29.
Definition t62 : fl := Thr * si2can * t6 * t37 * t49 * t60.
Definition t63 : fl := Thr * si2can * t6 * t28 * t49 * t60.
Definition t64 : fl := t53 + t63.
Definition t65 : fl := t12 + t13 - 1.
Definition t66 : fl := Thr * si2can * t6 * t46 * t49 * t60.
Definition t68 : fl := J2 * t15 * t39 * t41 * t42 * t65 * 6.
Definition t67 : fl := t66 - t68.
Definition t69 : fl := t7 - t29.
Definition t70 : fl := 1 / fsqrt (p).
Definition t71 : fl := t7 - t29.
Definition t72 : fl := 1 / (p ** 4.5).
Definition t73 : fl := t7 - t29.
Definition t74 : fl := t7 - t29.
Definition t75 : fl := t7 - t29.
Definition t76 : fl := t7 - t29.
Definition t77 : fl := t7 - t29.
Definition t78 : fl := 1 / t14.
Definition t79 : fl := 1 / (p ** 1.5).
Definition t80 : fl := 1 / (p ** 3.5).
Definition t81 : fl := t7 - t29.
Definition t82 : fl := 1 / (t4 ** 2).
Definition t83 : fl := t7 - t29.
Definition t84 : fl := t7 - t29.
Definition t85 : fl := (t2 ** 2).
Definition t86 : fl := t7 - t29.
Definition t87 : fl := t7 - t29.
Definition t88 : fl := 1 / (p ** 2.5).
Definition t89 : fl := t7 - t29.
Definition t90 : fl := t2 * t3 * t10 * t11 * t64.
Definition t91 : fl := t7 - t29.
Definition t92 : fl := t3 ** 2.
Definition t93 : fl := t7 - t29.
Definition t94 : fl := t7 - t29.
Definition t95 : fl := t7 - t29.
Definition t96 : fl := -t7 + t29.
Definition t98 : fl := pco6 * t10 * t11 * t96.
Definition t99 : fl := f * pco3 * t10 * t11 * t96.
Definition t100 : fl := g * pco2 * t10 * t11 * t96.
Definition t101 : fl := t30 + t32 - t98 - t99 + t100.
Definition t97 : fl := fabs (t101).
Definition t102 : fl := t97 ** 2.
Definition t103 : fl := t34 + t38 + t102.
Definition t104 : fl := 1 / (t14 ** 3).
Definition t105 : fl := J2 * t39 * t41 * t42 * t65 * t96 * 6.
Definition t106 : fl := fsqrt (t103).
Definition t107 : fl := c * si2can * t6 * t106.
Definition t108 : fl := pco7 + t107 - 1.
Definition t109 : fl := t43 * t108.
Definition t110 : fl := ftanh (t109).
Definition t111 : fl := t110 * (1 / 2).
Definition t112 : fl := t111 + 1 / 2.
Definition t113 : fl := 1 / fsqrt (t103).
Definition t114 : fl := Thr * si2can * t6 * t101 * t112 * t113.
Definition t115 : fl := t105 + t114.
Definition t116 : fl := J2 * t3 * t39 * t41 * t42 * t65 * 6.
Definition t117 : fl := J2 * h * t39 * t42 * t65 * t96 * t104 * 24.
Definition t122 : fl := J2 * h * t39 * t41 * t42 * t96 * 12.
Definition t118 : fl := t116 + t117 - t122.
Definition t119 : fl := J2 * t3 * t39 * t41 * t42 * t52 * 12.
Definition t120 : fl := J2 * h * t39 * t42 * t52 * t96 * t104 * 48.
Definition t127 : fl := J2 * t2 * t39 * t41 * t42 * t96 * 12.
Definition t121 : fl := t119 + t120 - t127.
Definition t123 : fl := t3 * t41 * t96 * 24.
Definition t124 : fl := t9 ** 2.
Definition t125 : fl := h * t104 * t124 * 48.
Definition t126 : fl := t123 + t125.
Definition t128 : fl := J2 * t2 * t39 * t41 * t42 * t65 * 6.
Definition t129 : fl := J2 * k * t39 * t41 * t42 * t96 * 12.
Definition t134 : fl := J2 * k * t39 * t42 * t65 * t96 * t104 * 24.
Definition t130 : fl := t128 + t129 - t134.
Definition t131 : fl := J2 * t2 * t39 * t41 * t42 * t52 * 12.
Definition t132 : fl := J2 * t3 * t39 * t41 * t42 * t96 * 12.
Definition t137 : fl := J2 * k * t39 * t42 * t52 * t96 * t104 * 48.
Definition t133 : fl := t131 + t132 - t137.
Definition t135 : fl := k * t104 * t124 * 48.
Definition t136 : fl := t135 - t2 * t41 * t96 * 24.
Definition t138 : fl := t41 * t124 * 12.
Definition t139 : fl := t138 - 1.
Definition t140 : fl := f * t3.
Definition t142 : fl := g * t2.
Definition t141 : fl := t140 - t142.
Definition t143 : fl := Thr * si2can * t6 * t28 * t112 * t113.
Definition t151 : fl := J2 * t39 * t41 * t42 * t52 * t96 * 12.
Definition t144 : fl := t143 - t151.
Definition t145 : fl := J2 * t4 * t5 * t39 * t139 * t141 * 6.
Definition t146 : fl := J2 * t39 * t41 * t42 * t52 * t96 * 36.
Definition t147 : fl := t145 + t146.
Definition t148 : fl := J2 * t39 * t42 * t139 * (3 / 2).
Definition t149 : fl := Thr * si2can * t6 * t37 * t112 * t113.
Definition t150 : fl := t148 + t149.
Definition t152 : fl := t52 ** 2.
Definition t153 : fl := J2 * t39 * t41 * t42 * t152 * 12.
Definition t154 : fl := J2 * t4 * t5 * t39 * t41 * t52 * t96 * t141 * 48.
Definition t155 : fl := J2 * t39 * t41 * t42 * t52 * t65 * 6.
Definition t156 : fl :=
  J2 * t4 * t5 * t39 * t41 * t65 * t96 * (t140 - t142) * 24.
Definition t157 : fl := t155 + t156.
Definition t158 : fl := 1 / m ** 2.
Definition dxdt0 : fl :=
  t11 * t17 * (t53 + Thr * si2can * t6 * t28 * t49 * (ftanh (t43 * (pco7 + c
  * si2can * t6 * fsqrt (t34 + t38 + (t16 ** 2)) - 1)) * (1 / 2) + 1 / 2)) *
  -2.
Definition dxdt1 : fl :=
  t3 * t10 * (t62 + J2 * t39 * t42 * ((t40 ** 2) * t41 * 12 - 1) * (3 / 2))
  - t10 * t11 * t23 * t64 + g * t10 * t11 * t15 * t67.
Definition dxdt2 : fl :=
  -t2 * t10 * (t62 + J2 * t39 * t42 * (t41 * (t61 ** 2) * 12 - 1) * (3 / 2))
  - t10 * t11 * t26 * t64 - f * t10 * t11 * t15 * t67.
Definition dxdt3 : fl :=
  t2 * t10 * t11 * t14 * t67 * (-1 / 2).
Definition dxdt4 : fl :=
  t3 * t10 * t11 * t14 * t67 * (-1 / 2).
Definition dxdt5 : fl :=
  t5 * t79 - t10 * t11 * t15 * t67.
Definition dxdt6 : fl :=
  -(Thr * t60) / c.
Definition dxdt7 : fl :=
  pco6 * (t5 * t88 * (3 / 2) + t11 * t67 * t70 * (t7 - t29) * (1 / 2) + J2 *
  t4 * t5 * t41 * t65 * (t69 ** 2) * t72 * 24) - pco2 * (t3 * t70 * (t62 +
  J2 * t39 * t42 * (t41 * (t71 ** 2) * 12 - 1) * (3 / 2)) * (1 / 2) - t11 *
  t23 * t64 * t70 * (1 / 2) - J2 * t3 * t42 * t72 * (t41 * (t73 ** 2) * 12 -
  1) * 6 + g * t11 * t15 * t67 * t70 * (1 / 2) + J2 * g * t4 * t5 * t41 *
  t65 * t72 * (t74 ** 2) * 24 + J2 * t4 * t5 * t15 * t23 * t41 * t52 * t72 *
  48) + pco3 * (t2 * t70 * (t62 + J2 * t39 * t42 * (t41 * (t75 ** 2) * 12 -
  1) * (3 / 2)) * (1 / 2) + t11 * t26 * t70 * (t53 + t63) * (1 / 2) - J2 *
  t2 * t42 * t72 * (t41 * (t76 ** 2) * 12 - 1) * 6 + f * t11 * t67 * t70 *
  (t7 - t29) * (1 / 2) + J2 * f * t4 * t5 * t41 * t65 * t72 * (t77 ** 2) *
  24 - J2 * t4 * t5 * t15 * t26 * t41 * t52 * t72 * 48) + pco1 * t10 * t11 *
  (t53 + t63) * 3 + pco4 * t2 * t11 * t14 * t67 * t70 * (1 / 4) + pco5 * t3
  * t11 * t14 * t67 * t70 * (1 / 4) - J2 * pco1 * t4 * t5 * t15 * t41 * t52
  * t80 * 96 + J2 * pco4 * t2 * t4 * t5 * t65 * t72 * t78 * (t7 - t29) * 12
  + J2 * pco5 * t3 * t4 * t5 * t65 * t72 * t78 * (t7 - t29) * 12.
Definition dxdt8 : fl :=
  pco3 * (t90 + t10 * t11 * t15 * t67 - t2 * t10 * t26 * t82 * (t53 + t63) -
  f * t2 * t10 * t67 * t82 * (t7 - t29) + J2 * t4 * t5 * t80 * t85 * (t41 *
  (t86 ** 2) * 12 - 1) * 6 - J2 * f * t2 * t5 * t41 * t65 * t80 * (t87 ** 2)
  * 24 + J2 * t2 * t5 * t15 * t26 * t41 * t52 * t80 * 48) + pco2 * (t10 *
  t11 * t64 * (t85 + 1) - t2 * t10 * t23 * t82 * (t53 + t63) + g * t2 * t10
  * t15 * t67 * t82 - J2 * t2 * t3 * t4 * t5 * t80 * (t41 * (t83 ** 2) * 12
  - 1) * 6 + J2 * g * t2 * t5 * t41 * t65 * t80 * (t84 ** 2) * 24 + J2 * t2
  * t5 * t15 * t23 * t41 * t52 * t80 * 48) - pco6 * (t2 * t4 * t79 * 2 + t2
  * t10 * t15 * t67 * t82 + J2 * t2 * t5 * t41 * t65 * t80 * (t81 ** 2) *
  24) - pco1 * t2 * t17 * t64 * t82 * 2 - pco4 * t10 * t14 * t67 * t82 * t85
  * (1 / 2) - pco5 * t2 * t3 * t10 * t14 * t67 * t82 * (1 / 2) + J2 * pco1 *
  t2 * t5 * t41 * t52 * t88 * (t7 - t29) * 96 - J2 * pco4 * t5 * t15 * t65 *
  t78 * t80 * t85 * 12 - J2 * pco5 * t2 * t3 * t5 * t15 * t65 * t78 * t80 *
  12.
Definition dxdt9 : fl :=
  pco2 * (t90 - t10 * t11 * t67 * (t7 - t29) - t3 * t10 * t23 * t82 * (t53 +
  t63) + g * t3 * t10 * t15 * t67 * t82 - J2 * t4 * t5 * t80 * t92 * (t41 *
  (t89 ** 2) * 12 - 1) * 6 + J2 * g * t3 * t5 * t41 * t65 * t80 * (t91 ** 2)
  * 24 + J2 * t3 * t5 * t15 * t23 * t41 * t52 * t80 * 48) - pco6 * (t3 * t4
  * t79 * 2 + t3 * t10 * t15 * t67 * t82 + J2 * t3 * t5 * t41 * t65 * t80 *
  (t95 ** 2) * 24) + pco3 * (t10 * t11 * t64 * (t92 + 1) - t3 * t10 * t26 *
  t82 * (t53 + t63) - f * t3 * t10 * t67 * t82 * (t7 - t29) + J2 * t2 * t3 *
  t4 * t5 * t80 * (t41 * (t93 ** 2) * 12 - 1) * 6 - J2 * f * t3 * t5 * t41 *
  t65 * t80 * (t94 ** 2) * 24 + J2 * t3 * t5 * t15 * t26 * t41 * t52 * t80 *
  48) - pco1 * t3 * t17 * t64 * t82 * 2 - pco5 * t10 * t14 * t67 * t82 * t92
  * (1 / 2) - pco4 * t2 * t3 * t10 * t14 * t67 * t82 * (1 / 2) + J2 * pco1 *
  t3 * t5 * t41 * t52 * t88 * (t7 - t29) * 96 - J2 * pco5 * t5 * t15 * t65 *
  t78 * t80 * t92 * 12 - J2 * pco4 * t2 * t3 * t5 * t15 * t65 * t78 * t80 *
  12.
Definition dxdt10 : fl :=
  pco3 * (t10 * t11 * t26 * t121 - J2 * t2 * t42 * t80 * t126 * (3 / 2) + f
  * t3 * t10 * t11 * t115 + f * t10 * t11 * t96 * t118) + pco2 * (t10 * t11
  * t23 * t121 + J2 * t3 * t42 * t80 * t126 * (3 / 2) - g * t3 * t10 * t11 *
  t115 - g * t10 * t11 * t96 * t118) + pco6 * (t3 * t10 * t11 * t115 + t10 *
  t11 * t96 * t118) + pco1 * t11 * t17 * t121 * 2 + h * pco4 * t2 * t10 *
  t11 * t115 + h * pco5 * t3 * t10 * t11 * t115 - pco4 * t2 * t10 * t11 *
  t14 * t118 * (1 / 2) - pco5 * t3 * t10 * t11 * t14 * t118 * (1 / 2).
Definition dxdt11 : fl :=
  -pco3 * (t10 * t11 * t26 * t133 + J2 * t2 * t42 * t80 * t136 * (3 / 2) + f
  * t2 * t10 * t11 * t115 + f * t10 * t11 * t96 * t130) + pco2 * (-t10 * t11
  * t23 * t133 + J2 * t3 * t42 * t80 * t136 * (3 / 2) + g * t2 * t10 * t11 *
  t115 + g * t10 * t11 * t96 * t130) - pco6 * (t2 * t10 * t11 * t115 + t10 *
  t11 * t96 * t130) - pco1 * t11 * t17 * t133 * 2 + k * pco4 * t2 * t10 *
  t11 * t115 + k * pco5 * t3 * t10 * t11 * t115 + pco4 * t2 * t10 * t11 *
  t14 * t130 * (1 / 2) + pco5 * t3 * t10 * t11 * t14 * t130 * (1 / 2).
Definition dxdt12 : fl :=
  pco6 * (t4 * t79 * (t140 - t142) * 2 + t10 * t11 * t52 * t115 + t10 * t11
  * t96 * t157 - t10 * t82 * t96 * t115 * t141) + pco3 * (-t2 * t10 * t147 -
  t3 * t10 * t150 + t10 * t11 * (t22 - t3 * t141) * (t143 - t151) + t10 *
  t11 * t26 * (t153 + t154 - J2 * t39 * t41 * t42 * t124 * 12) + t10 * t26 *
  t82 * (t140 - t142) * (t143 - t151) + f * t10 * t11 * t52 * t115 + f * t10
  * t11 * t96 * t157 - f * t10 * t82 * t96 * t115 * t141) + pco2 * (t3 * t10
  * t147 - t2 * t10 * t150 + t10 * t11 * t23 * (t153 + t154 - J2 * t39 * t41
  * t42 * t124 * 12) - t10 * t11 * t144 * (t25 + t2 * t141) - g * t10 * t11
  * t52 * t115 - g * t10 * t11 * t96 * t157 + t10 * t23 * t82 * t141 * t144
  + g * t10 * t82 * t96 * t115 * t141) + pco1 * t11 * t17 * (t153 + t154 -
  J2 * t39 * t41 * t42 * t124 * 12) * 2 + pco1 * t17 * t82 * (t140 - t142) *
  (t143 - t151) * 2 - pco4 * t3 * t10 * t11 * t14 * t115 * (1 / 2) + pco5 *
  t2 * t10 * t11 * t14 * t115 * (1 / 2) - pco4 * t2 * t10 * t11 * t14 * t157
  * (1 / 2) - pco5 * t3 * t10 * t11 * t14 * t157 * (1 / 2) + pco4 * t2 * t10
  * t14 * t82 * t115 * (t140 - t142) * (1 / 2) + pco5 * t3 * t10 * t14 * t82
  * t115 * (t140 - t142) * (1 / 2).
Definition dxdt13 : fl :=
  -pco3 * (Thr * si2can * t2 * t10 * t37 * t112 * t113 * t158 + Thr * si2can
  * t10 * t11 * t26 * t28 * t112 * t113 * t158 - Thr * si2can * f * t10 *
  t11 * t96 * t101 * t112 * t113 * t158) - pco2 * (-Thr * si2can * t3 * t10
  * t37 * t112 * t113 * t158 + Thr * si2can * t10 * t11 * t23 * t28 * t112 *
  t113 * t158 + Thr * si2can * g * t10 * t11 * t96 * t101 * t112 * t113 *
  t158) - Thr * si2can * pco1 * t11 * t17 * t28 * t112 * t113 * t158 * 2 +
  Thr * si2can * pco6 * t10 * t11 * t96 * t101 * t112 * t113 * t158 - Thr *
  si2can * pco4 * t2 * t10 * t11 * t14 * t101 * t112 * t113 * t158 * (1 / 2)
  - Thr * si2can * pco5 * t3 * t10 * t11 * t14 * t101 * t112 * t113 * t158 *
  (1 / 2).

(** [dxdt = np.zeros(14)] with its fourteen entries assigned. *)
Definition dxdt : list fl :=
  [dxdt0; dxdt1; dxdt2; dxdt3; dxdt4; dxdt5; dxdt6; dxdt7; dxdt8; dxdt9;
   dxdt10; dxdt11; dxdt12; dxdt13].

(** The divisors of the divisions of lines 94-258 in the order of the
    source: those of [t6] (line 100), [t11] (103), [t39] (134), [t41] (136),
    [t43] (138), [t49] (141), [t70] (162), [t72] (164), [t78] (170), [t79]
    (171), [t80] (172), [t82] (174), [t88] (180), [t104] (196), [t113]
    (205), [t158] (250) and [dxdt[6]] (258).  Every other division of the
    block has one of the literals 2 and 4 for divisor. *)
Definition divisors : list fl :=
  [lit m; t4; p ** 4; t14 ** 2; lit rho; fsqrt t48; fsqrt p; p ** 4.5; t14;
   p ** 1.5; p ** 3.5; t4 ** 2; p ** 2.5; t14 ** 3; fsqrt t103; m ** 2;
   lit c].

End Minfuel.

(** [eom_mee_twobodyJ2_minfuel], lines 44-274, compiled by numba: the
    state is read, the block of lines 94-258 is run, where a zero divisor
    raises, and the fourteen rates are returned. *)
Definition eom_mee_twobodyJ2_minfuel (K : cn.t) (V : sc.t)
           (t : R) (x : list R) (rho : R) (eclipse : bool) : res (list fl) :=
  ' p <- index x 0 ;;
  ' f <- index x 1 ;;
  ' g <- index x 2 ;;
  ' h <- index x 3 ;;
  ' k <- index x 4 ;;
  ' L <- index x 5 ;;
  ' m <- index x 6 ;;
  ' pco1 <- index x 7 ;;
  ' pco2 <- index x 8 ;;
  ' pco3 <- index x 9 ;;
  ' pco4 <- index x 10 ;;
  ' pco5 <- index x 11 ;;
  ' pco6 <- index x 12 ;;
  ' pco7 <- index x 13 ;;
  ' _ <- check_divisors
           (divisors V p f g h k L m pco1 pco2 pco3 pco4 pco5 pco6 rho) ;;
  Ok (dxdt K V p f g h k L m pco1 pco2 pco3 pco4 pco5 pco6 pco7 rho).

End Eom.

(** ** Specification-side definitions *)

(** A batch is a two-dimensional array with fourteen columns. *)
Definition batch_ok (data : list (list R)) : Prop :=
  Forall (fun row => List.length row = 14%nat) data.

(** The smoothed Heaviside law of the specification, on reals. *)
Definition throttle (s rho : R) : R := 0.5 * (1 + tanh (s / rho)).

(** A float is defined when it holds a real number. *)
Definition defined (x : fl) : Prop := exists a : R, x = Some a.

Definition defined3 (u : vec3) : Prop :=
  defined (vx u) /\ defined (vy u) /\ defined (vz u).

Definition lit3 (u : R * R * R) : vec3 :=
  (lit (fst (fst u)), lit (snd (fst u)), lit (snd u)).

Definition lit33 (M : (R * R * R) * (R * R * R) * (R * R * R)) : mat3 :=
  (lit3 (fst (fst M)), lit3 (snd (fst M)), lit3 (snd M)).

(** The denominator [1 + f cos L + g sin L] of the orbital radius. *)
Definition qterm (f g L : R) : R := 1 + f * cos L + g * sin L.

(** The costate-weighted control-influence vector [B^T lambda] in closed
    form, for the standard control-influence matrix of the modified
    equinoctial elements. *)
Definition BTL_real (p f g h k L plam flam glam hlam klam Llam : R)
  : R * R * R :=
  let q := qterm f g L in
  let s := 1 + h * h + k * k in
  let C3 := h * sin L - k * cos L in
  (sqrt p * (sin L * flam - cos L * glam),
   sqrt p / q * (2 * p * plam + ((q + 1) * cos L + f) * flam
                 + ((q + 1) * sin L + g) * glam),
   sqrt p / q * (C3 * (f * glam - g * flam + Llam)
                 + s / 2 * (cos L * hlam + sin L * klam))).

Definition norm_real (u : R * R * R) : R :=
  sqrt (fst (fst u) * fst (fst u) + snd (fst u) * snd (fst u)
        + snd u * snd u).

(** What [switch_function] computes for one row of the batch. *)
Definition sample_BTL (row : list R) : vec3 :=
  Functions.matmulT
    (Functions.B_matrix (nth 0 row 0) (nth 1 row 0) (nth 2 row 0)
                        (nth 3 row 0) (nth 4 row 0) (nth 5 row 0))
    [lit (nth 7 row 0); lit (nth 8 row 0); lit (nth 9 row 0);
     lit (nth 10 row 0); lit (nth 11 row 0); lit (nth 12 row 0);
     lit (nth 13 row 0)].

Definition sample_S (V : sc.t) (row : list R) : fl :=
  (sc.c V * sc.si2can V * norm (sample_BTL row) / nth 6 row 0
   + nth 13 row 0 - 1)%fl.

Definition sample_delta (V : sc.t) (rho : R) (row : list R) : fl :=
  (0.5 * (1 + ftanh (sample_S V row / rho)))%fl.

(** The cross product of two real triples. *)
Definition cross_real (a b : R * R * R) : R * R * R :=
  (snd (fst a) * snd b - snd a * snd (fst b),
   snd a * fst (fst b) - fst (fst a) * snd b,
   fst (fst a) * snd (fst b) - snd (fst a) * fst (fst b)).

(** A real triple divided by a scalar. *)
Definition div_real (a : R * R * R) (s : R) : R * R * R :=
  (fst (fst a) / s, snd (fst a) / s, snd a / s).

(** The fourteen columns of a well-shaped batch. *)
Definition columns_of (data : list (list R)) : Functions.columns :=
  let col j := map (fun row : list R => nth j row 0) data in
  {| Functions.col_p := col 0%nat; Functions.col_f := col 1%nat;
     Functions.col_g := col 2%nat; Functions.col_h := col 3%nat;
     Functions.col_k := col 4%nat; Functions.col_L := col 5%nat;
     Functions.col_m := col 6%nat; Functions.col_plam := col 7%nat;
     Functions.col_flam := col 8%nat; Functions.col_glam := col 9%nat;
     Functions.col_hlam := col 10%nat; Functions.col_klam := col 11%nat;
     Functions.col_Llam := col 12%nat; Functions.col_mlam := col 13%nat |}.

(** The loop state of [switch_function] once the first [j] samples are
    processed. *)
Definition switch_state (V : sc.t) (rho : R) (data : list (list R))
           (j : nat) : list fl * list fl * list vec3 :=
  (map (sample_S V) (firstn j data) ++ zeros (List.length data - j),
   map (sample_delta V rho) (firstn j data) ++ zeros (List.length data - j),
   map sample_BTL (firstn j data)).

(** Sample configurations and states used in the examples below. *)
Definition K_unit : cn.t :=
  {| cn.mu := 1; cn.J2 := 0; cn.Req := 1; cn.DU := 1; cn.Power := 1;
     cn.P := 1; cn.g0 := 1 |}.

Definition K_mu4 : cn.t :=
  {| cn.mu := 4; cn.J2 := 0; cn.Req := 1; cn.DU := 1; cn.Power := 1;
     cn.P := 1; cn.g0 := 1 |}.

Definition V_unit : sc.t :=
  {| sc.c := 1; sc.si2can := 1; sc.A := 1; sc.eta := 1; sc.Isp := 1;
     sc.Thr := 1 |}.

Definition V_coast : sc.t :=
  {| sc.c := 1; sc.si2can := 1; sc.A := 1; sc.eta := 1; sc.Isp := 1;
     sc.Thr := 0 |}.

(** A configuration in which [cn.P] and [cn.Power] differ. *)
Definition K_split : cn.t :=
  {| cn.mu := 1; cn.J2 := 0; cn.Req := 1; cn.DU := 1; cn.Power := 1;
     cn.P := 2; cn.g0 := 1 |}.

(** The loop state of [thrust_angle] for a batch of one sample. *)
Definition st_one : Functions.thrust_state :=
  {| Functions.st_F := zeros 1; Functions.st_zeta := zeros 1;
     Functions.st_Pa := zeros 1; Functions.st_u_inert := zeros3 1;
     Functions.st_u_lvlh := zeros3 1 |}.

(** A circular orbit of unit radius with all costates zero. *)
Definition x_zero_costates : list R :=
  [1; 0; 0; 0; 0; 0; 1; 0; 0; 0; 0; 0; 0; 0].

(** The same orbit with [lambda_f = 1]. *)
Definition x_flam : list R := [1; 0; 0; 0; 0; 0; 1; 0; 1; 0; 0; 0; 0; 0].

(** The state [x_flam] with the mass set to zero. *)
Definition x_massless : list R := [1; 0; 0; 0; 0; 0; 0; 0; 1; 0; 0; 0; 0; 0].

(** A state with zero orbital costates and mass costate 41: its switch
    function is 40. *)
Definition x_saturated : list R :=
  [1; 0; 0; 0; 0; 0; 1; 0; 0; 0; 0; 0; 0; 41].

(** Binary64 arithmetic, for the saturation of the throttle. *)
Module F64.
Import PrimFloat.

Definition one : float := 1%float.

(** The largest binary64 number below 1, which is [1 - 2^-53]. *)
Definition below_one : float := next_down 1%float.

(** The last two operations of line 179 of [functions.py],
    [0.5*(1 + np.tanh(S[i]/rho))], from the float [th] that [np.tanh] has
    returned. *)
Definition throttle_f64 (th : float) : float :=
  mul 0.5%float (add 1%float th).

End F64.

(** * Properties *)

(** ** Laws of the float operations *)

Lemma fdiv_some (a b : R) : b <> 0 -> fdiv (Some a) (Some b) = Some (a / b).
Proof.
  intros Hb. unfold fdiv.
  destruct (Req_dec_T b 0) as [E | _]; [contradiction | reflexivity].
Qed.

Lemma fdiv_zero (x : fl) : fdiv x (Some 0) = None.
Proof.
  destruct x as [a |]; [| reflexivity].
  unfold fdiv. destruct (Req_dec_T 0 0) as [_ | N]; [reflexivity | now elim N].
Qed.

Lemma fdiv_none_r (x : fl) : fdiv x None = None.
Proof. now destruct x. Qed.

Lemma fsqrt_some (a : R) : 0 <= a -> fsqrt (Some a) = Some (sqrt a).
Proof.
  intros Ha. unfold fsqrt.
  destruct (Rlt_dec a 0) as [N | _]; [lra | reflexivity].
Qed.

Lemma fsqrt_neg (a : R) : a < 0 -> fsqrt (Some a) = None.
Proof.
  intros Ha. unfold fsqrt.
  destruct (Rlt_dec a 0) as [_ | N]; [reflexivity | contradiction].
Qed.

Lemma lift2_none_r (op : R -> R -> R) (x : fl) : lift2 op x None = None.
Proof. now destruct x. Qed.

Lemma fmul_none_r (x : fl) : fmul x None = None.
Proof. apply lift2_none_r. Qed.

Lemma fadd_none_r (x : fl) : fadd x None = None.
Proof. apply lift2_none_r. Qed.

Lemma fsub_none_r (x : fl) : fsub x None = None.
Proof. apply lift2_none_r. Qed.

Lemma fpow_2 (a : R) : fpow (Some a) 2 = Some (a * a).
Proof. unfold fpow; simpl. f_equal. ring. Qed.

Lemma fpow_3 (a : R) : fpow (Some a) 3 = Some (a * a * a).
Proof. unfold fpow; simpl. f_equal. ring. Qed.

Lemma fpow_4 (a : R) : fpow (Some a) 4 = Some (a * a * a * a).
Proof. unfold fpow; simpl. f_equal. ring. Qed.

Lemma fabs_sq (x : fl) : fpow (fabs x) 2 = fmul x x.
Proof.
  destruct x as [a |]; [| reflexivity].
  unfold fabs, lift1. rewrite fpow_2. cbn. f_equal.
  rewrite <- (Rabs_mult a a). apply Rabs_pos_eq. nra.
Qed.

(** A half-integral power of a positive base. *)
Lemma Rpower_half (a : R) (n : nat) :
  0 < a -> Rpower a (INR n + / 2) = a ^ n * sqrt a.
Proof.
  intros Ha. rewrite Rpower_plus, Rpower_pow, Rpower_sqrt by assumption.
  reflexivity.
Qed.

Lemma Q2R_half (n : positive) :
  Q2R (Zpos (n~1) # 2) = INR (Pos.to_nat n) + / 2.
Proof.
  unfold Q2R. cbn [Qnum Qden].
  rewrite Pos2Z.inj_xI, plus_IZR, mult_IZR, INR_IZR_INZ, Znat.positive_nat_Z.
  field.
Qed.

Lemma fpow_frac (a : R) (y : Q) (n : positive) :
  Qred y = (Zpos (n~1) # 2)%Q -> 0 <= a ->
  fpow (Some a) y = Some (a ^ Pos.to_nat n * sqrt a).
Proof.
  intros Hy Ha. unfold fpow. rewrite Hy. cbn [Qden Qnum].
  destruct (Rlt_dec a 0) as [N | _]; [lra |].
  destruct (Req_dec_T a 0) as [E | N].
  - subst a. rewrite sqrt_0, Rmult_0_r.
    destruct (Qlt_le_dec 0 (Zpos (n~1) # 2)) as [_ | Hle]; [reflexivity |].
    exfalso. unfold Qle in Hle. cbn in Hle. lia.
  - rewrite Q2R_half, Rpower_half by lra. reflexivity.
Qed.

Lemma fpow_1_5 (a : R) : 0 <= a -> fpow (Some a) 1.5 = Some (a * sqrt a).
Proof.
  intros Ha. rewrite (fpow_frac a _ 1) by (reflexivity || assumption).
  f_equal. simpl. ring.
Qed.

(** ** Arrays, columns and loops *)

Lemma index_nth_error {A : Type} (l : list A) (i : nat) (a : A) :
  nth_error l i = Some a -> index l i = Ok a.
Proof. intros H. unfold index. now rewrite H. Qed.

Lemma index_map {A B : Type} (fn : A -> B) (l : list A) (i : nat) (a : A) :
  nth_error l i = Some a -> index (map fn l) i = Ok (fn a).
Proof.
  intros H. apply index_nth_error. rewrite nth_error_map, H. reflexivity.
Qed.

Lemma index_middle {A : Type} (l1 l2 : list A) (a : A) :
  index (l1 ++ a :: l2) (List.length l1) = Ok a.
Proof.
  apply index_nth_error. rewrite nth_error_app2 by lia.
  now rewrite Nat.sub_diag.
Qed.

Lemma set_index_middle {A : Type} (l1 l2 : list A) (a v : A) :
  set_index (l1 ++ a :: l2) (List.length l1) v = Ok (l1 ++ v :: l2).
Proof.
  induction l1 as [| b l1 IH]; cbn; [reflexivity |].
  now rewrite IH.
Qed.

Lemma index_row (row : list R) (j : nat) :
  (j < List.length row)%nat -> index row j = Ok (nth j row 0).
Proof.
  intros Hj. apply index_nth_error. now apply nth_error_nth'.
Qed.

Lemma column_ok (data : list (list R)) (j : nat) :
  batch_ok data -> (j < 14)%nat ->
  column data j = Ok (map (fun row => nth j row 0) data).
Proof.
  intros Hd Hj. induction Hd as [| row rest Hrow _ IH]; cbn; [reflexivity |].
  rewrite index_row by lia. cbn. rewrite IH. reflexivity.
Qed.

Lemma assign_variables_ok (data : list (list R)) :
  batch_ok data -> Functions.assign_variables data = Ok (columns_of data).
Proof.
  intros Hd. unfold Functions.assign_variables.
  repeat (rewrite (column_ok data) by (assumption || lia); cbn [bind]).
  reflexivity.
Qed.

Lemma firstn_snoc {A : Type} (l : list A) (j : nat) (a : A) :
  nth_error l j = Some a -> firstn (S j) l = firstn j l ++ [a].
Proof.
  revert j. induction l as [| b l IH]; intros [| j] H; cbn in *; try discriminate.
  - now inversion H.
  - now rewrite (IH j H).
Qed.

Lemma zeros_unfold (n j : nat) :
  (j < n)%nat -> zeros (n - j) = lit 0 :: zeros (n - S j).
Proof.
  intros H. unfold zeros. replace (n - j)%nat with (S (n - S j)) by lia.
  reflexivity.
Qed.

Lemma switch_body_step (V : sc.t) (rho : R) (data : list (list R))
      (j : nat) (row : list R) :
  nth_error data j = Some row ->
  Functions.switch_body V (columns_of data) rho j (switch_state V rho data j)
  = Ok (switch_state V rho data (S j)).
Proof.
  intros Hrow.
  assert (Hj : (j < List.length data)%nat)
    by (apply nth_error_Some; congruence).
  assert (Hlen : forall (B : Type) (fn : list R -> B),
             List.length (map fn (firstn j data)) = j)
    by (intros; rewrite length_map, length_firstn; lia).
  unfold Functions.switch_body, switch_state, columns_of.
  cbn [Functions.col_p Functions.col_f Functions.col_g Functions.col_h
       Functions.col_k Functions.col_L Functions.col_m Functions.col_plam
       Functions.col_flam Functions.col_glam Functions.col_hlam
       Functions.col_klam Functions.col_Llam Functions.col_mlam].
  repeat (rewrite (index_map _ data j row Hrow); cbn [bind]).
  rewrite (zeros_unfold _ j Hj).
  pose proof (index_middle (map sample_BTL (firstn j data)) []) as HB.
  rewrite Hlen in HB. rewrite HB. cbn [bind].
  pose proof (set_index_middle (map (sample_S V) (firstn j data))) as HS.
  rewrite Hlen in HS. rewrite HS. cbn [bind].
  pose proof (index_middle (map (sample_S V) (firstn j data))) as HS'.
  rewrite Hlen in HS'. rewrite HS'. cbn [bind].
  pose proof (set_index_middle (map (sample_delta V rho) (firstn j data))) as HD.
  rewrite Hlen in HD. rewrite HD. cbn [bind].
  rewrite (firstn_snoc data j row Hrow), !map_app, <- !app_assoc.
  reflexivity.
Qed.

Lemma switch_loop (V : sc.t) (rho : R) (data : list (list R)) (n j : nat) :
  (j + n = List.length data)%nat ->
  for_each (Functions.switch_body V (columns_of data) rho) (seq j n)
           (switch_state V rho data j)
  = Ok (switch_state V rho data (List.length data)).
Proof.
  revert j. induction n as [| n IH]; intros j Hn; cbn [seq for_each].
  - now replace j with (List.length data) by lia.
  - destruct (nth_error data j) as [row |] eqn:Hrow.
    + rewrite (switch_body_step V rho data j row Hrow). cbn [bind].
      apply IH. lia.
    + apply nth_error_None in Hrow. lia.
Qed.

(** On a well-shaped batch [switch_function] returns the per-sample values. *)
Lemma switch_function_ok (V : sc.t) (rho : R) (data : list (list R)) :
  batch_ok data ->
  Functions.switch_function V data rho
  = Ok (map (sample_S V) data, map (sample_delta V rho) data,
        map sample_BTL data).
Proof.
  intros Hd. unfold Functions.switch_function, for_range.
  rewrite (assign_variables_ok data Hd). cbn [bind].
  pose proof (switch_loop V rho data (List.length data) 0 eq_refl) as H.
  unfold switch_state in H at 1. rewrite Nat.sub_0_r in H. cbn [firstn map app] in H.
  rewrite H. unfold switch_state.
  rewrite firstn_all, Nat.sub_diag. cbn [zeros repeat]. now rewrite !app_nil_r.
Qed.

Ltac fl_unfold :=
  cbn [fadd fsub fmul fneg fabs fcos fsin ftan ftanh lift1 lift2 lit
       vx vy vz fst snd cross norm vdiv vscale vneg dot row1 row2 row3
       matvec transpose3 matmul3 det3 identity3 lit3 lit33];
  unfold lit.

Ltac fl_side := solve [assumption | lra | nra | apply sqrt_pos | apply Rle_refl].

Ltac fl_norm :=
  repeat first
    [ progress fl_unfold
    | rewrite fpow_2
    | rewrite fpow_3
    | rewrite fpow_4
    | rewrite fdiv_some by fl_side
    | rewrite fsqrt_some by fl_side ].

Lemma vec3_some_eq (a b c a' b' c' : R) :
  a = a' -> b = b' -> c = c' ->
  (Some a, Some b, Some c) = ((Some a', Some b', Some c') : vec3).
Proof. now intros -> -> ->. Qed.

Lemma sample_BTL_real (p f g h k L m plam flam glam hlam klam Llam mlam : R) :
  0 <= p -> qterm f g L <> 0 ->
  sample_BTL [p; f; g; h; k; L; m; plam; flam; glam; hlam; klam; Llam; mlam]
  = lit3 (BTL_real p f g h k L plam flam glam hlam klam Llam).
Proof.
  intros Hp Hq. unfold qterm in Hq.
  unfold sample_BTL, BTL_real, qterm, Functions.B_matrix, Functions.matmulT.
  cbn [nth]. fl_norm.
  unfold lit3, lit; cbn [fst snd].
  apply vec3_some_eq; field; assumption.
Qed.

Lemma defined_lift2 (op : R -> R -> R) (x y : fl) :
  defined (lift2 op x y) -> defined x /\ defined y.
Proof.
  destruct x as [a |], y as [b |]; intros [d Hd]; try discriminate Hd.
  split; eexists; reflexivity.
Qed.

Lemma defined_lift1 (op : R -> R) (x : fl) : defined (lift1 op x) -> defined x.
Proof.
  destruct x as [a |]; intros [d Hd]; try discriminate Hd.
  eexists; reflexivity.
Qed.

Lemma defined_fdiv (x : fl) (b : R) :
  defined (fdiv x (lit b)) -> defined x /\ b <> 0.
Proof.
  destruct x as [a |]; intros [d Hd]; try discriminate Hd.
  unfold fdiv, lit in Hd. destruct (Req_dec_T b 0); try discriminate Hd.
  split; [eexists; reflexivity | assumption].
Qed.

Lemma defined_fdiv_l (x y : fl) : defined (fdiv x y) -> defined x /\ defined y.
Proof.
  destruct x as [a |], y as [b |]; intros [d Hd]; try discriminate Hd.
  split; eexists; reflexivity.
Qed.

Lemma defined_fsqrt (a : R) : defined (fsqrt (lit a)) -> 0 <= a.
Proof.
  intros [d Hd]. unfold fsqrt, lit in Hd.
  destruct (Rlt_dec a 0); [discriminate Hd | lra].
Qed.

Lemma defined_fsqrt_arg (x : fl) : defined (fsqrt x) -> defined x.
Proof.
  destruct x as [a |]; intros [d Hd]; try discriminate Hd.
  eexists; reflexivity.
Qed.

(** Break a hypothesis [defined e] down to the operands of [e]. *)
Ltac inv_defined :=
  repeat match goal with
    | H : defined (fadd _ _) |- _ => apply defined_lift2 in H; destruct H
    | H : defined (fsub _ _) |- _ => apply defined_lift2 in H; destruct H
    | H : defined (fmul _ _) |- _ => apply defined_lift2 in H; destruct H
    | H : defined (fneg _) |- _ => apply defined_lift1 in H
    | H : defined (ftanh _) |- _ => apply defined_lift1 in H
    | H : defined (fabs _) |- _ => apply defined_lift1 in H
    | H : defined (fdiv _ (lit _)) |- _ => apply defined_fdiv in H; destruct H
    | H : defined (fdiv _ _) |- _ => apply defined_fdiv_l in H; destruct H
    | H : defined (fsqrt (lit _)) |- _ => apply defined_fsqrt in H
    | H : defined (fsqrt _) |- _ => apply defined_fsqrt_arg in H
    end.

Lemma norm_some (a b c : R) :
  norm (Some a, Some b, Some c) = Some (sqrt (a * a + b * b + c * c)).
Proof.
  unfold norm. fl_unfold. apply fsqrt_some. nra.
Qed.

Lemma norm_lit3 (u : R * R * R) : norm (lit3 u) = Some (norm_real u).
Proof. destruct u as [[a b] c]. apply norm_some. Qed.

Lemma row14 (row : list R) :
  List.length row = 14%nat ->
  row = [nth 0 row 0; nth 1 row 0; nth 2 row 0; nth 3 row 0; nth 4 row 0;
         nth 5 row 0; nth 6 row 0; nth 7 row 0; nth 8 row 0; nth 9 row 0;
         nth 10 row 0; nth 11 row 0; nth 12 row 0; nth 13 row 0].
Proof.
  intros H.
  do 14 (destruct row as [| ? row]; [discriminate H |]).
  destruct row; [reflexivity | discriminate H].
Qed.

Section Sample.

Variable V : sc.t.
Variables p f g h k L m plam flam glam hlam klam Llam mlam : R.

Let row : list R :=
  [p; f; g; h; k; L; m; plam; flam; glam; hlam; klam; Llam; mlam].

Let S_real : R :=
  sc.c V * sc.si2can V
  * norm_real (BTL_real p f g h k L plam flam glam hlam klam Llam) / m
  + mlam - 1.

Lemma sample_S_real :
  0 <= p -> qterm f g L <> 0 -> m <> 0 -> sample_S V row = Some S_real.
Proof.
  intros Hp Hq Hm. unfold sample_S, row, S_real.
  rewrite sample_BTL_real, norm_lit3 by assumption.
  cbn [nth]. fl_norm. reflexivity.
Qed.

Lemma sample_delta_real (rho : R) :
  0 <= p -> qterm f g L <> 0 -> m <> 0 -> rho <> 0 ->
  sample_delta V rho row = Some (throttle S_real rho).
Proof.
  intros Hp Hq Hm Hr. unfold sample_delta. rewrite sample_S_real by assumption.
  fl_norm. reflexivity.
Qed.

(** Conversely, a defined throttle forces every operand to be valid. *)
Lemma sample_delta_defined (rho : R) :
  defined (sample_delta V rho row) ->
  0 <= p /\ qterm f g L <> 0 /\ m <> 0 /\ rho <> 0.
Proof.
  unfold sample_delta, sample_S, sample_BTL, row,
    Functions.B_matrix, Functions.matmulT, norm.
  cbn [nth vx vy vz fst snd].
  change (1 + f * fcos L + g * fsin L)%fl with (lit (qterm f g L)).
  intros H. inv_defined.
  repeat split; assumption.
Qed.

End Sample.

(** ** The smoothed throttle law *)

Lemma tanh_exp (x : R) : tanh x = (exp (2 * x) - 1) / (exp (2 * x) + 1).
Proof.
  unfold tanh, sinh, cosh.
  replace (2 * x) with (x + x) by ring.
  rewrite exp_plus, exp_Ropp.
  pose proof (exp_pos x) as He.
  field. split; nra.
Qed.

Lemma throttle_exp (s rho : R) :
  throttle s rho = exp (2 * (s / rho)) / (exp (2 * (s / rho)) + 1).
Proof.
  unfold throttle. rewrite tanh_exp.
  pose proof (exp_pos (2 * (s / rho))) as He.
  replace 0.5 with (/ 2) by lra.
  field. lra.
Qed.

Lemma throttle_range (s rho : R) : 0 < throttle s rho < 1.
Proof.
  rewrite throttle_exp.
  pose proof (exp_pos (2 * (s / rho))) as He.
  split.
  - apply Rdiv_lt_0_compat; lra.
  - apply (Rmult_lt_reg_r (exp (2 * (s / rho)) + 1)); [lra |].
    unfold Rdiv. rewrite Rmult_assoc, Rinv_l by lra. lra.
Qed.

Lemma throttle_zero (rho : R) : throttle 0 rho = 0.5.
Proof.
  rewrite throttle_exp.
  replace (2 * (0 / rho)) with 0 by (unfold Rdiv; ring).
  rewrite exp_0. lra.
Qed.

Lemma logistic_le (a b : R) : 0 < a -> a <= b -> a / (a + 1) <= b / (b + 1).
Proof.
  intros Ha Hab.
  apply (Rmult_le_reg_r ((a + 1) * (b + 1))); [nra |].
  replace (a / (a + 1) * ((a + 1) * (b + 1))) with (a * (b + 1)) by (field; lra).
  replace (b / (b + 1) * ((a + 1) * (b + 1))) with (b * (a + 1)) by (field; lra).
  lra.
Qed.

Lemma exp_le (x y : R) : x <= y -> exp x <= exp y.
Proof.
  intros [Hlt | ->]; [left; now apply exp_increasing | right; reflexivity].
Qed.

Lemma throttle_monotone (rho s1 s2 : R) :
  0 < rho -> s1 <= s2 -> throttle s1 rho <= throttle s2 rho.
Proof.
  intros Hr Hs. rewrite !throttle_exp.
  apply logistic_le; [apply exp_pos |].
  apply exp_le. apply Rmult_le_compat_l; [lra |].
  unfold Rdiv. apply Rmult_le_compat_r; [| assumption].
  left. now apply Rinv_0_lt_compat.
Qed.

Lemma throttle_limit_high (rho eps : R) :
  0 < rho -> 0 < eps ->
  exists M, forall s, M < s -> 1 - eps < throttle s rho.
Proof.
  intros Hr He. exists (rho / eps). intros s Hs.
  rewrite throttle_exp.
  assert (Hx : / eps < s / rho).
  { apply (Rmult_lt_reg_r rho); [assumption |].
    replace (s / rho * rho) with s by (field; lra).
    replace (/ eps * rho) with (rho / eps) by (field; lra). assumption. }
  assert (Hinv : 0 < / eps) by now apply Rinv_0_lt_compat.
  pose proof (exp_ineq1 (2 * (s / rho)) ltac:(lra)) as Hexp.
  set (E := exp (2 * (s / rho))) in *.
  assert (HE : / eps < E) by lra.
  assert (HeE : 1 < eps * E).
  { replace 1 with (eps * / eps) by (field; lra).
    apply Rmult_lt_compat_l; assumption. }
  apply (Rmult_lt_reg_r (E + 1)); [lra |].
  replace (E / (E + 1) * (E + 1)) with E by (field; lra).
  nra.
Qed.

Lemma throttle_limit_low (rho eps : R) :
  0 < rho -> 0 < eps ->
  exists M, forall s, s < M -> throttle s rho < eps.
Proof.
  intros Hr He. exists (- (rho / eps)). intros s Hs.
  rewrite throttle_exp.
  assert (Hx : / eps < - (s / rho)).
  { apply (Rmult_lt_reg_r rho); [assumption |].
    replace (- (s / rho) * rho) with (- s) by (field; lra).
    replace (/ eps * rho) with (rho / eps) by (field; lra). lra. }
  assert (Hinv : 0 < / eps) by now apply Rinv_0_lt_compat.
  pose proof (exp_ineq1 (- (2 * (s / rho))) ltac:(lra)) as Hexp.
  rewrite exp_Ropp in Hexp.
  pose proof (exp_pos (2 * (s / rho))) as HE.
  set (E := exp (2 * (s / rho))) in *.
  assert (HeE : E < eps).
  { assert (H1 : / eps < / E) by lra.
    assert (HiE : 0 < / E) by now apply Rinv_0_lt_compat.
    apply Rinv_lt_contravar in H1; [| now apply Rmult_lt_0_compat].
    now rewrite !Rinv_inv in H1. }
  apply Rlt_trans with E; [| assumption].
  apply (Rmult_lt_reg_r (E + 1)); [lra |].
  replace (E / (E + 1) * (E + 1)) with E by (field; lra).
  nra.
Qed.

(** ** [switch_function] *)


(** The sample states. *)
Lemma x_flam_qterm : qterm 0 0 0 = 1.
Proof. unfold qterm. rewrite cos_0, sin_0. ring. Qed.

Lemma x_flam_BTL :
  BTL_real 1 0 0 0 0 0 0 1 0 0 0 0 = (0, 2, 0).
Proof.
  unfold BTL_real. rewrite x_flam_qterm, cos_0, sin_0, sqrt_1.
  repeat f_equal; field.
Qed.

Lemma x_flam_BTL_nonzero :
  norm_real (BTL_real 1 0 0 0 0 0 0 1 0 0 0 0) <> 0.
Proof.
  rewrite x_flam_BTL. unfold norm_real. cbn [fst snd].
  replace (0 * 0 + 2 * 2 + 0 * 0) with (2 * 2) by ring.
  rewrite sqrt_square; lra.
Qed.

Lemma x_zero_costates_BTL :
  norm_real (BTL_real 1 0 0 0 0 0 0 0 0 0 0 0) = 0.
Proof.
  unfold BTL_real, norm_real. cbn [fst snd].
  replace (sqrt 1 * (sin 0 * 0 - cos 0 * 0)) with 0 by ring.
  replace (sqrt 1 / qterm 0 0 0
           * (2 * 1 * 0 + ((qterm 0 0 0 + 1) * cos 0 + 0) * 0
              + ((qterm 0 0 0 + 1) * sin 0 + 0) * 0)) with 0
    by (rewrite x_flam_qterm; field).
  replace (sqrt 1 / qterm 0 0 0
           * ((0 * sin 0 - 0 * cos 0) * (0 * 0 - 0 * 0 + 0)
              + (1 + 0 * 0 + 0 * 0) / 2 * (cos 0 * 0 + sin 0 * 0))) with 0
    by (rewrite x_flam_qterm; field).
  replace (0 * 0 + 0 * 0 + 0 * 0) with 0 by ring. apply sqrt_0.
Qed.

Lemma x_saturated_S : sample_S V_unit x_saturated = Some 40.
Proof.
  unfold x_saturated. rewrite sample_S_real by (rewrite ?x_flam_qterm; lra).
  rewrite x_zero_costates_BTL. cbn [sc.c sc.si2can V_unit]. f_equal. field.
Qed.

(** [exp 80] exceeds [2^54], so [tanh 40] is within [2^-53] of 1. *)
Lemma exp_double (n : nat) (x : R) :
  2 ^ n < exp x -> 2 ^ (n + n) < exp (x + x).
Proof.
  intros H. rewrite exp_plus, pow_add.
  assert (0 < 2 ^ n) by (apply pow_lt; lra).
  apply Rmult_gt_0_lt_compat; lra.
Qed.

Lemma exp_80 : 2 ^ 54 < exp 80.
Proof.
  assert (H1 : 2 ^ 1 < exp 1) by (pose proof (exp_ineq1 1 ltac:(lra)); lra).
  do 6 apply exp_double in H1. cbn [Nat.add] in H1.
  apply Rlt_trans with (2 ^ 64).
  - apply Rlt_pow; [lra | lia].
  - eapply Rlt_trans; [exact H1 |]. apply exp_increasing. lra.
Qed.

Lemma tanh_40 : 1 - / 2 ^ 53 < tanh (40 / 1) < 1.
Proof.
  replace (40 / 1) with 40 by field. rewrite tanh_exp.
  replace (2 * 40) with 80 by ring.
  pose proof exp_80 as HE. set (E := exp 80) in *.
  assert (H54 : 2 ^ 54 = 2 * 2 ^ 53) by ring.
  assert (H53 : 0 < 2 ^ 53) by (apply pow_lt; lra).
  assert (Hi : 0 < / 2 ^ 53) by now apply Rinv_0_lt_compat.
  assert (HE1 : 0 < E + 1) by lra.
  split.
  - apply (Rmult_lt_reg_r (E + 1)); [assumption |].
    replace ((E - 1) / (E + 1) * (E + 1)) with (E - 1) by (field; lra).
    assert (Hm : / 2 ^ 53 * (E + 1) > 2).
    { replace 2 with (/ 2 ^ 53 * (2 * 2 ^ 53)) at 2 by (field; lra).
      apply Rmult_lt_compat_l; lra. }
    lra.
  - apply (Rmult_lt_reg_r (E + 1)); [assumption |].
    replace ((E - 1) / (E + 1) * (E + 1)) with (E - 1) by (field; lra).
    lra.
Qed.

(** C3, as stated, fails in binary64.  On the state [x_saturated] the
    switching scalar is 40 and so is [S/rho] for [rho = 1].  The real
    [tanh 40] lies strictly between [1 - 2^-53], the largest float below 1,
    and 1, so [np.tanh] returns one of these two floats; from either, the
    addition and the product of line 179 give exactly 1.0.  The throttle of
    a finite [S] is then 1, not strictly inside the interval. *)
Lemma throttle_saturation_counterexample :
  (exists delta BTL,
      Functions.switch_function V_unit [x_saturated] 1
      = Ok ([Some 40], delta, BTL))
  /\ 1 - / 2 ^ 53 < tanh (40 / 1) < 1
  /\ FloatOps.Prim2SF F64.below_one
     = SpecFloat.S754_finite false (2 ^ 53 - 1) (-53)
  /\ F64.throttle_f64 F64.below_one = F64.one
  /\ F64.throttle_f64 F64.one = F64.one.
Proof.
  split.
  - rewrite switch_function_ok
      by (apply Forall_cons; [reflexivity | apply Forall_nil]).
    cbn [map]. rewrite x_saturated_S. do 2 eexists. reflexivity.
  - split; [exact tanh_40 |]. repeat split; reflexivity.
Qed.

(** C3, amended: [switch_function] returns one switching scalar and one
    throttle for each sample, and the throttle is [0.5*(1+tanh(S/rho))] at
    every sample.  In real arithmetic, for a finite [S] and [rho > 0], it
    lies strictly between 0 and 1, is 0.5 at [S = 0], is monotonically
    non-decreasing in [S], and tends to 1 and to 0 as [S] tends to plus and
    minus infinity.  In binary64 the upper bound is reached: the throttle is
    exactly 1.0 once [np.tanh] returns 1.0 or the float below it. *)
Theorem switch_function_throttle (V : sc.t) (data : list (list R)) (rho : R) :
  batch_ok data -> 0 < rho ->
  exists S delta BTL,
    Functions.switch_function V data rho = Ok (S, delta, BTL)
    /\ List.length S = List.length data
    /\ List.length delta = List.length data
    /\ (forall i, (i < List.length data)%nat ->
          exists Si,
            nth_error S i = Some Si
            /\ nth_error delta i = Some (0.5 * (1 + ftanh (Si / rho)))%fl
            /\ (forall s, Si = Some s ->
                  nth_error delta i = Some (Some (throttle s rho))))
    /\ (forall s, 0 < throttle s rho < 1)
    /\ throttle 0 rho = 0.5
    /\ (forall s1 s2, s1 <= s2 -> throttle s1 rho <= throttle s2 rho)
    /\ (forall eps, 0 < eps ->
          exists M, forall s, M < s -> 1 - eps < throttle s rho)
    /\ (forall eps, 0 < eps ->
          exists M, forall s, s < M -> throttle s rho < eps)
    /\ F64.throttle_f64 F64.below_one = F64.one
    /\ F64.throttle_f64 F64.one = F64.one.
Proof.
  intros Hd Hr.
  exists (map (sample_S V) data), (map (sample_delta V rho) data),
    (map sample_BTL data).
  split; [now apply switch_function_ok |].
  split; [apply length_map |]. split; [apply length_map |].
  split.
  { intros i Hi.
    destruct (nth_error data i) as [row |] eqn:Hrow;
      [| apply nth_error_None in Hrow; lia].
    exists (sample_S V row). rewrite !nth_error_map, Hrow. cbn [option_map].
    split; [reflexivity |]. split; [reflexivity |].
    intros s Hs. unfold sample_delta. rewrite Hs.
    fl_unfold. rewrite fdiv_some by lra. reflexivity. }
  split; [intros s; apply throttle_range |].
  split; [apply throttle_zero |].
  split; [intros s1 s2; now apply throttle_monotone |].
  split; [intros eps He; now apply throttle_limit_high |].
  split; [intros eps He; now apply throttle_limit_low |].
  split; reflexivity.
Qed.

Lemma switch_function_throttle_witness :
  batch_ok [x_flam] /\ 0 < 1 /\
  exists S delta BTL,
    Functions.switch_function V_unit [x_flam] 1 = Ok (S, delta, BTL)
    /\ List.length S = 1%nat /\ List.length delta = 1%nat.
Proof.
  assert (Hd : batch_ok [x_flam])
    by (apply Forall_cons; [reflexivity | apply Forall_nil]).
  assert (Hr : 0 < 1) by lra.
  split; [exact Hd |]. split; [exact Hr |].
  destruct (switch_function_throttle V_unit [x_flam] 1 Hd Hr)
    as (S & delta & BTL & Hsw & HS & Hdl & _).
  exists S, delta, BTL. repeat split; assumption.
Defined.

(** C4: for a sample with non-zero mass, [switch_function] builds the 7x3
    matrix [B] (seventh row zero) from the sample's elements, returns
    [BTL[i] = B^T lambda] and
    [S[i] = c * si2can * ||BTL[i]|| / m[i] + lambda_m[i] - 1]. *)
Theorem switch_function_scalar (V : sc.t) (data : list (list R)) (rho : R)
        (i : nat) (p f g h k L m plam flam glam hlam klam Llam mlam : R) :
  batch_ok data ->
  nth_error data i
  = Some [p; f; g; h; k; L; m; plam; flam; glam; hlam; klam; Llam; mlam] ->
  m <> 0 ->
  let B := Functions.B_matrix p f g h k L in
  let lam := [lit plam; lit flam; lit glam; lit hlam; lit klam; lit Llam;
              lit mlam] in
  let btl := BTL_real p f g h k L plam flam glam hlam klam Llam in
  exists S delta BTL,
    Functions.switch_function V data rho = Ok (S, delta, BTL)
    /\ List.length B = 7%nat
    /\ nth_error B 6 = Some (lit 0, lit 0, lit 0)
    /\ nth_error BTL i = Some (Functions.matmulT B lam)
    /\ nth_error S i
       = Some (sc.c V * sc.si2can V * norm (Functions.matmulT B lam) / m
               + mlam - 1)%fl
    /\ (0 <= p -> qterm f g L <> 0 ->
        nth_error BTL i = Some (lit3 btl)
        /\ nth_error S i
           = Some (Some (sc.c V * sc.si2can V * norm_real btl / m
                         + mlam - 1))).
Proof.
  intros Hd Hrow Hm B lam btl.
  exists (map (sample_S V) data), (map (sample_delta V rho) data),
    (map sample_BTL data).
  split; [now apply switch_function_ok |].
  split; [reflexivity |]. split; [reflexivity |].
  rewrite !nth_error_map, Hrow. cbn [option_map].
  split; [reflexivity |]. split; [reflexivity |].
  intros Hp Hq.
  rewrite sample_BTL_real, sample_S_real by assumption.
  split; reflexivity.
Qed.

Lemma switch_function_scalar_witness :
  batch_ok [x_flam] /\ 1 <> 0 /\
  exists S delta BTL,
    Functions.switch_function V_unit [x_flam] 1 = Ok (S, delta, BTL)
    /\ nth_error S 0
       = Some (sc.c V_unit * sc.si2can V_unit
               * norm (Functions.matmulT
                         (Functions.B_matrix 1 0 0 0 0 0)
                         [lit 0; lit 1; lit 0; lit 0; lit 0; lit 0; lit 0])
               / 1 + 0 - 1)%fl.
Proof.
  assert (Hd : batch_ok [x_flam])
    by (apply Forall_cons; [reflexivity | apply Forall_nil]).
  assert (Hm : 1 <> 0) by lra.
  split; [exact Hd |]. split; [exact Hm |].
  destruct (switch_function_scalar V_unit [x_flam] 1 0
              1 0 0 0 0 0 1 0 1 0 0 0 0 0 Hd eq_refl Hm)
    as (S & delta & BTL & Hsw & _ & _ & _ & HS & _).
  exists S, delta, BTL. split; assumption.
Defined.

(** C9: when every sample has [p >= 0], [m <> 0] and
    [1 + f cos L + g sin L <> 0], and [rho <> 0], every guarded division and
    square root of [switch_function] has a valid operand: the call returns,
    and [S], [delta] and [BTL] are defined at every sample.  Conversely a
    defined throttle at a sample forces these conditions, so no other
    operand can be degenerate. *)
Theorem switch_function_defined (V : sc.t) (data : list (list R)) (rho : R) :
  batch_ok data ->
  Forall (fun row =>
            0 <= nth 0 row 0 /\ nth 6 row 0 <> 0
            /\ qterm (nth 1 row 0) (nth 2 row 0) (nth 5 row 0) <> 0) data ->
  rho <> 0 ->
  exists S delta BTL,
    Functions.switch_function V data rho = Ok (S, delta, BTL)
    /\ List.length S = List.length data
    /\ List.length delta = List.length data
    /\ List.length BTL = List.length data
    /\ Forall defined S /\ Forall defined delta /\ Forall defined3 BTL
    /\ (forall rho' S' delta' BTL' i row d,
          Functions.switch_function V data rho' = Ok (S', delta', BTL') ->
          nth_error data i = Some row ->
          nth_error delta' i = Some d -> defined d ->
          0 <= nth 0 row 0 /\ nth 6 row 0 <> 0
          /\ qterm (nth 1 row 0) (nth 2 row 0) (nth 5 row 0) <> 0
          /\ rho' <> 0).
Proof.
  intros Hd Hrows Hr.
  exists (map (sample_S V) data), (map (sample_delta V rho) data),
    (map sample_BTL data).
  split; [now apply switch_function_ok |].
  rewrite !length_map. do 3 (split; [reflexivity |]).
  unfold batch_ok in Hd. rewrite Forall_forall in Hd, Hrows.
  assert (Hall : forall row, In row data ->
             defined (sample_S V row) /\ defined (sample_delta V rho row)
             /\ defined3 (sample_BTL row)).
  { intros row Hin. destruct (Hrows row Hin) as (Hp & Hm & Hq).
    rewrite (row14 row (Hd row Hin)).
    rewrite sample_S_real, sample_delta_real, sample_BTL_real by assumption.
    repeat split; eexists; reflexivity. }
  split; [| split; [| split]].
  - apply Forall_forall. intros x Hx. apply in_map_iff in Hx as (row & <- & Hin).
    now apply Hall.
  - apply Forall_forall. intros x Hx. apply in_map_iff in Hx as (row & <- & Hin).
    now apply Hall.
  - apply Forall_forall. intros x Hx. apply in_map_iff in Hx as (row & <- & Hin).
    now apply Hall.
  - intros rho' S' delta' BTL' i row d Hsw Hrow Hdi Hdef.
    rewrite switch_function_ok in Hsw
      by (unfold batch_ok; now rewrite Forall_forall).
    inversion Hsw; subst S' delta' BTL'.
    rewrite nth_error_map, Hrow in Hdi. cbn in Hdi. inversion Hdi; subst d.
    assert (Hin : In row data) by (eapply nth_error_In; eassumption).
    rewrite (row14 row (Hd row Hin)) in Hdef.
    apply sample_delta_defined in Hdef. tauto.
Qed.

Lemma switch_function_defined_witness :
  batch_ok [x_flam]
  /\ Forall (fun row =>
               0 <= nth 0 row 0 /\ nth 6 row 0 <> 0
               /\ qterm (nth 1 row 0) (nth 2 row 0) (nth 5 row 0) <> 0)
            [x_flam]
  /\ 1 <> 0
  /\ exists S delta BTL,
       Functions.switch_function V_unit [x_flam] 1 = Ok (S, delta, BTL)
       /\ Forall defined S /\ Forall defined delta /\ Forall defined3 BTL.
Proof.
  assert (Hd : batch_ok [x_flam])
    by (apply Forall_cons; [reflexivity | apply Forall_nil]).
  assert (Hrows : Forall (fun row =>
               0 <= nth 0 row 0 /\ nth 6 row 0 <> 0
               /\ qterm (nth 1 row 0) (nth 2 row 0) (nth 5 row 0) <> 0)
            [x_flam]).
  { apply Forall_cons; [| apply Forall_nil].
    cbn [nth x_flam]. unfold qterm. repeat split; lra. }
  assert (Hr : 1 <> 0) by lra.
  split; [exact Hd |]. split; [exact Hrows |]. split; [exact Hr |].
  destruct (switch_function_defined V_unit [x_flam] 1 Hd Hrows Hr)
    as (S & delta & BTL & Hsw & _ & _ & _ & HS & Hdl & HB & _).
  exists S, delta, BTL. repeat split; assumption.
Defined.

Create HintDb eom.
#[local] Hint Unfold Eom.J2 Eom.c Eom.si2can Eom.Thr Eom.t2 Eom.t3 Eom.t8 Eom.t9
  Eom.t4 Eom.t5 Eom.t6 Eom.t7 Eom.t10 Eom.t11 Eom.t12 Eom.t13 Eom.t14 Eom.t29
  Eom.t15 Eom.t30 Eom.t31 Eom.t32 Eom.t16 Eom.t17 Eom.t18 Eom.t21 Eom.t22
  Eom.t23 Eom.t24 Eom.t25 Eom.t26 Eom.t27 Eom.t28 Eom.t19 Eom.t35 Eom.t36
  Eom.t37 Eom.t20 Eom.t44 Eom.t45 Eom.t46 Eom.t33 Eom.t34 Eom.t38 Eom.t39
  Eom.t40 Eom.t41 Eom.t42 Eom.t43 Eom.t47 Eom.t48 Eom.t49 Eom.t50 Eom.t51
  Eom.t52 Eom.t53 Eom.t54 Eom.t55 Eom.t56 Eom.t57 Eom.t58 Eom.t59 Eom.t60
  Eom.t61 Eom.t62 Eom.t63 Eom.t64 Eom.t65 Eom.t66 Eom.t68 Eom.t67 Eom.t69
  Eom.t70 Eom.t71 Eom.t72 Eom.t73 Eom.t74 Eom.t75 Eom.t76 Eom.t77 Eom.t78
  Eom.t79 Eom.t80 Eom.t81 Eom.t82 Eom.t83 Eom.t84 Eom.t85 Eom.t86 Eom.t87
  Eom.t88 Eom.t89 Eom.t90 Eom.t91 Eom.t92 Eom.t93 Eom.t94 Eom.t95 Eom.t96
  Eom.t98 Eom.t99 Eom.t100 Eom.t101 Eom.t97 Eom.t102 Eom.t103 Eom.t104
  Eom.t105 Eom.t106 Eom.t107 Eom.t108 Eom.t109 Eom.t110 Eom.t111 Eom.t112
  Eom.t113 Eom.t114 Eom.t115 Eom.t116 Eom.t117 Eom.t122 Eom.t118 Eom.t119
  Eom.t120 Eom.t127 Eom.t121 Eom.t123 Eom.t124 Eom.t125 Eom.t126 Eom.t128
  Eom.t129 Eom.t134 Eom.t130 Eom.t131 Eom.t132 Eom.t137 Eom.t133 Eom.t135
  Eom.t136 Eom.t138 Eom.t139 Eom.t140 Eom.t142 Eom.t141 Eom.t143 Eom.t151
  Eom.t144 Eom.t145 Eom.t146 Eom.t147 Eom.t148 Eom.t149 Eom.t150 Eom.t152
  Eom.t153 Eom.t154 Eom.t155 Eom.t156 Eom.t157 Eom.t158 : eom.

Lemma fdiv_eq0 (x : fl) (b : R) : b = 0 -> fdiv x (Some b) = None.
Proof. intros ->. apply fdiv_zero. Qed.

Lemma fpow_frac_neg (a : R) : a < 0 -> fpow (Some a) 1.5 = None.
Proof.
  intros Ha. unfold fpow. simpl.
  destruct (Rlt_dec a 0); [reflexivity | contradiction].
Qed.

Ltac fl_none :=
  repeat first
    [ progress fl_unfold
    | rewrite fmul_none_r
    | rewrite fadd_none_r
    | rewrite fsub_none_r
    | rewrite fdiv_none_r ].

Section Agreement.

Variable V : sc.t.
Variables p f g h k L m pco1 pco2 pco3 pco4 pco5 pco6 pco7 : R.

Let row : list R :=
  [p; f; g; h; k; L; m; pco1; pco2; pco3; pco4; pco5; pco6; pco7].

Lemma eom_t37 : vx (sample_BTL row) = fneg (Eom.t37 p L pco2 pco3).
Proof.
  unfold sample_BTL, row, Functions.B_matrix, Functions.matmulT.
  cbn [nth vx vy vz fst snd]. autounfold with eom. unfold lit.
  destruct (Rlt_dec p 0) as [Hp | Hp].
  - rewrite (fsqrt_neg p Hp). fl_none. reflexivity.
  - rewrite (fsqrt_some p) by lra. fl_norm. f_equal. ring.
Qed.

Lemma eom_t28 : vy (sample_BTL row) = Eom.t28 p f g L pco1 pco2 pco3.
Proof.
  unfold sample_BTL, row, Functions.B_matrix, Functions.matmulT.
  cbn [nth vx vy vz fst snd]. autounfold with eom. unfold lit.
  destruct (Rlt_dec p 0) as [Hp | Hp].
  - rewrite (fsqrt_neg p Hp), (fpow_frac_neg p Hp). fl_none. reflexivity.
  - rewrite (fsqrt_some p), (fpow_1_5 p) by lra. fl_unfold.
    destruct (Req_dec_T (f * cos L + g * sin L + 1) 0) as [Hq | Hq].
    + rewrite (fdiv_eq0 _ _ Hq), fdiv_eq0 by lra. fl_none. reflexivity.
    + fl_norm. f_equal. field. lra.
Qed.

Lemma eom_t46 :
  vz (sample_BTL row)
  = Eom.t46 p f g h k L pco2 pco3 pco4 pco5 pco6.
Proof.
  unfold sample_BTL, row, Functions.B_matrix, Functions.matmulT.
  cbn [nth vx vy vz fst snd]. autounfold with eom. unfold lit.
  destruct (Rlt_dec p 0) as [Hp | Hp].
  - rewrite (fsqrt_neg p Hp). fl_none. reflexivity.
  - rewrite (fsqrt_some p) by lra. fl_unfold.
    destruct (Req_dec_T (f * cos L + g * sin L + 1) 0) as [Hq | Hq].
    + rewrite (fdiv_eq0 _ _ Hq), !fdiv_eq0 by lra. fl_none. reflexivity.
    + fl_norm. f_equal. field. lra.
Qed.

Lemma sample_BTL_eom :
  sample_BTL row
  = (fneg (Eom.t37 p L pco2 pco3), Eom.t28 p f g L pco1 pco2 pco3,
     Eom.t46 p f g h k L pco2 pco3 pco4 pco5 pco6).
Proof.
  rewrite <- eom_t37, <- eom_t28, <- eom_t46.
  now destruct (sample_BTL row) as [[a b] c].
Qed.

Lemma norm_eom (x y z : fl) :
  norm (fneg x, y, z)
  = fsqrt (fpow (fabs y) 2 + fpow (fabs x) 2 + fpow (fabs z) 2).
Proof.
  rewrite !fabs_sq. unfold norm. cbn [vx vy vz fst snd].
  destruct x as [a |], y as [b |], z as [c |]; try reflexivity.
  cbn. destruct (Rlt_dec _ _), (Rlt_dec _ _); try nra.
  f_equal. f_equal. ring.
Qed.

Lemma eom_t54 :
  norm (sample_BTL row)
  = Eom.t54 p f g h k L pco1 pco2 pco3 pco4 pco5 pco6.
Proof.
  rewrite sample_BTL_eom, norm_eom. reflexivity.
Qed.

Lemma scaled_div (a b : R) (x : fl) (d e : R) :
  (a * b * x / d + e - 1)%fl = (e + a * b * (1 / d) * x - 1)%fl.
Proof.
  unfold lit. destruct (Req_dec_T d 0) as [-> | Hd].
  - rewrite !fdiv_zero. fl_none. reflexivity.
  - destruct x as [v |]; fl_norm; [| reflexivity].
    f_equal. field. assumption.
Qed.

Lemma eom_t56 :
  sample_S V row = Eom.t56 V p f g h k L m pco1 pco2 pco3 pco4 pco5 pco6 pco7.
Proof.
  unfold sample_S. rewrite eom_t54. cbn [nth row].
  unfold Eom.t56, Eom.t55, Eom.t6, Eom.c, Eom.si2can.
  apply scaled_div.
Qed.

Lemma smoothed (x : fl) (rho : R) :
  (0.5 * (1 + ftanh (x / rho)))%fl = (ftanh (1 / rho * x) * (1 / 2) + 1 / 2)%fl.
Proof.
  unfold lit. destruct (Req_dec_T rho 0) as [-> | Hr].
  - rewrite !fdiv_zero. now destruct x.
  - destruct x as [v |]; fl_norm; [| reflexivity].
    replace (1 / rho * v) with (v / rho) by (field; assumption).
    f_equal. lra.
Qed.

Lemma eom_t60 (rho : R) :
  sample_delta V rho row
  = Eom.t60 V p f g h k L m pco1 pco2 pco3 pco4 pco5 pco6 pco7 rho.
Proof.
  unfold sample_delta. rewrite eom_t56.
  unfold Eom.t60, Eom.t59, Eom.t58, Eom.t57, Eom.t43.
  apply smoothed.
Qed.

End Agreement.

(** The control-influence norm and the throttle are evaluated a second time
    for the costate rates, from [t101] in place of [t46]. *)
Section SecondThrottle.

Variable V : sc.t.
Variables p f g h k L m pco1 pco2 pco3 pco4 pco5 pco6 pco7 rho : R.

Lemma eom_t101 :
  Eom.t101 p f g h k L pco2 pco3 pco4 pco5 pco6
  = Eom.t46 p f g h k L pco2 pco3 pco4 pco5 pco6.
Proof.
  autounfold with eom. unfold lit.
  destruct (Rlt_dec p 0) as [Hp | Hp].
  - rewrite (fsqrt_neg p Hp). fl_none. reflexivity.
  - rewrite (fsqrt_some p) by lra. fl_unfold.
    destruct (Req_dec_T (f * cos L + g * sin L + 1) 0) as [Hq | Hq].
    + rewrite (fdiv_eq0 _ _ Hq). fl_none. reflexivity.
    + fl_norm. f_equal. field. lra.
Qed.

Lemma eom_t103 :
  Eom.t103 p f g h k L pco1 pco2 pco3 pco4 pco5 pco6
  = Eom.t48 p f g h k L pco1 pco2 pco3 pco4 pco5 pco6.
Proof.
  unfold Eom.t103, Eom.t102, Eom.t97. rewrite eom_t101. reflexivity.
Qed.

Lemma eom_t113 :
  Eom.t113 p f g h k L pco1 pco2 pco3 pco4 pco5 pco6
  = Eom.t49 p f g h k L pco1 pco2 pco3 pco4 pco5 pco6.
Proof. unfold Eom.t113. rewrite eom_t103. reflexivity. Qed.

Lemma eom_t112 :
  Eom.t112 V p f g h k L m pco1 pco2 pco3 pco4 pco5 pco6 pco7 rho
  = Eom.t60 V p f g h k L m pco1 pco2 pco3 pco4 pco5 pco6 pco7 rho.
Proof.
  unfold Eom.t112, Eom.t111, Eom.t110, Eom.t109, Eom.t108, Eom.t107,
    Eom.t106.
  rewrite eom_t103. reflexivity.
Qed.

End SecondThrottle.

(** ** When [eom_mee_twobodyJ2_minfuel] returns *)

Lemma is_zero_true (x : fl) : is_zero x = true <-> x = Some 0.
Proof.
  destruct x as [a |]; cbn; [| split; discriminate].
  destruct (Req_dec_T a 0) as [-> | N]; split; intros H;
    try reflexivity; try discriminate H.
  inversion H. contradiction.
Qed.

Lemma ndiv_zero (x y : fl) : y = Some 0 -> ndiv x y = Raise ZeroDivisionError.
Proof.
  intros Hy. unfold ndiv. now rewrite (proj2 (is_zero_true y) Hy).
Qed.

Lemma ndiv_nonzero (x y : fl) : y <> Some 0 -> ndiv x y = Ok (fdiv x y).
Proof.
  intros Hy. unfold ndiv. destruct (is_zero y) eqn:E; [| reflexivity].
  apply is_zero_true in E. contradiction.
Qed.

Lemma ndiv_some (a b : R) : b <> 0 -> ndiv (Some a) (Some b) = Ok (Some (a / b)).
Proof.
  intros Hb. rewrite ndiv_nonzero by congruence. now rewrite fdiv_some.
Qed.

(** A block of divisions either meets a zero divisor and raises, or meets
    none and goes through. *)
Lemma check_divisors_spec (ds : list fl) :
  (Exists (fun d => d = Some 0) ds
   /\ check_divisors ds = Raise ZeroDivisionError)
  \/ (Forall (fun d => d <> Some 0) ds /\ check_divisors ds = Ok tt).
Proof.
  induction ds as [| d ds IH]; cbn [check_divisors].
  - right. split; [apply Forall_nil | reflexivity].
  - destruct (is_zero d) eqn:E.
    + left. apply is_zero_true in E. split; [now apply Exists_cons_hd |].
      now rewrite ndiv_zero.
    + assert (Hd : d <> Some 0).
      { intros C. apply is_zero_true in C. congruence. }
      rewrite ndiv_nonzero by assumption. cbn [bind].
      destruct IH as [[Hex Hr] | [Hall Hr]].
      * left. split; [now apply Exists_cons_tl | assumption].
      * right. split; [now apply Forall_cons | assumption].
Qed.

Lemma check_divisors_raises (ds : list fl) :
  Exists (fun d => d = Some 0) ds ->
  check_divisors ds = Raise ZeroDivisionError.
Proof.
  intros Hex. destruct (check_divisors_spec ds) as [[_ Hr] | [Hall _]];
    [assumption |].
  apply Exists_exists in Hex as (d & Hin & Hd).
  rewrite Forall_forall in Hall. elim (Hall d Hin Hd).
Qed.

Lemma check_divisors_passes (ds : list fl) :
  Forall (fun d => d <> Some 0) ds -> check_divisors ds = Ok tt.
Proof.
  intros Hall. destruct (check_divisors_spec ds) as [[Hex _] | [_ Hr]];
    [| assumption].
  apply Exists_exists in Hex as (d & Hin & Hd).
  rewrite Forall_forall in Hall. elim (Hall d Hin Hd).
Qed.

Lemma some_zero (a : R) : Some a = Some 0 <-> a = 0.
Proof. split; [intros H; now inversion H | now intros ->]. Qed.

Lemma fsqrt_zero (a : R) : fsqrt (Some a) = Some 0 <-> a = 0.
Proof.
  unfold fsqrt. destruct (Rlt_dec a 0) as [Ha | Ha].
  - split; [discriminate | lra].
  - rewrite some_zero. split; [| intros ->; apply sqrt_0].
    intros H. apply sqrt_eq_0 in H; lra.
Qed.

Lemma fpow_frac_zero (a : R) (y : Q) (n : positive) :
  Qred y = (Zpos (n~1) # 2)%Q -> fpow (Some a) y = Some 0 <-> a = 0.
Proof.
  intros Hy. destruct (Rlt_dec a 0) as [Ha | Ha].
  - unfold fpow. rewrite Hy. cbn [Qden Qnum].
    destruct (Rlt_dec a 0); [| contradiction]. split; [discriminate | lra].
  - rewrite (fpow_frac a y n Hy) by lra. rewrite some_zero. split.
    + intros H. apply Rmult_integral in H as [H | H].
      * destruct (Req_dec a 0) as [E | E]; [exact E |].
        elim (pow_nonzero a (Pos.to_nat n) E H).
      * apply sqrt_eq_0 in H; lra.
    + intros ->. rewrite sqrt_0. ring.
Qed.

Section Returns.

Variable K : cn.t.
Variable V : sc.t.
Variables p f g h k L m pco1 pco2 pco3 pco4 pco5 pco6 pco7 rho : R.

Let row : list R :=
  [p; f; g; h; k; L; m; pco1; pco2; pco3; pco4; pco5; pco6; pco7].

Let N : R := norm_real (BTL_real p f g h k L pco1 pco2 pco3 pco4 pco5 pco6).

(** The conditions under which a division of the block has a zero
    divisor. *)
Let zero_divisor : Prop :=
  m = 0 \/ qterm f g L = 0 \/ p = 0 \/ rho = 0 \/ sc.c V = 0
  \/ (0 < p /\ N = 0).

Lemma divisor_t4 : Eom.t4 f g L = Some 0 <-> qterm f g L = 0.
Proof.
  autounfold with eom. fl_unfold. rewrite some_zero. unfold qterm.
  split; intros H; lra.
Qed.

Lemma divisor_t4_sq : fpow (Eom.t4 f g L) 2 = Some 0 <-> qterm f g L = 0.
Proof.
  autounfold with eom. fl_norm. rewrite some_zero. unfold qterm.
  split; intros H; nra.
Qed.

Lemma divisor_p4 : fpow (lit p) 4 = Some 0 <-> p = 0.
Proof.
  unfold lit. rewrite fpow_4, some_zero. split; [| intros ->; ring].
  intros H. assert (H2 : (p * p) * (p * p) = 0) by (rewrite <- H; ring).
  apply Rmult_integral in H2 as [H2 | H2];
    apply Rmult_integral in H2 as [H2 | H2]; exact H2.
Qed.

Lemma divisor_t14 : Eom.t14 h k <> Some 0.
Proof. autounfold with eom. fl_norm. rewrite some_zero. nra. Qed.

Lemma divisor_t14_sq : fpow (Eom.t14 h k) 2 <> Some 0.
Proof. autounfold with eom. fl_norm. rewrite some_zero. nra. Qed.

Lemma divisor_t14_cube : fpow (Eom.t14 h k) 3 <> Some 0.
Proof.
  autounfold with eom. fl_norm. rewrite some_zero.
  assert (0 < h * h + k * k + 1) by nra.
  assert (0 < (h * h + k * k + 1) * (h * h + k * k + 1)) by nra. nra.
Qed.

Lemma divisor_m2 : fpow (lit m) 2 = Some 0 <-> m = 0.
Proof. unfold lit. rewrite fpow_2, some_zero. split; intros H; nra. Qed.

(** The divisor of [t49] is the norm of the control-influence vector, a
    NaN when [p < 0] or the radius denominator is zero. *)
Lemma divisor_t48 :
  fsqrt (Eom.t48 p f g h k L pco1 pco2 pco3 pco4 pco5 pco6) = Some 0
  <-> 0 <= p /\ qterm f g L <> 0 /\ N = 0.
Proof.
  change (fsqrt (Eom.t48 p f g h k L pco1 pco2 pco3 pco4 pco5 pco6))
    with (Eom.t54 p f g h k L pco1 pco2 pco3 pco4 pco5 pco6).
  rewrite <- (eom_t54 p f g h k L m pco1 pco2 pco3 pco4 pco5 pco6 pco7).
  split.
  - intros H.
    assert (Hd : defined3 (sample_BTL
                  [p; f; g; h; k; L; m; pco1; pco2; pco3; pco4; pco5; pco6;
                   pco7])).
    { destruct (sample_BTL _) as [[[a |] [b |]] [c |]]; try discriminate H;
        repeat split; eexists; reflexivity. }
    assert (Hpq : 0 <= p /\ qterm f g L <> 0).
    { destruct Hd as (Hx & Hy & _).
      rewrite eom_t37 in Hx. rewrite eom_t28 in Hy.
      split.
      - destruct (Rlt_dec p 0) as [Hp | Hp]; [| lra]. exfalso.
        destruct Hx as [a Ha]. revert Ha. autounfold with eom. unfold lit.
        rewrite (fsqrt_neg p Hp). fl_none. discriminate.
      - intros Hq. destruct Hy as [a Ha]. revert Ha.
        autounfold with eom. unfold lit. fl_unfold.
        rewrite (fdiv_eq0 _ (f * cos L + g * sin L + 1))
          by (unfold qterm in Hq; lra).
        fl_none. discriminate. }
    destruct Hpq as [Hp Hq]. split; [assumption |]. split; [assumption |].
    rewrite sample_BTL_real, norm_lit3 in H by assumption.
    now apply some_zero in H.
  - intros (Hp & Hq & HN).
    rewrite sample_BTL_real, norm_lit3 by assumption. now apply some_zero.
Qed.

Lemma divisor_t103 :
  fsqrt (Eom.t103 p f g h k L pco1 pco2 pco3 pco4 pco5 pco6) = Some 0
  <-> 0 <= p /\ qterm f g L <> 0 /\ N = 0.
Proof. rewrite eom_t103. apply divisor_t48. Qed.

(** Some division of the block has a zero divisor exactly when the mass,
    the radius denominator, [p], [rho] or [c] is zero, or the
    control-influence vector is the zero vector. *)
Lemma divisors_zero :
  Exists (fun d => d = Some 0)
         (Eom.divisors V p f g h k L m pco1 pco2 pco3 pco4 pco5 pco6 rho)
  <-> zero_divisor.
Proof.
  unfold Eom.divisors, zero_divisor, Eom.c.
  rewrite !Exists_cons, Exists_nil.
  rewrite divisor_t4, divisor_t4_sq, divisor_p4, divisor_m2, divisor_t48,
    divisor_t103.
  rewrite (fpow_frac_zero p 4.5 4), (fpow_frac_zero p 1.5 1),
    (fpow_frac_zero p 3.5 3), (fpow_frac_zero p 2.5 2) by reflexivity.
  unfold lit. rewrite fsqrt_zero, !some_zero.
  pose proof divisor_t14. pose proof divisor_t14_sq.
  pose proof divisor_t14_cube.
  split.
  - intros H'. 
    repeat match goal with
           | H : _ \/ _ |- _ => destruct H as [H | H]
           end; try contradiction; try tauto.
    + destruct H' as (Hp & Hq & HN). destruct (Req_dec p 0); [tauto |].
      right; right; right; right; right. split; [lra | assumption].
    + destruct H' as (Hp & Hq & HN). destruct (Req_dec p 0); [tauto |].
      right; right; right; right; right. split; [lra | assumption].
  - intros [Hm | [Hq | [Hp | [Hr | [Hc | [Hp HN]]]]]]; try tauto.
    destruct (Req_dec (qterm f g L) 0) as [Hq | Hq]; [tauto |].
    do 5 right. left. split; [lra |]. split; assumption.
Qed.

(** Every division of the block by something else than a literal divides by
    the entry of [divisors] at its place. *)
Lemma divisors_of_block :
  [Eom.t6 m; Eom.t11 f g L; Eom.t39 p; Eom.t41 h k; Eom.t43 rho;
   Eom.t49 p f g h k L pco1 pco2 pco3 pco4 pco5 pco6; Eom.t70 p; Eom.t72 p;
   Eom.t78 h k; Eom.t79 p; Eom.t80 p; Eom.t82 f g L; Eom.t88 p;
   Eom.t104 h k; Eom.t113 p f g h k L pco1 pco2 pco3 pco4 pco5 pco6;
   Eom.t158 m;
   Eom.dxdt6 V p f g h k L m pco1 pco2 pco3 pco4 pco5 pco6 pco7 rho]
  = map (fdiv 1)
        (firstn 16
           (Eom.divisors V p f g h k L m pco1 pco2 pco3 pco4 pco5 pco6 rho))
    ++ [(- (Eom.Thr V
            * Eom.t60 V p f g h k L m pco1 pco2 pco3 pco4 pco5 pco6 pco7
                rho)
         / nth 16 (Eom.divisors V p f g h k L m pco1 pco2 pco3 pco4 pco5
                     pco6 rho) None)%fl].
Proof. reflexivity. Qed.

Lemma eom_call (t : R) (eclipse : bool) :
  Eom.eom_mee_twobodyJ2_minfuel K V t row rho eclipse
  = (' _ <- check_divisors
              (Eom.divisors V p f g h k L m pco1 pco2 pco3 pco4 pco5 pco6
                 rho) ;;
     Ok (Eom.dxdt K V p f g h k L m pco1 pco2 pco3 pco4 pco5 pco6 pco7 rho)).
Proof. reflexivity. Qed.

Lemma eom_raises (t : R) (eclipse : bool) :
  zero_divisor ->
  Eom.eom_mee_twobodyJ2_minfuel K V t row rho eclipse
  = Raise ZeroDivisionError.
Proof.
  intros H. rewrite eom_call.
  now rewrite check_divisors_raises by now apply divisors_zero.
Qed.

Lemma eom_returns (t : R) (eclipse : bool) :
  ~ zero_divisor ->
  Eom.eom_mee_twobodyJ2_minfuel K V t row rho eclipse
  = Ok (Eom.dxdt K V p f g h k L m pco1 pco2 pco3 pco4 pco5 pco6 pco7 rho).
Proof.
  intros H. rewrite eom_call.
  destruct (check_divisors_spec
              (Eom.divisors V p f g h k L m pco1 pco2 pco3 pco4 pco5 pco6
                 rho)) as [[Hex _] | [_ Hr]].
  - apply divisors_zero in Hex. contradiction.
  - now rewrite Hr.
Qed.

Lemma eom_returns_valid (t : R) (eclipse : bool) :
  0 < p -> qterm f g L <> 0 -> m <> 0 -> rho <> 0 -> sc.c V <> 0 ->
  N <> 0 ->
  Eom.eom_mee_twobodyJ2_minfuel K V t row rho eclipse
  = Ok (Eom.dxdt K V p f g h k L m pco1 pco2 pco3 pco4 pco5 pco6 pco7 rho).
Proof.
  intros Hp Hq Hm Hr Hc HN. apply eom_returns.
  intros [H | [H | [H | [H | [H | [_ H]]]]]]; try contradiction. lra.
Qed.

Lemma eom_returns_inv (t : R) (eclipse : bool) (d : list fl) :
  Eom.eom_mee_twobodyJ2_minfuel K V t row rho eclipse = Ok d ->
  ~ zero_divisor
  /\ d = Eom.dxdt K V p f g h k L m pco1 pco2 pco3 pco4 pco5 pco6 pco7 rho.
Proof.
  intros H.
  assert (Hz : ~ zero_divisor).
  { intros Hz. rewrite (eom_raises t eclipse Hz) in H. discriminate H. }
  split; [assumption |].
  rewrite (eom_returns t eclipse Hz) in H. now inversion H.
Qed.

End Returns.

(** C1, as stated for every state, fails: at a state of zero mass
    [eom_mee_twobodyJ2_minfuel] raises at the division of line 100 and
    computes neither [t56] nor [t60], while [switch_function] returns one
    switching scalar and one throttle for the same state. *)
Lemma eom_massless_counterexample :
  Eom.eom_mee_twobodyJ2_minfuel K_unit V_unit 0 x_massless 1 false
  = Raise ZeroDivisionError
  /\ exists S delta BTL,
       Functions.switch_function V_unit [x_massless] 1 = Ok (S, delta, BTL)
       /\ List.length S = 1%nat /\ List.length delta = 1%nat.
Proof.
  split.
  - apply eom_raises. left. reflexivity.
  - rewrite switch_function_ok
      by (apply Forall_cons; [reflexivity | apply Forall_nil]).
    do 3 eexists. split; [reflexivity |]. split; reflexivity.
Qed.

(** C1, amended: whenever [eom_mee_twobodyJ2_minfuel] returns for [x] and
    [rho > 0], which it does when none of the mass, the radius denominator,
    [p], [c] and the norm of [B^T lambda] is zero, [switch_function] on the
    one-row batch holding [x] returns the switching scalar [t56] and the
    throttle [t60] that the call has computed, and its [BTL] is the
    control-influence vector [(t37, t28, t46)] of the call with the sign of
    the first component flipped, a sign the norm absorbs; for [p > 0] the
    two are finite numbers, and [dxdt[6]] is [-(Thr * t60) / c]. *)
Theorem eom_switch_agreement (K : cn.t) (V : sc.t) (t : R)
        (p f g h k L m pco1 pco2 pco3 pco4 pco5 pco6 pco7 rho : R)
        (eclipse : bool) (d : list fl) :
  0 < rho ->
  let x := [p; f; g; h; k; L; m; pco1; pco2; pco3; pco4; pco5; pco6; pco7] in
  Eom.eom_mee_twobodyJ2_minfuel K V t x rho eclipse = Ok d ->
  let t56 := Eom.t56 V p f g h k L m pco1 pco2 pco3 pco4 pco5 pco6 pco7 in
  let t60 := Eom.t60 V p f g h k L m pco1 pco2 pco3 pco4 pco5 pco6 pco7 rho in
  let t37 := Eom.t37 p L pco2 pco3 in
  let t28 := Eom.t28 p f g L pco1 pco2 pco3 in
  let t46 := Eom.t46 p f g h k L pco2 pco3 pco4 pco5 pco6 in
  (m <> 0 /\ qterm f g L <> 0 /\ p <> 0 /\ sc.c V <> 0
   /\ (0 < p ->
       norm_real (BTL_real p f g h k L pco1 pco2 pco3 pco4 pco5 pco6) <> 0))
  /\ Functions.switch_function V [x] rho
     = Ok ([t56], [t60], [(fneg t37, t28, t46)])
  /\ norm (fneg t37, t28, t46)
     = Eom.t54 p f g h k L pco1 pco2 pco3 pco4 pco5 pco6
  /\ (0 < p -> defined t56 /\ defined t60)
  /\ nth_error d 6 = Some (- (sc.Thr V * t60) / sc.c V)%fl.
Proof.
  intros Hrho x Hcall t56 t60 t37 t28 t46. subst x t56 t60 t37 t28 t46.
  apply eom_returns_inv in Hcall as [Hz ->].
  assert (Hm : m <> 0) by tauto.
  assert (Hq : qterm f g L <> 0) by tauto.
  split; [repeat split; tauto |].
  rewrite switch_function_ok
    by (apply Forall_cons; [reflexivity | apply Forall_nil]).
  cbn [map]. rewrite eom_t56, eom_t60, sample_BTL_eom.
  split; [reflexivity |].
  split; [rewrite norm_eom; reflexivity |].
  split; [| reflexivity].
  intros Hp. rewrite <- eom_t56, <- eom_t60.
  rewrite sample_S_real, sample_delta_real by (assumption || lra).
  split; eexists; reflexivity.
Qed.

Lemma eom_switch_agreement_witness :
  0 < 1
  /\ Eom.eom_mee_twobodyJ2_minfuel K_unit V_unit 0 x_flam 1 false
     = Ok (Eom.dxdt K_unit V_unit 1 0 0 0 0 0 1 0 1 0 0 0 0 0 1)
  /\ Functions.switch_function V_unit [x_flam] 1
     = Ok ([Eom.t56 V_unit 1 0 0 0 0 0 1 0 1 0 0 0 0 0],
           [Eom.t60 V_unit 1 0 0 0 0 0 1 0 1 0 0 0 0 0 1],
           [(fneg (Eom.t37 1 0 1 0), Eom.t28 1 0 0 0 0 1 0,
             Eom.t46 1 0 0 0 0 0 1 0 0 0 0)]).
Proof.
  assert (Hr : 0 < 1) by lra.
  assert (Hcall : Eom.eom_mee_twobodyJ2_minfuel K_unit V_unit 0 x_flam 1 false
                  = Ok (Eom.dxdt K_unit V_unit 1 0 0 0 0 0 1 0 1 0 0 0 0 0 1)).
  { apply eom_returns_valid;
      first [exact x_flam_BTL_nonzero | rewrite x_flam_qterm; lra
            | cbn [sc.c V_unit]; lra | lra]. }
  split; [exact Hr |]. split; [exact Hcall |].
  exact (proj1 (proj2 (eom_switch_agreement K_unit V_unit 0
                         1 0 0 0 0 0 1 0 1 0 0 0 0 0 1 false _ Hr Hcall))).
Defined.

(** ** Coasting: no thrust and no oblateness *)

Lemma lift2_invalid_l (op : R -> R -> R) (x y : fl) :
  x = None -> lift2 op x y = None.
Proof. now intros ->. Qed.

Lemma lift2_invalid_r (op : R -> R -> R) (x y : fl) :
  y = None -> lift2 op x y = None.
Proof. intros ->. apply lift2_none_r. Qed.

Lemma lift1_invalid (op : R -> R) (x : fl) : x = None -> lift1 op x = None.
Proof. now intros ->. Qed.

Lemma fdiv_invalid_l (x y : fl) : x = None -> fdiv x y = None.
Proof. now intros ->. Qed.

Lemma fdiv_invalid_r (x y : fl) : y = None -> fdiv x y = None.
Proof. intros ->. apply fdiv_none_r. Qed.

(** Find an invalid operand inside a float expression. *)
Ltac invalid :=
  first
    [ eassumption
    | apply lift2_invalid_l; invalid
    | apply lift2_invalid_r; invalid
    | apply lift1_invalid; invalid
    | apply fdiv_invalid_l; invalid
    | apply fdiv_invalid_r; invalid ].

Lemma fneg_some (x : fl) (a : R) : fneg x = Some a -> x = Some (- a).
Proof.
  destruct x as [u |]; cbn; intros H; inversion H. f_equal. ring.
Qed.

Lemma sqrt_inv_cube (p : R) : 0 < p -> 1 / (p * sqrt p) = sqrt (1 / p ^ 3).
Proof.
  intros Hp.
  assert (Hs : 0 < sqrt p) by now apply sqrt_lt_R0.
  assert (Hc : p ^ 3 = (p * sqrt p) * (p * sqrt p)).
  { transitivity (p * p * (sqrt p * sqrt p)); [| ring].
    rewrite sqrt_sqrt by lra. ring. }
  rewrite Hc.
  replace (1 / (p * sqrt p * (p * sqrt p)))
    with ((1 / (p * sqrt p)) * (1 / (p * sqrt p))) by (field; nra).
  rewrite sqrt_square; [reflexivity |].
  apply Rlt_le, Rdiv_lt_0_compat; nra.
Qed.

Section Coast.

Variable K : cn.t.
Variable V : sc.t.
Variables p f g h k L m pco1 pco2 pco3 pco4 pco5 pco6 pco7 rho : R.

Hypothesis J2_zero : cn.J2 K = 0.
Hypothesis Thr_zero : sc.Thr V = 0.
Hypothesis p_pos : 0 < p.
Hypothesis q_nonzero : qterm f g L <> 0.
Hypothesis m_nonzero : m <> 0.
Hypothesis rho_nonzero : rho <> 0.
Hypothesis c_nonzero : sc.c V <> 0.
Hypothesis BTL_nonzero :
  norm_real (BTL_real p f g h k L pco1 pco2 pco3 pco4 pco5 pco6) <> 0.

Let btl := BTL_real p f g h k L pco1 pco2 pco3 pco4 pco5 pco6.
Let q' := f * cos L + g * sin L + 1.

Let q'_nonzero : q' <> 0.
Proof. unfold q'. unfold qterm in q_nonzero. lra. Qed.

Let sqrt_p_pos : 0 < sqrt p.
Proof. now apply sqrt_lt_R0. Qed.

Lemma coast_t10 : Eom.t10 p = Some (sqrt p).
Proof. unfold Eom.t10. apply fsqrt_some. lra. Qed.

Lemma coast_t11 : Eom.t11 f g L = Some (1 / q').
Proof. unfold Eom.t11. autounfold with eom. fl_norm. reflexivity. Qed.

Lemma coast_t6 : Eom.t6 m = Some (1 / m).
Proof. unfold Eom.t6. now apply fdiv_some. Qed.

Lemma coast_t17 : Eom.t17 p = Some (p * sqrt p).
Proof. unfold Eom.t17. apply fpow_1_5. lra. Qed.

Lemma coast_t79 : Eom.t79 p = Some (1 / (p * sqrt p)).
Proof.
  unfold Eom.t79, lit. rewrite fpow_1_5 by lra. apply fdiv_some. nra.
Qed.

Lemma coast_t39 : Eom.t39 p = Some (1 / (p * p * p * p)).
Proof.
  unfold Eom.t39, lit. rewrite fpow_4. apply fdiv_some.
  assert (0 < p * p) by nra. nra.
Qed.

Lemma coast_t41 :
  Eom.t41 h k = Some (1 / ((h * h + k * k + 1) * (h * h + k * k + 1))).
Proof.
  unfold Eom.t41, Eom.t14, Eom.t12, Eom.t13, lit. rewrite !fpow_2.
  fl_unfold. rewrite fpow_2. apply fdiv_some. nra.
Qed.

Lemma coast_BTL :
  Eom.t37 p L pco2 pco3 = Some (- fst (fst btl))
  /\ Eom.t28 p f g L pco1 pco2 pco3 = Some (snd (fst btl))
  /\ Eom.t46 p f g h k L pco2 pco3 pco4 pco5 pco6 = Some (snd btl).
Proof.
  pose proof (sample_BTL_eom p f g h k L m pco1 pco2 pco3 pco4 pco5 pco6 pco7)
    as H.
  rewrite sample_BTL_real in H by (assumption || lra).
  fold btl in H. destruct btl as [[a b] c]. cbn [lit3 fst snd] in *.
  inversion H as [[H0 H1 H2]].
  repeat split; try reflexivity.
  apply fneg_some. now symmetry.
Qed.

Lemma coast_t49 :
  Eom.t49 p f g h k L pco1 pco2 pco3 pco4 pco5 pco6
  = Some (1 / norm_real btl).
Proof.
  change (Eom.t49 p f g h k L pco1 pco2 pco3 pco4 pco5 pco6)
    with (fdiv 1 (Eom.t54 p f g h k L pco1 pco2 pco3 pco4 pco5 pco6)).
  rewrite <- (eom_t54 p f g h k L m pco1 pco2 pco3 pco4 pco5 pco6 pco7).
  rewrite sample_BTL_real, norm_lit3 by (assumption || lra).
  now apply fdiv_some.
Qed.

Lemma coast_t60 :
  exists d, Eom.t60 V p f g h k L m pco1 pco2 pco3 pco4 pco5 pco6 pco7 rho
            = Some d.
Proof.
  rewrite <- eom_t60. rewrite sample_delta_real by (assumption || lra).
  eexists; reflexivity.
Qed.

(** The common thrust and oblateness terms vanish. *)
Lemma coast_t62 :
  Eom.t62 V p f g h k L m pco1 pco2 pco3 pco4 pco5 pco6 pco7 rho = Some 0.
Proof.
  destruct coast_t60 as [d Hd]. destruct coast_BTL as (H37 & H28 & H46).
  unfold Eom.t62, Eom.Thr, Eom.si2can.
  rewrite coast_t6, H37, coast_t49, Hd, Thr_zero. fl_unfold.
  f_equal. ring.
Qed.

Lemma coast_t64 :
  Eom.t64 K V p f g h k L m pco1 pco2 pco3 pco4 pco5 pco6 pco7 rho = Some 0.
Proof.
  destruct coast_t60 as [d Hd]. destruct coast_BTL as (H37 & H28 & H46).
  unfold Eom.t64, Eom.t63, Eom.t53, Eom.Thr, Eom.si2can, Eom.J2.
  rewrite coast_t6, H28, coast_t49, Hd, coast_t39, coast_t41, Thr_zero, J2_zero.
  autounfold with eom. fl_norm.
  f_equal. ring.
Qed.

Lemma coast_t67 :
  Eom.t67 K V p f g h k L m pco1 pco2 pco3 pco4 pco5 pco6 pco7 rho = Some 0.
Proof.
  destruct coast_t60 as [d Hd]. destruct coast_BTL as (H37 & H28 & H46).
  unfold Eom.t67, Eom.t66, Eom.t68, Eom.Thr, Eom.si2can, Eom.J2.
  rewrite coast_t6, H46, coast_t49, Hd, coast_t39, coast_t41, Thr_zero, J2_zero.
  autounfold with eom. fl_norm.
  f_equal. ring.
Qed.

Lemma coast_dxdt0 :
  Eom.dxdt0 K V p f g h k L m pco1 pco2 pco3 pco4 pco5 pco6 pco7 rho = Some 0.
Proof.
  change (Eom.dxdt0 K V p f g h k L m pco1 pco2 pco3 pco4 pco5 pco6 pco7 rho)
    with (Eom.t11 f g L * Eom.t17 p
          * Eom.t64 K V p f g h k L m pco1 pco2 pco3 pco4 pco5 pco6 pco7 rho
          * -2)%fl.
  rewrite coast_t11, coast_t17, coast_t64. fl_unfold. f_equal. ring.
Qed.

Lemma coast_dxdt1 :
  Eom.dxdt1 K V p f g h k L m pco1 pco2 pco3 pco4 pco5 pco6 pco7 rho = Some 0.
Proof.
  unfold Eom.dxdt1, Eom.J2.
  rewrite coast_t62, coast_t64, coast_t67, coast_t10, coast_t11, coast_t39,
    coast_t41, J2_zero.
  autounfold with eom. fl_norm. f_equal. ring.
Qed.

Lemma coast_dxdt2 :
  Eom.dxdt2 K V p f g h k L m pco1 pco2 pco3 pco4 pco5 pco6 pco7 rho = Some 0.
Proof.
  unfold Eom.dxdt2, Eom.J2.
  rewrite coast_t62, coast_t64, coast_t67, coast_t10, coast_t11, coast_t39,
    coast_t41, J2_zero.
  autounfold with eom. fl_norm. f_equal. ring.
Qed.

Lemma coast_dxdt3 :
  Eom.dxdt3 K V p f g h k L m pco1 pco2 pco3 pco4 pco5 pco6 pco7 rho = Some 0.
Proof.
  unfold Eom.dxdt3. rewrite coast_t67, coast_t10, coast_t11.
  autounfold with eom. fl_norm. f_equal. ring.
Qed.

Lemma coast_dxdt4 :
  Eom.dxdt4 K V p f g h k L m pco1 pco2 pco3 pco4 pco5 pco6 pco7 rho = Some 0.
Proof.
  unfold Eom.dxdt4. rewrite coast_t67, coast_t10, coast_t11.
  autounfold with eom. fl_norm. f_equal. ring.
Qed.

Lemma coast_dxdt5 :
  Eom.dxdt5 K V p f g h k L m pco1 pco2 pco3 pco4 pco5 pco6 pco7 rho
  = Some (sqrt (1 / p ^ 3) * (qterm f g L) ^ 2).
Proof.
  unfold Eom.dxdt5. rewrite coast_t67, coast_t10, coast_t11, coast_t79.
  autounfold with eom. fl_norm. f_equal.
  rewrite <- sqrt_inv_cube by assumption. unfold qterm. ring.
Qed.

(** With no thrust and no oblateness the first six derivatives are the
    Keplerian rates in canonical units. *)
Lemma coast_rates (t : R) (eclipse : bool) :
  exists d,
    Eom.eom_mee_twobodyJ2_minfuel K V t
      [p; f; g; h; k; L; m; pco1; pco2; pco3; pco4; pco5; pco6; pco7]
      rho eclipse = Ok d
    /\ firstn 6 d
       = [Some 0; Some 0; Some 0; Some 0; Some 0;
          Some (sqrt (1 / p ^ 3) * (qterm f g L) ^ 2)].
Proof.
  eexists. split; [now apply eom_returns_valid |].
  unfold Eom.dxdt. cbn [firstn].
  now rewrite coast_dxdt0, coast_dxdt1, coast_dxdt2, coast_dxdt3, coast_dxdt4,
    coast_dxdt5.
Qed.

End Coast.

(** C7, as stated, fails: with all seven costates zero the thrust direction
    is the zero vector divided by its norm, the division of line 141 raises
    and no derivative is returned; and with a non-zero costate the rate of
    [L] that is returned does not involve [mu]. *)
Lemma eom_zero_costates_counterexample :
  Eom.eom_mee_twobodyJ2_minfuel K_unit V_coast 0 x_zero_costates 1 false
  = Raise ZeroDivisionError
  /\ (exists d,
         Eom.eom_mee_twobodyJ2_minfuel K_mu4 V_coast 0 x_flam 1 false = Ok d
         /\ nth_error d 5 = Some (Some 1)
         /\ sqrt (cn.mu K_mu4 / 1 ^ 3) * (1 + 0 * cos 0 + 0 * sin 0) ^ 2 = 2).
Proof.
  split.
  - apply eom_raises. do 5 right. split; [lra |].
    exact x_zero_costates_BTL.
  - destruct (coast_rates K_mu4 V_coast 1 0 0 0 0 0 1 0 1 0 0 0 0 0 1
                eq_refl eq_refl ltac:(lra)
                ltac:(rewrite x_flam_qterm; lra) ltac:(lra) ltac:(lra)
                ltac:(cbn [sc.c V_coast]; lra)
                x_flam_BTL_nonzero 0 false) as (d & Hd & H6).
    exists d. split; [exact Hd |]. split.
    + do 6 (destruct d as [| ? d]; [discriminate H6 |]).
      cbn [firstn nth_error] in H6 |- *.
      injection H6 as _ _ _ _ _ H5. rewrite H5, x_flam_qterm.
      replace (1 / (1 * (1 * (1 * 1)))) with 1 by field. rewrite sqrt_1.
      do 2 f_equal. ring.
    + cbn [cn.mu K_mu4]. rewrite cos_0, sin_0.
      replace (4 / 1 ^ 3) with (2 * 2) by field.
      rewrite sqrt_square by lra. ring.
Qed.

(** C7, amended: with zero thrust magnitude and [J2 = 0], at a state with
    [p > 0], a non-zero radius denominator, non-zero mass, [rho] and [c],
    and costates whose control-influence vector [B^T lambda] is non-zero,
    the call returns and the first six derivatives are
    [dp = df = dg = dh = dk = 0] and
    [dL = sqrt(1/p^3) * (1 + f cos L + g sin L)^2], the Keplerian rates for
    [mu = 1]. *)
Theorem eom_coast_keplerian (K : cn.t) (V : sc.t) (t : R)
        (p f g h k L m pco1 pco2 pco3 pco4 pco5 pco6 pco7 rho : R)
        (eclipse : bool) :
  cn.J2 K = 0 -> sc.Thr V = 0 ->
  0 < p -> qterm f g L <> 0 -> m <> 0 -> rho <> 0 -> sc.c V <> 0 ->
  norm_real (BTL_real p f g h k L pco1 pco2 pco3 pco4 pco5 pco6) <> 0 ->
  exists d,
    Eom.eom_mee_twobodyJ2_minfuel K V t
      [p; f; g; h; k; L; m; pco1; pco2; pco3; pco4; pco5; pco6; pco7]
      rho eclipse = Ok d
    /\ firstn 6 d
       = [Some 0; Some 0; Some 0; Some 0; Some 0;
          Some (sqrt (1 / p ^ 3) * (1 + f * cos L + g * sin L) ^ 2)].
Proof.
  intros HJ HT Hp Hq Hm Hr Hc HB.
  exact (coast_rates K V p f g h k L m pco1 pco2 pco3 pco4 pco5 pco6 pco7 rho
           HJ HT Hp Hq Hm Hr Hc HB t eclipse).
Qed.

Lemma eom_coast_keplerian_witness :
  cn.J2 K_unit = 0 /\ sc.Thr V_coast = 0 /\ 0 < 1 /\ qterm 0 0 0 <> 0
  /\ 1 <> 0 /\ sc.c V_coast <> 0
  /\ norm_real (BTL_real 1 0 0 0 0 0 0 1 0 0 0 0) <> 0
  /\ exists d,
       Eom.eom_mee_twobodyJ2_minfuel K_unit V_coast 0 x_flam 1 true = Ok d
       /\ firstn 6 d
          = [Some 0; Some 0; Some 0; Some 0; Some 0;
             Some (sqrt (1 / 1 ^ 3) * (1 + 0 * cos 0 + 0 * sin 0) ^ 2)].
Proof.
  assert (Hp : 0 < 1) by lra.
  assert (Hq : qterm 0 0 0 <> 0) by (rewrite x_flam_qterm; lra).
  assert (Hm : 1 <> 0) by lra.
  assert (Hc : sc.c V_coast <> 0) by (cbn [sc.c V_coast]; lra).
  repeat (split; [first [reflexivity | assumption
                        | exact x_flam_BTL_nonzero] |]).
  exact (eom_coast_keplerian K_unit V_coast 0 1 0 0 0 0 0 1 0 1 0 0 0 0 0 1
           true eq_refl eq_refl Hp Hq Hm Hm Hc x_flam_BTL_nonzero).
Defined.

(** ** The local-vertical/local-horizontal frame *)

Lemma nonzero_sum_sq (a b c : R) :
  (a, b, c) <> (0, 0, 0) -> 0 < a * a + b * b + c * c.
Proof.
  intros H.
  destruct (Req_dec a 0) as [-> | Ha]; [| nra].
  destruct (Req_dec b 0) as [-> | Hb]; [| nra].
  destruct (Req_dec c 0) as [-> | Hc]; [| nra].
  now elim H.
Qed.

Lemma norm_real_facts (u : R * R * R) :
  u <> (0, 0, 0) ->
  norm_real u <> 0
  /\ norm_real u * norm_real u
     = fst (fst u) * fst (fst u) + snd (fst u) * snd (fst u) + snd u * snd u.
Proof.
  destruct u as [[a b] c]. intros H. apply nonzero_sum_sq in H.
  unfold norm_real. cbn [fst snd]. split.
  - apply Rgt_not_eq. now apply sqrt_lt_R0.
  - apply sqrt_sqrt. lra.
Qed.

Lemma mat3_some_eq (a11 a12 a13 a21 a22 a23 a31 a32 a33 : R)
      (b11 b12 b13 b21 b22 b23 b31 b32 b33 : R) :
  a11 = b11 -> a12 = b12 -> a13 = b13 ->
  a21 = b21 -> a22 = b22 -> a23 = b23 ->
  a31 = b31 -> a32 = b32 -> a33 = b33 ->
  ((Some a11, Some a12, Some a13), (Some a21, Some a22, Some a23),
   (Some a31, Some a32, Some a33))
  = (((Some b11, Some b12, Some b13), (Some b21, Some b22, Some b23),
      (Some b31, Some b32, Some b33)) : mat3).
Proof. now intros -> -> -> -> -> -> -> -> ->. Qed.

(** Clear the two norms from an identity between rational expressions of
    the frame's entries. *)
Ltac frame_identity nr nh Hnr Hnh Hnr2 Hnh2 :=
  apply (Rmult_eq_reg_r (nr * nr * (nh * nh)));
  [| repeat apply Rmult_integral_contrapositive_currified; assumption];
  field_simplify; [| split; assumption];
  repeat match goal with
    | |- context [nr ^ 4] =>
        replace (nr ^ 4) with ((nr * nr) * (nr * nr)) by ring
    | |- context [nh ^ 4] =>
        replace (nh ^ 4) with ((nh * nh) * (nh * nh)) by ring
    | |- context [nr ^ 3] =>
        replace (nr ^ 3) with ((nr * nr) * nr) by ring
    | |- context [nh ^ 3] =>
        replace (nh ^ 3) with ((nh * nh) * nh) by ring
    | |- context [nr ^ 2] => replace (nr ^ 2) with (nr * nr) by ring
    | |- context [nh ^ 2] => replace (nh ^ 2) with (nh * nh) by ring
    end;
  rewrite ?Hnr2, ?Hnh2; ring.

(** C8: for [r <> 0] and [r x v <> 0] the matrix of [inertial2radial] has
    first row [r/||r||], third row [(r x v)/||r x v||] and second row the
    cross product of the third with the first; it is orthonormal,
    [M^T M = identity], with determinant 1. *)
Theorem inertial2radial_orthonormal (r v : R * R * R) :
  r <> (0, 0, 0) -> cross_real r v <> (0, 0, 0) ->
  let hvec := cross_real r v in
  let xrdl := div_real r (norm_real r) in
  let zrdl := div_real hvec (norm_real hvec) in
  let yrdl := cross_real zrdl xrdl in
  let M := lit33 (xrdl, yrdl, zrdl) in
  Functions.inertial2radial (lit3 r) (lit3 v) = M
  /\ matmul3 (transpose3 M) M = identity3
  /\ det3 M = Some 1.
Proof.
  intros Hr Hh hvec xrdl zrdl yrdl M.
  destruct (norm_real_facts r Hr) as [Hnr Hnr2].
  destruct (norm_real_facts hvec Hh) as [Hnh Hnh2].
  subst M yrdl zrdl xrdl. revert Hnh Hnh2. subst hvec.
  revert Hnr Hnr2. destruct r as [[a b] c], v as [[d e] f].
  unfold cross_real, div_real. cbn [fst snd].
  set (h1 := b * f - c * e). set (h2 := c * d - a * f).
  set (h3 := a * e - b * d).
  intros Hnr Hnr2 Hnh Hnh2.
  split.
  { unfold Functions.inertial2radial, lit3, lit, cross.
    cbn [fst snd vx vy vz fadd fsub fmul lift2].
    rewrite !norm_some. fold h1 h2 h3.
    change (sqrt (a * a + b * b + c * c)) with (norm_real (a, b, c)).
    change (sqrt (h1 * h1 + h2 * h2 + h3 * h3))
      with (norm_real (h1, h2, h3)).
    fl_unfold. rewrite !fdiv_some by assumption. fl_unfold.
    unfold vdiv. cbn [vx vy vz fst snd].
    rewrite !fdiv_some by assumption. reflexivity. }
  set (nr := norm_real (a, b, c)) in *.
  set (nh := norm_real (h1, h2, h3)) in *.
  clearbody nr nh. clear Hr Hh. subst h1 h2 h3.
  split.
  - unfold matmul3, transpose3, lit33, lit3, identity3, dot, lit.
    cbn [fst snd row1 row2 row3 vx vy vz fadd fmul lift2].
    apply mat3_some_eq;
      frame_identity nr nh Hnr Hnh Hnr2 Hnh2.
  - unfold det3, lit33, lit3, dot, cross, lit.
    cbn [fst snd row1 row2 row3 vx vy vz fadd fsub fmul lift2].
    f_equal. frame_identity nr nh Hnr Hnh Hnr2 Hnh2.
Qed.

Lemma inertial2radial_orthonormal_witness :
  (1, 0, 0) <> (0, 0, 0)
  /\ cross_real (1, 0, 0) (0, 1, 0) <> (0, 0, 0)
  /\ det3 (Functions.inertial2radial (lit3 (1, 0, 0)) (lit3 (0, 1, 0)))
     = Some 1.
Proof.
  assert (Hr : (1, 0, 0) <> (0, 0, 0)) by (intros H; inversion H; lra).
  assert (Hh : cross_real (1, 0, 0) (0, 1, 0) <> (0, 0, 0)).
  { unfold cross_real. cbn [fst snd]. intros H. inversion H. lra. }
  split; [exact Hr |]. split; [exact Hh |].
  destruct (inertial2radial_orthonormal (1, 0, 0) (0, 1, 0) Hr Hh)
    as (HM & _ & Hdet).
  rewrite HM. exact Hdet.
Defined.

(** ** [eom_mee_twobodyJ2_minfuel] and the eclipse flag *)

(** C2: the derivative does not depend on the eclipse flag. *)
Theorem eom_eclipse_irrelevant (K : cn.t) (V : sc.t) (t : R) (x : list R)
        (rho : R) :
  Eom.eom_mee_twobodyJ2_minfuel K V t x rho true
  = Eom.eom_mee_twobodyJ2_minfuel K V t x rho false.
Proof. reflexivity. Qed.

(** ** [thrust_angle] *)

(** C10: every call of [thrust_angle] raises [UnboundLocalError], a
    [NameError]: the first statement reads the name [r] before any of the
    result names is assigned, and nothing after it is evaluated. *)
Theorem thrust_angle_unbound (K : cn.t) (V : sc.t) (data : list (list R))
        (rho : R) (eclipse : bool) :
  Functions.load_name (Functions.thrust_angle_frame data rho eclipse) "r"%string
  = Raise UnboundLocalError
  /\ Functions.thrust_angle K V data rho eclipse = Raise UnboundLocalError
  /\ is_NameError UnboundLocalError = true.
Proof.
  repeat split.
Qed.

(** C5 fails on the code: with eclipse modelling disabled the call raises
    before any branch is reached; and the disabled branch, taken alone,
    computes the thrust from [cn.P] and not from [Pa[i]]. *)
Theorem thrust_angle_disabled_raises :
  Functions.thrust_angle K_split V_unit [x_flam] 1 false
  = Raise UnboundLocalError
  /\ exists st,
       Functions.eclipse_model K_split V_unit [(lit 1, lit 0, lit 0)]
         [lit 1] [(lit 0, lit 2, lit 0)] 1 false 0 st_one = Ok st
       /\ Functions.st_Pa st = [Some 1]
       /\ Functions.st_F st = [Some 2].
Proof.
  split; [reflexivity |].
  eexists. split; [reflexivity |]. split; [reflexivity |].
  cbn [Functions.st_F]. unfold lit. cbn [cn.P K_split sc.A sc.eta sc.Isp cn.g0 V_unit].
  fl_norm. do 2 f_equal. field.
Qed.

(** C6 fails on the code: with eclipse modelling enabled the call raises
    before any branch is reached; and the eclipse test, taken alone, asks
    for the truth value of the three-element array [r[0] < 0] and raises
    [ValueError] on every non-empty batch. *)
Theorem thrust_angle_enabled_raises :
  Functions.thrust_angle K_unit V_unit [x_flam] 1 true
  = Raise UnboundLocalError
  /\ forall (K : cn.t) (V : sc.t) (r0 : vec3) (r : list vec3)
            (delta : list fl) (BTL : list vec3) (rho : R) (i : nat)
            (st : Functions.thrust_state),
       Functions.eclipse_model K V (r0 :: r) delta BTL rho true i st
       = Raise ValueError.
Proof.
  split; reflexivity.
Qed.

(** * Further properties *)

(** ** [eom_twobody] *)

Lemma norm1d_three (a b c : R) :
  Eom.norm1d [a; b; c] = Some (norm_real (a, b, c)).
Proof.
  unfold Eom.norm1d, norm_real. cbn [fold_right fst snd]. fl_unfold.
  rewrite fsqrt_some by nra. do 2 f_equal. ring.
Qed.

Lemma eom_twobody_returns (K : cn.t) (t x0 x1 x2 x3 x4 x5 : R) :
  (x0, x1, x2) <> (0, 0, 0) ->
  let n := norm_real (x0, x1, x2) in
  Eom.eom_twobody K t [x0; x1; x2; x3; x4; x5]
  = Ok [Some x3; Some x4; Some x5; Some (- cn.mu K * x0 / n ^ 3);
        Some (- cn.mu K * x1 / n ^ 3); Some (- cn.mu K * x2 / n ^ 3)].
Proof.
  intros Hr n.
  destruct (norm_real_facts _ Hr) as [Hn Hn2]. fold n in Hn.
  assert (Hn3 : n * n * n <> 0)
    by (repeat apply Rmult_integral_contrapositive_currified; assumption).
  unfold Eom.eom_twobody. cbn [index nth_error bind Functions.slice
    Nat.sub skipn firstn].
  rewrite norm1d_three. fold n. rewrite fpow_3. fl_unfold.
  rewrite !ndiv_some by assumption. cbn [bind].
  repeat f_equal; field; assumption.
Qed.

(** X1: at a non-zero position [eom_twobody] returns the velocity and an
    acceleration [a = -mu r / ||r||^3]: it is parallel to the position (so
    the angular momentum [r x v] is conserved) and obeys the inverse-square
    law. *)
Theorem eom_twobody_central (K : cn.t) (t x0 x1 x2 x3 x4 x5 : R) :
  (x0, x1, x2) <> (0, 0, 0) ->
  let n := norm_real (x0, x1, x2) in
  exists a1 a2 a3,
    Eom.eom_twobody K t [x0; x1; x2; x3; x4; x5]
    = Ok [Some x3; Some x4; Some x5; Some a1; Some a2; Some a3]
    /\ a1 = - cn.mu K * x0 / n ^ 3
    /\ a2 = - cn.mu K * x1 / n ^ 3
    /\ a3 = - cn.mu K * x2 / n ^ 3
    /\ cross_real (x0, x1, x2) (a1, a2, a3) = (0, 0, 0)
    /\ (a1 * a1 + a2 * a2 + a3 * a3) * (n * n) ^ 2 = cn.mu K ^ 2.
Proof.
  intros Hr n.
  destruct (norm_real_facts _ Hr) as [Hn Hn2]. fold n in Hn, Hn2.
  cbn [fst snd] in Hn2.
  assert (Hn3 : n * n * n <> 0)
    by (repeat apply Rmult_integral_contrapositive_currified; assumption).
  exists (- cn.mu K * x0 / n ^ 3), (- cn.mu K * x1 / n ^ 3),
    (- cn.mu K * x2 / n ^ 3).
  split; [now apply eom_twobody_returns |].
  do 3 (split; [reflexivity |]).
  split.
  - unfold cross_real. cbn [fst snd]. repeat f_equal; field; assumption.
  - transitivity (cn.mu K ^ 2 * ((x0 * x0 + x1 * x1 + x2 * x2) * (n * n) ^ 2
                                 / (n * n) ^ 3)).
    + field. assumption.
    + rewrite <- Hn2. field. assumption.
Qed.

Lemma eom_twobody_central_witness :
  (1, 0, 0) <> (0, 0, 0)
  /\ exists a1 a2 a3,
       Eom.eom_twobody K_unit 0 [1; 0; 0; 0; 1; 0]
       = Ok [Some 0; Some 1; Some 0; Some a1; Some a2; Some a3]
       /\ cross_real (1, 0, 0) (a1, a2, a3) = (0, 0, 0).
Proof.
  assert (Hr : (1, 0, 0) <> (0, 0, 0)) by (intros H; inversion H; lra).
  split; [exact Hr |].
  destruct (eom_twobody_central K_unit 0 1 0 0 0 1 0 Hr)
    as (a1 & a2 & a3 & H & _ & _ & _ & Hc & _).
  exists a1, a2, a3. split; assumption.
Defined.

(** X2: [eom_twobody] raises [ZeroDivisionError] exactly at the origin,
    where the cube of the radius is zero and line 39 divides by it: no
    derivative is returned there, whatever the velocity. *)
Theorem eom_twobody_origin (K : cn.t) (t x0 x1 x2 x3 x4 x5 : R) :
  Eom.eom_twobody K t [x0; x1; x2; x3; x4; x5] = Raise ZeroDivisionError
  <-> (x0, x1, x2) = (0, 0, 0).
Proof.
  split.
  - intros H.
    destruct (Req_dec x0 0) as [-> | H0]; [| exfalso].
    + destruct (Req_dec x1 0) as [-> | H1]; [| exfalso].
      * destruct (Req_dec x2 0) as [-> | H2]; [reflexivity | exfalso].
        rewrite eom_twobody_returns in H; [discriminate H |].
        intros C. now inversion C.
      * rewrite eom_twobody_returns in H; [discriminate H |].
        intros C. now inversion C.
    + rewrite eom_twobody_returns in H; [discriminate H |].
      intros C. now inversion C.
  - intros H. inversion H. subst.
    unfold Eom.eom_twobody. cbn [index nth_error bind Functions.slice
      Nat.sub skipn firstn].
    rewrite norm1d_three. unfold norm_real. cbn [fst snd].
    replace (0 * 0 + 0 * 0 + 0 * 0) with 0 by ring. rewrite sqrt_0, fpow_3.
    replace (0 * 0 * 0) with 0 by ring.
    now rewrite ndiv_zero.
Qed.

(** ** [mee2rv] *)

Lemma sin_cos_one (x : R) : cos x * cos x + sin x * sin x = 1.
Proof. pose proof (sin2_cos2 x) as H. unfold Rsqr in H. lra. Qed.

(** Decide a polynomial identity in [c] and [s] modulo [c^2 + s^2 = 1]:
    every even power of [s] is rewritten in [c]. *)
Ltac trig_ring c s Hcs :=
  let H2 := fresh "H2" in
  assert (H2 : s ^ 2 = 1 - c ^ 2) by nra;
  repeat match goal with
    | |- context [s ^ 6] => replace (s ^ 6) with ((s ^ 2) ^ 3) by ring
    | |- context [s ^ 5] => replace (s ^ 5) with ((s ^ 2) ^ 2 * s) by ring
    | |- context [s ^ 4] => replace (s ^ 4) with ((s ^ 2) ^ 2) by ring
    | |- context [s ^ 3] => replace (s ^ 3) with (s ^ 2 * s) by ring
    end;
  rewrite ?H2; ring.

Section MeeState.

Variable K : cn.t.
Variables p f g h k L : R.

Hypothesis p_nonzero : p <> 0.
Hypothesis mu_p : 0 <= cn.mu K / p.
Hypothesis q_nonzero : qterm f g L <> 0.

Let q := qterm f g L.
Let s2 := 1 + (h * h + k * k).
Let alpha2 := h * h - k * k.
Let hk2 := 2 * h * k.
Let sq := sqrt (cn.mu K / p).
Let radius := p / q.

Let s2_pos : 0 < s2.
Proof. unfold s2. nra. Qed.

(** The position and velocity [mee2rv] computes at a valid sample. *)
Lemma mee2rv_sample_real :
  Functions.mee2rv_sample K p f g h k L
  = ((Some (radius * (cos L + alpha2 * cos L + hk2 * sin L) / s2),
      Some (radius * (sin L - alpha2 * sin L + hk2 * cos L) / s2),
      Some (2 * radius * (h * sin L - k * cos L) / s2)),
     (Some (- sq * (sin L + alpha2 * sin L - hk2 * cos L + g - f * hk2
                    + alpha2 * g) / s2),
      Some (- sq * (- cos L + alpha2 * cos L + hk2 * sin L - f + g * hk2
                    + alpha2 * f) / s2),
      Some (2 * sq * (h * cos L + k * sin L + f * h + g * k) / s2))).
Proof.
  assert (Hq : 1 + f * cos L + g * sin L <> 0) by exact q_nonzero.
  assert (Hs : 1 + (h * h + k * k) <> 0) by (fold s2; lra).
  unfold Functions.mee2rv_sample. fl_norm. reflexivity.
Qed.

Let sq_sq : sq * sq * p = cn.mu K.
Proof.
  unfold sq. rewrite sqrt_sqrt by assumption. field. assumption.
Qed.

Lemma mee2rv_sample_geometry :
  exists r v : R * R * R,
    Functions.mee2rv_sample K p f g h k L = (lit3 r, lit3 v)
    /\ norm_real r = Rabs (p / q)
    /\ fst (fst v) * fst (fst v) + snd (fst v) * snd (fst v) + snd v * snd v
       = cn.mu K / p * (1 + 2 * (f * cos L + g * sin L) + f * f + g * g)
    /\ fst (fst r) * fst (fst v) + snd (fst r) * snd (fst v) + snd r * snd v
       = p / q * sq * (f * sin L - g * cos L).
Proof.
  eexists (_, _, _), (_, _, _). split; [apply mee2rv_sample_real; assumption |].
  cbn [fst snd].
  assert (Hq : q <> 0) by exact q_nonzero.
  assert (Hs : s2 <> 0) by lra.
  pose proof (sin_cos_one L) as Hcs.
  unfold radius, alpha2, hk2, q, qterm in *.
  set (c := cos L) in *. set (s := sin L) in *. clearbody c s.
  pose proof sq_sq as Hsq. clearbody sq. unfold s2 in *. clear s2_pos.
  split; [| split].
  - unfold norm_real. cbn [fst snd].
    rewrite <- sqrt_Rsqr_abs. f_equal. unfold Rsqr.
    field_simplify_eq; [| split; assumption]. trig_ring c s Hcs.
  - rewrite <- Hsq.
    field_simplify_eq; [| repeat split; assumption]. trig_ring c s Hcs.
  - field_simplify_eq; [| split; assumption]. trig_ring c s Hcs.
Qed.

Lemma mee2rv_sample_momentum :
  exists r v : R * R * R,
    Functions.mee2rv_sample K p f g h k L = (lit3 r, lit3 v)
    /\ cross_real r v
       = (2 * k * (p * sq / s2), - (2 * h) * (p * sq / s2),
          (1 - h * h - k * k) * (p * sq / s2))
    /\ norm_real (cross_real r v) = Rabs p * sq.
Proof.
  eexists (_, _, _), (_, _, _). split; [apply mee2rv_sample_real; assumption |].
  assert (Hq : q <> 0) by exact q_nonzero.
  assert (Hs : s2 <> 0) by lra.
  pose proof (sin_cos_one L) as Hcs.
  assert (Hsq0 : 0 <= sq) by apply sqrt_pos.
  assert (Hcross :
    cross_real
      (radius * (cos L + alpha2 * cos L + hk2 * sin L) / s2,
       radius * (sin L - alpha2 * sin L + hk2 * cos L) / s2,
       2 * radius * (h * sin L - k * cos L) / s2)
      (- sq * (sin L + alpha2 * sin L - hk2 * cos L + g - f * hk2
               + alpha2 * g) / s2,
       - sq * (- cos L + alpha2 * cos L + hk2 * sin L - f + g * hk2
               + alpha2 * f) / s2,
       2 * sq * (h * cos L + k * sin L + f * h + g * k) / s2)
    = (2 * k * (p * sq / s2), - (2 * h) * (p * sq / s2),
       (1 - h * h - k * k) * (p * sq / s2))).
  { unfold cross_real. cbn [fst snd].
    unfold radius, alpha2, hk2, q, qterm in *.
    set (c := cos L) in *. set (s := sin L) in *. clearbody c s.
    clearbody sq. unfold s2 in *. clear s2_pos.
    f_equal; [f_equal |];
      (field_simplify_eq; [| split; assumption]); trig_ring c s Hcs. }
  split; [exact Hcross |].
  rewrite Hcross. unfold norm_real. cbn [fst snd].
  replace (2 * k * (p * sq / s2) * (2 * k * (p * sq / s2))
           + - (2 * h) * (p * sq / s2) * (- (2 * h) * (p * sq / s2))
           + (1 - h * h - k * k) * (p * sq / s2)
             * ((1 - h * h - k * k) * (p * sq / s2)))
    with (Rsqr (p * sq)) by (unfold Rsqr, s2; field; fold s2; lra).
  rewrite sqrt_Rsqr_abs, Rabs_mult. f_equal. now apply Rabs_pos_eq.
Qed.

(** The position needs only a non-zero radius denominator. *)
Lemma mee2rv_position_defined :
  defined3 (fst (Functions.mee2rv_sample K p f g h k L)).
Proof.
  assert (Hq : 1 + f * cos L + g * sin L <> 0) by exact q_nonzero.
  assert (Hs : 1 + (h * h + k * k) <> 0) by (fold s2; lra).
  unfold Functions.mee2rv_sample. cbn [fst]. fl_norm.
  repeat split; eexists; reflexivity.
Qed.

End MeeState.

(** X3: at a sample with [p <> 0], [mu/p >= 0] and a non-zero radius
    denominator [q], [mee2rv] returns a position of length [|p / q|], a
    velocity obeying the vis-viva relation and the radial velocity
    [sqrt(mu/p) (f sin L - g cos L)]. *)
Theorem mee2rv_radius_speed (K : cn.t) (p f g h k L : R) :
  p <> 0 -> 0 <= cn.mu K / p -> qterm f g L <> 0 ->
  exists r v : R * R * R,
    Functions.mee2rv_sample K p f g h k L = (lit3 r, lit3 v)
    /\ norm_real r = Rabs (p / qterm f g L)
    /\ fst (fst v) * fst (fst v) + snd (fst v) * snd (fst v) + snd v * snd v
       = cn.mu K / p * (1 + 2 * (f * cos L + g * sin L) + f * f + g * g)
    /\ fst (fst r) * fst (fst v) + snd (fst r) * snd (fst v) + snd r * snd v
       = p / qterm f g L * sqrt (cn.mu K / p) * (f * sin L - g * cos L).
Proof. exact (mee2rv_sample_geometry K p f g h k L). Qed.

Lemma mee2rv_radius_speed_witness :
  1 <> 0 /\ 0 <= cn.mu K_unit / 1 /\ qterm 0 0 0 <> 0
  /\ exists r v : R * R * R,
       Functions.mee2rv_sample K_unit 1 0 0 0 0 0 = (lit3 r, lit3 v)
       /\ norm_real r = Rabs (1 / qterm 0 0 0).
Proof.
  assert (Hp : 1 <> 0) by lra.
  assert (Hm : 0 <= cn.mu K_unit / 1) by (cbn [cn.mu K_unit]; lra).
  assert (Hq : qterm 0 0 0 <> 0) by (rewrite x_flam_qterm; lra).
  split; [exact Hp |]. split; [exact Hm |]. split; [exact Hq |].
  destruct (mee2rv_radius_speed K_unit 1 0 0 0 0 0 Hp Hm Hq)
    as (r & v & H & Hn & _).
  exists r, v. split; assumption.
Defined.

(** X4: the angular momentum [r x v] of the state [mee2rv] returns is
    [p sqrt(mu/p) / (1+h^2+k^2)] times [(2k, -2h, 1-h^2-k^2)], of length
    [|p| sqrt(mu/p)]: it depends on [p], [h] and [k] only, not on [f], [g]
    or the longitude [L]. *)
Theorem mee2rv_angular_momentum (K : cn.t) (p f g h k L : R) :
  p <> 0 -> 0 <= cn.mu K / p -> qterm f g L <> 0 ->
  exists r v : R * R * R,
    Functions.mee2rv_sample K p f g h k L = (lit3 r, lit3 v)
    /\ cross_real r v
       = (2 * k * (p * sqrt (cn.mu K / p) / (1 + (h * h + k * k))),
          - (2 * h) * (p * sqrt (cn.mu K / p) / (1 + (h * h + k * k))),
          (1 - h * h - k * k)
          * (p * sqrt (cn.mu K / p) / (1 + (h * h + k * k))))
    /\ norm_real (cross_real r v) = Rabs p * sqrt (cn.mu K / p).
Proof. exact (mee2rv_sample_momentum K p f g h k L). Qed.

Lemma mee2rv_angular_momentum_witness :
  1 <> 0 /\ 0 <= cn.mu K_unit / 1 /\ qterm 0 0 0 <> 0
  /\ exists r v : R * R * R,
       Functions.mee2rv_sample K_unit 1 0 0 0 0 0 = (lit3 r, lit3 v)
       /\ norm_real (cross_real r v) = Rabs 1 * sqrt (cn.mu K_unit / 1).
Proof.
  assert (Hp : 1 <> 0) by lra.
  assert (Hm : 0 <= cn.mu K_unit / 1) by (cbn [cn.mu K_unit]; lra).
  assert (Hq : qterm 0 0 0 <> 0) by (rewrite x_flam_qterm; lra).
  split; [exact Hp |]. split; [exact Hm |]. split; [exact Hq |].
  destruct (mee2rv_angular_momentum K_unit 1 0 0 0 0 0 Hp Hm Hq)
    as (r & v & H & _ & Hn).
  exists r, v. split; assumption.
Defined.

Lemma defined_fsqrt_fdiv (a b : R) :
  defined (fsqrt (fdiv (lit a) (lit b))) -> b <> 0 /\ 0 <= a / b.
Proof.
  intros H. pose proof (defined_fsqrt_arg _ H) as Hd.
  apply defined_fdiv in Hd as [_ Hb]. split; [assumption |].
  unfold lit in H. rewrite fdiv_some in H by assumption.
  now apply defined_fsqrt.
Qed.

(** X5: the position [mee2rv] returns is defined exactly when the radius
    denominator [1 + f cos L + g sin L] is non-zero, and the velocity
    exactly when [p <> 0] and [mu / p >= 0]. *)
Theorem mee2rv_defined_iff (K : cn.t) (p f g h k L : R) :
  (defined3 (fst (Functions.mee2rv_sample K p f g h k L))
   <-> qterm f g L <> 0)
  /\ (defined3 (snd (Functions.mee2rv_sample K p f g h k L))
      <-> p <> 0 /\ 0 <= cn.mu K / p).
Proof.
  assert (Hs : 1 + (h * h + k * k) <> 0) by nra.
  split; split.
  - unfold Functions.mee2rv_sample, defined3. cbn [fst snd vx vy vz].
    change (1 + f * fcos L + g * fsin L)%fl with (lit (qterm f g L)).
    intros (H & _ & _). inv_defined. assumption.
  - apply mee2rv_position_defined.
  - unfold Functions.mee2rv_sample, defined3. cbn [fst snd vx vy vz].
    set (sq := fsqrt (cn.mu K / p)).
    intros (H & _ & _). inv_defined.
    match goal with Hsq : defined sq |- _ =>
      now apply defined_fsqrt_fdiv in Hsq end.
  - intros [Hp Hm]. unfold Functions.mee2rv_sample, defined3.
    cbn [fst snd vx vy vz]. fl_norm.
    repeat split; eexists; reflexivity.
Qed.

(** ** [inertial2radial] *)

(** The rows of the frame at a non-degenerate state. *)
Lemma lvlh_rows (a b c d e f : R) :
  let h1 := b * f - c * e in
  let h2 := c * d - a * f in
  let h3 := a * e - b * d in
  let nr := norm_real (a, b, c) in
  let nh := norm_real (h1, h2, h3) in
  nr <> 0 -> nh <> 0 ->
  Functions.inertial2radial (lit3 (a, b, c)) (lit3 (d, e, f))
  = lit33 ((a / nr, b / nr, c / nr),
           (h2 / nh * (c / nr) - h3 / nh * (b / nr),
            h3 / nh * (a / nr) - h1 / nh * (c / nr),
            h1 / nh * (b / nr) - h2 / nh * (a / nr)),
           (h1 / nh, h2 / nh, h3 / nh)).
Proof.
  intros h1 h2 h3 nr nh Hnr Hnh.
  unfold Functions.inertial2radial, lit3, lit, cross.
  cbn [fst snd vx vy vz fadd fsub fmul lift2].
  rewrite !norm_some. fold h1 h2 h3.
  change (sqrt (a * a + b * b + c * c)) with nr.
  change (sqrt (h1 * h1 + h2 * h2 + h3 * h3)) with nh.
  fl_unfold. rewrite !fdiv_some by assumption. fl_unfold.
  unfold vdiv. cbn [vx vy vz fst snd].
  rewrite !fdiv_some by assumption. reflexivity.
Qed.

(** As [frame_identity], for identities in which one norm may be absent. *)
Ltac frame_entry nr nh Hnr Hnh Hnr2 Hnh2 :=
  apply (Rmult_eq_reg_r (nr * nr * (nh * nh)));
  [| repeat apply Rmult_integral_contrapositive_currified; assumption];
  field_simplify; try solve [repeat split; assumption];
  repeat match goal with
    | |- context [nr ^ 4] =>
        replace (nr ^ 4) with ((nr * nr) * (nr * nr)) by ring
    | |- context [nh ^ 4] =>
        replace (nh ^ 4) with ((nh * nh) * (nh * nh)) by ring
    | |- context [nr ^ 3] =>
        replace (nr ^ 3) with ((nr * nr) * nr) by ring
    | |- context [nh ^ 3] =>
        replace (nh ^ 3) with ((nh * nh) * nh) by ring
    | |- context [nr ^ 2] => replace (nr ^ 2) with (nr * nr) by ring
    | |- context [nh ^ 2] => replace (nh ^ 2) with (nh * nh) by ring
    end;
  rewrite ?Hnr2, ?Hnh2; ring.

(** X6: in the frame of [inertial2radial] the position is purely radial,
    [M r = (||r||, 0, 0)], the velocity has no out-of-plane component,
    [M v = (r.v / ||r||, ||r x v|| / ||r||, 0)], and the angular momentum
    lies along the third axis, [M (r x v) = (0, 0, ||r x v||)]. *)
Theorem inertial2radial_components (r v : R * R * R) :
  r <> (0, 0, 0) -> cross_real r v <> (0, 0, 0) ->
  let M := Functions.inertial2radial (lit3 r) (lit3 v) in
  let nr := norm_real r in
  let nh := norm_real (cross_real r v) in
  matvec M (lit3 r) = lit3 (nr, 0, 0)
  /\ matvec M (lit3 v)
     = lit3 ((fst (fst r) * fst (fst v) + snd (fst r) * snd (fst v)
              + snd r * snd v) / nr, nh / nr, 0)
  /\ matvec M (lit3 (cross_real r v)) = lit3 (0, 0, nh).
Proof.
  destruct r as [[a b] c], v as [[d e] f].
  intros Hr Hh M nr nh.
  destruct (norm_real_facts _ Hr) as [Hnr Hnr2].
  destruct (norm_real_facts _ Hh) as [Hnh Hnh2].
  subst M. unfold cross_real in *. cbn [fst snd] in *.
  fold nr in Hnr, Hnr2. fold nh in Hnh, Hnh2.
  rewrite lvlh_rows by assumption. fold nr nh.
  clearbody nr nh. clear Hr Hh.
  unfold matvec, lit33, lit3, dot, lit.
  cbn [fst snd row1 row2 row3 vx vy vz fadd fmul lift2].
  repeat split; apply vec3_some_eq;
    frame_entry nr nh Hnr Hnh Hnr2 Hnh2.
Qed.

Lemma inertial2radial_components_witness :
  (1, 0, 0) <> (0, 0, 0)
  /\ cross_real (1, 0, 0) (0, 1, 0) <> (0, 0, 0)
  /\ matvec (Functions.inertial2radial (lit3 (1, 0, 0)) (lit3 (0, 1, 0)))
            (lit3 (1, 0, 0))
     = lit3 (norm_real (1, 0, 0), 0, 0).
Proof.
  assert (Hr : (1, 0, 0) <> (0, 0, 0)) by (intros H; inversion H; lra).
  assert (Hh : cross_real (1, 0, 0) (0, 1, 0) <> (0, 0, 0)).
  { unfold cross_real. cbn [fst snd]. intros H. inversion H. lra. }
  split; [exact Hr |]. split; [exact Hh |].
  exact (proj1 (inertial2radial_components (1, 0, 0) (0, 1, 0) Hr Hh)).
Defined.

Lemma norm_real_zero (u : R * R * R) : u = (0, 0, 0) -> norm_real u = 0.
Proof.
  intros ->. unfold norm_real. cbn [fst snd].
  replace (0 * 0 + 0 * 0 + 0 * 0) with 0 by ring. apply sqrt_0.
Qed.

(** X7: on a rectilinear state, [r x v = 0], the angular momentum cannot be
    normalised: the second and third rows of the matrix are not finite; at
    [r = 0] no entry is. *)
Theorem inertial2radial_degenerate (r v : R * R * R) :
  cross_real r v = (0, 0, 0) ->
  let M := Functions.inertial2radial (lit3 r) (lit3 v) in
  row2 M = (None, None, None) /\ row3 M = (None, None, None)
  /\ (r = (0, 0, 0) -> row1 M = (None, None, None)).
Proof.
  intros Hh M. subst M.
  pose proof (norm_real_zero _ Hh) as Hnh.
  destruct r as [[a b] c], v as [[d e] f].
  unfold cross_real in *. cbn [fst snd] in *.
  unfold Functions.inertial2radial, lit3, lit, cross.
  cbn [fst snd vx vy vz fadd fsub fmul lift2 row1 row2 row3].
  rewrite !norm_some.
  change (sqrt ((b * f - c * e) * (b * f - c * e)
                + (c * d - a * f) * (c * d - a * f)
                + (a * e - b * d) * (a * e - b * d)))
    with (norm_real (b * f - c * e, c * d - a * f, a * e - b * d)).
  rewrite Hnh. unfold vdiv. cbn [vx vy vz fst snd].
  rewrite !fdiv_zero. cbn [fmul fsub lift2].
  repeat split.
  intros Hr. injection Hr as -> -> ->.
  replace (0 * 0 + 0 * 0 + 0 * 0) with 0 by ring.
  now rewrite sqrt_0, !fdiv_zero.
Qed.

Lemma inertial2radial_degenerate_witness :
  cross_real (1, 0, 0) (2, 0, 0) = (0, 0, 0)
  /\ row3 (Functions.inertial2radial (lit3 (1, 0, 0)) (lit3 (2, 0, 0)))
     = (None, None, None).
Proof.
  assert (Hh : cross_real (1, 0, 0) (2, 0, 0) = (0, 0, 0)).
  { unfold cross_real. cbn [fst snd]. repeat f_equal; ring. }
  split; [exact Hh |].
  exact (proj1 (proj2 (inertial2radial_degenerate (1, 0, 0) (2, 0, 0) Hh))).
Defined.

Lemma lit3_inj (u w : R * R * R) : lit3 u = lit3 w -> u = w.
Proof.
  destruct u as [[a b] c], w as [[a' b'] c']. unfold lit3, lit.
  cbn [fst snd]. intros H. now inversion H.
Qed.

(** X8: at a state returned by [mee2rv] for [p > 0], [mu > 0] and a
    non-zero radius denominator, the third row of the [inertial2radial]
    matrix is the orbit normal [(2k, -2h, 1-h^2-k^2) / (1+h^2+k^2)]: it
    depends on [h] and [k] only. *)
Theorem mee2rv_frame_normal (K : cn.t) (p f g h k L : R) :
  0 < p -> 0 < cn.mu K -> qterm f g L <> 0 ->
  let s2 := 1 + (h * h + k * k) in
  row3 (Functions.inertial2radial
          (fst (Functions.mee2rv_sample K p f g h k L))
          (snd (Functions.mee2rv_sample K p f g h k L)))
  = lit3 (2 * k / s2, - (2 * h) / s2, (1 - h * h - k * k) / s2).
Proof.
  intros Hp Hmu Hq s2.
  assert (Hp0 : p <> 0) by lra.
  assert (Hmp : 0 < cn.mu K / p) by now apply Rdiv_lt_0_compat.
  assert (Hsq : 0 < sqrt (cn.mu K / p)) by now apply sqrt_lt_R0.
  assert (Hs2 : 0 < s2) by (unfold s2; nra).
  destruct (mee2rv_sample_geometry K p f g h k L Hp0 (Rlt_le _ _ Hmp) Hq)
    as (r & v & Hrv & Hnr & _).
  destruct (mee2rv_sample_momentum K p f g h k L Hp0 (Rlt_le _ _ Hmp) Hq)
    as (r' & v' & Hrv' & Hcross & Hnh).
  rewrite Hrv in Hrv'. apply pair_equal_spec in Hrv' as [Hr' Hv'].
  apply lit3_inj in Hr', Hv'. subst r' v'.
  rewrite Hrv. cbn [fst snd].
  assert (Hnr0 : norm_real r <> 0).
  { rewrite Hnr. apply Rabs_no_R0. unfold Rdiv.
    apply Rmult_integral_contrapositive_currified;
      [assumption | now apply Rinv_neq_0_compat]. }
  rewrite (Rabs_pos_eq p) in Hnh by lra.
  assert (Hnh0 : norm_real (cross_real r v) <> 0) by (rewrite Hnh; nra).
  destruct r as [[a b] c], v as [[d e] f'].
  unfold cross_real in Hcross, Hnh, Hnh0. cbn [fst snd] in Hcross, Hnh, Hnh0.
  rewrite lvlh_rows by assumption.
  unfold lit33. cbn [row3 fst snd]. rewrite Hnh.
  injection Hcross as -> -> ->. fold s2.
  unfold lit3. cbn [fst snd]. apply vec3_some_eq; field; lra.
Qed.

Lemma mee2rv_frame_normal_witness :
  0 < 1 /\ 0 < cn.mu K_unit /\ qterm 0 0 0 <> 0
  /\ row3 (Functions.inertial2radial
             (fst (Functions.mee2rv_sample K_unit 1 0 0 0 0 0))
             (snd (Functions.mee2rv_sample K_unit 1 0 0 0 0 0)))
     = lit3 (2 * 0 / (1 + (0 * 0 + 0 * 0)), - (2 * 0) / (1 + (0 * 0 + 0 * 0)),
             (1 - 0 * 0 - 0 * 0) / (1 + (0 * 0 + 0 * 0))).
Proof.
  assert (Hp : 0 < 1) by lra.
  assert (Hm : 0 < cn.mu K_unit) by (cbn [cn.mu K_unit]; lra).
  assert (Hq : qterm 0 0 0 <> 0) by (rewrite x_flam_qterm; lra).
  split; [exact Hp |]. split; [exact Hm |]. split; [exact Hq |].
  exact (mee2rv_frame_normal K_unit 1 0 0 0 0 0 Hp Hm Hq).
Defined.

(** ** [classical2mee] *)

Lemma classical2mee_elements_aux (a e inc Om w nu : R) :
  exists p f g h k L : R,
    Functions.classical2mee a e inc Om w nu
    = (Some p, Some f, Some g, Some h, Some k, Some L)
    /\ p = a * (1 - e * e)
    /\ f * f + g * g = e * e
    /\ h * h + k * k = tan (inc / 2) * tan (inc / 2)
    /\ L = Om + w + nu
    /\ qterm f g L = 1 + e * cos nu.
Proof.
  do 6 eexists. split.
  { unfold Functions.classical2mee. fl_norm. reflexivity. }
  pose proof (sin_cos_one (w + Om)) as H1.
  pose proof (sin_cos_one Om) as H2.
  repeat split.
  - nra.
  - nra.
  - unfold qterm.
    replace nu with ((Om + w + nu) - (w + Om)) at 3 by ring.
    rewrite cos_minus. ring.
Qed.

(** X9: [classical2mee] always returns finite elements, with
    [p = a (1 - e^2)], [f^2 + g^2 = e^2], [h^2 + k^2 = tan^2(inc/2)],
    [L = Om + w + nu], and a radius denominator
    [1 + f cos L + g sin L = 1 + e cos nu]. *)
Theorem classical2mee_elements (a e inc Om w nu : R) :
  exists p f g h k L : R,
    Functions.classical2mee a e inc Om w nu
    = (Some p, Some f, Some g, Some h, Some k, Some L)
    /\ p = a * (1 - e * e)
    /\ f * f + g * g = e * e
    /\ h * h + k * k = tan (inc / 2) * tan (inc / 2)
    /\ L = Om + w + nu
    /\ qterm f g L = 1 + e * cos nu.
Proof. exact (classical2mee_elements_aux a e inc Om w nu). Qed.

(** X10: composed with [classical2mee], [mee2rv] places the spacecraft at
    the distance of the conic equation, [|a (1 - e^2) / (1 + e cos nu)|]. *)
Theorem classical2mee_mee2rv_radius (K : cn.t) (a e inc Om w nu : R) :
  a * (1 - e * e) <> 0 -> 0 <= cn.mu K / (a * (1 - e * e)) ->
  1 + e * cos nu <> 0 ->
  exists (p f g h k L : R) (r v : R * R * R),
    Functions.classical2mee a e inc Om w nu
    = (Some p, Some f, Some g, Some h, Some k, Some L)
    /\ Functions.mee2rv_sample K p f g h k L = (lit3 r, lit3 v)
    /\ norm_real r = Rabs (a * (1 - e * e) / (1 + e * cos nu)).
Proof.
  intros Hp Hmu Hq.
  destruct (classical2mee_elements_aux a e inc Om w nu)
    as (p & f & g & h & k & L & Hc & -> & _ & _ & _ & Hqt).
  rewrite <- Hqt in Hq.
  destruct (mee2rv_sample_geometry K _ f g h k L Hp Hmu Hq)
    as (r & v & Hrv & Hn & _).
  exists (a * (1 - e * e)), f, g, h, k, L, r, v.
  rewrite Hqt in Hn. repeat split; assumption.
Qed.

Lemma classical2mee_mee2rv_radius_witness :
  1 * (1 - 0 * 0) <> 0 /\ 0 <= cn.mu K_unit / (1 * (1 - 0 * 0))
  /\ 1 + 0 * cos 0 <> 0
  /\ exists (p f g h k L : R) (r v : R * R * R),
       Functions.classical2mee 1 0 0 0 0 0
       = (Some p, Some f, Some g, Some h, Some k, Some L)
       /\ Functions.mee2rv_sample K_unit p f g h k L = (lit3 r, lit3 v)
       /\ norm_real r = Rabs (1 * (1 - 0 * 0) / (1 + 0 * cos 0)).
Proof.
  assert (Hp : 1 * (1 - 0 * 0) <> 0) by lra.
  assert (Hm : 0 <= cn.mu K_unit / (1 * (1 - 0 * 0)))
    by (cbn [cn.mu K_unit]; lra).
  assert (Hq : 1 + 0 * cos 0 <> 0) by lra.
  split; [exact Hp |]. split; [exact Hm |]. split; [exact Hq |].
  exact (classical2mee_mee2rv_radius K_unit 1 0 0 0 0 0 Hp Hm Hq).
Defined.

(** ** [switch_function] on whole batches *)

Lemma column_raises (data : list (list R)) (j : nat) (e : exn) :
  column data j = Raise e -> e = IndexError.
Proof.
  induction data as [| row data IH]; cbn [column]; [discriminate |].
  unfold index at 1. destruct (nth_error row j); cbn [bind].
  - destruct (column data j); cbn [bind]; [discriminate |].
    intros H. inversion H. subst. now apply IH.
  - intros H. now inversion H.
Qed.

Lemma column_short (data : list (list R)) (j : nat) :
  Exists (fun row => (List.length row <= j)%nat) data ->
  column data j = Raise IndexError.
Proof.
  induction 1 as [row data Hrow | row data _ IH]; cbn [column].
  - unfold index. apply nth_error_None in Hrow. now rewrite Hrow.
  - unfold index at 1. destruct (nth_error row j); [| reflexivity].
    cbn [bind]. now rewrite IH.
Qed.

(** X11: on a non-empty batch with fewer than fourteen columns the column
    slices fail: [switch_function] raises [IndexError] and computes
    nothing. *)
Theorem switch_function_short_rows (V : sc.t) (data : list (list R))
        (rho : R) (n : nat) :
  data <> [] -> Forall (fun row => List.length row = n) data ->
  (n < 14)%nat ->
  Functions.switch_function V data rho = Raise IndexError.
Proof.
  intros Hne Hrect Hn.
  assert (Hlast : column data 13 = Raise IndexError).
  { apply column_short. destruct data as [| row data]; [now elim Hne |].
    apply Exists_cons_hd. inversion Hrect; subst. lia. }
  unfold Functions.switch_function, Functions.assign_variables.
  repeat match goal with
    | |- context [column data ?j] =>
        lazymatch j with
        | 13%nat => rewrite Hlast; reflexivity
        | _ => let E := fresh "E" in
               destruct (column data j) eqn:E; cbn [bind];
               [| apply column_raises in E; subst; reflexivity]
        end
    end.
Qed.

Lemma switch_function_short_rows_witness :
  [[1; 2; 3]] <> [] /\ Forall (fun row => List.length row = 3%nat) [[1; 2; 3]]
  /\ (3 < 14)%nat
  /\ Functions.switch_function V_unit [[1; 2; 3]] 1 = Raise IndexError.
Proof.
  assert (Hne : [[1; 2; 3]] <> []) by discriminate.
  assert (Hrect : Forall (fun row => List.length row = 3%nat) [[1; 2; 3]])
    by (apply Forall_cons; [reflexivity | apply Forall_nil]).
  assert (Hn : (3 < 14)%nat) by lia.
  split; [exact Hne |]. split; [exact Hrect |]. split; [exact Hn |].
  exact (switch_function_short_rows V_unit [[1; 2; 3]] 1 3 Hne Hrect Hn).
Defined.

(** X12: the samples of a batch are processed independently: every output
    has one entry for each row, and the outputs of a concatenated batch are
    the concatenation of the outputs of its parts. *)
Theorem switch_function_concat (V : sc.t) (d1 d2 : list (list R)) (rho : R) :
  batch_ok d1 -> batch_ok d2 ->
  exists S1 delta1 BTL1 S2 delta2 BTL2,
    Functions.switch_function V d1 rho = Ok (S1, delta1, BTL1)
    /\ Functions.switch_function V d2 rho = Ok (S2, delta2, BTL2)
    /\ Functions.switch_function V (d1 ++ d2) rho
       = Ok (S1 ++ S2, delta1 ++ delta2, BTL1 ++ BTL2)
    /\ List.length S1 = List.length d1
    /\ List.length delta1 = List.length d1
    /\ List.length BTL1 = List.length d1.
Proof.
  intros H1 H2.
  exists (map (sample_S V) d1), (map (sample_delta V rho) d1),
    (map sample_BTL d1), (map (sample_S V) d2),
    (map (sample_delta V rho) d2), (map sample_BTL d2).
  rewrite !switch_function_ok
    by (assumption || (apply Forall_app; now split)).
  rewrite !map_app, !length_map. repeat split.
Qed.

Lemma switch_function_concat_witness :
  batch_ok [x_flam] /\ batch_ok [x_zero_costates]
  /\ exists S1 delta1 BTL1 S2 delta2 BTL2,
       Functions.switch_function V_unit [x_flam] 1 = Ok (S1, delta1, BTL1)
       /\ Functions.switch_function V_unit [x_zero_costates] 1
          = Ok (S2, delta2, BTL2)
       /\ Functions.switch_function V_unit ([x_flam] ++ [x_zero_costates]) 1
          = Ok (S1 ++ S2, delta1 ++ delta2, BTL1 ++ BTL2).
Proof.
  assert (H1 : batch_ok [x_flam])
    by (apply Forall_cons; [reflexivity | apply Forall_nil]).
  assert (H2 : batch_ok [x_zero_costates])
    by (apply Forall_cons; [reflexivity | apply Forall_nil]).
  split; [exact H1 |]. split; [exact H2 |].
  destruct (switch_function_concat V_unit [x_flam] [x_zero_costates] 1 H1 H2)
    as (S1 & l1 & B1 & S2 & l2 & B2 & Ha & Hb & Hc & _).
  exists S1, l1, B1, S2, l2, B2. repeat split; assumption.
Defined.

(** ** The throttle as a smoothed switch *)

(** Line 179 on a finite switching value. *)
Lemma throttle_fl (s rho : R) :
  rho <> 0 -> (0.5 * (1 + ftanh (Some s / rho)))%fl = Some (throttle s rho).
Proof.
  intros Hr. unfold lit. fl_unfold. rewrite fdiv_some by assumption.
  reflexivity.
Qed.

Lemma throttle_odd (s rho : R) : throttle (- s) rho = 1 - throttle s rho.
Proof.
  rewrite !throttle_exp.
  replace (2 * (- s / rho)) with (- (2 * (s / rho))) by (unfold Rdiv; ring).
  rewrite exp_Ropp.
  pose proof (exp_pos (2 * (s / rho))) as He.
  field. split; lra.
Qed.




(** X14: the homotopy limit.  For a fixed [S > 0] the throttle of line 179
    grows as [rho] decreases and tends to 1 as [rho] tends to 0 from
    above; for [S < 0] it tends to 0. *)
Theorem throttle_homotopy (s : R) :
  (forall rho, rho <> 0 ->
     (0.5 * (1 + ftanh (Some s / rho)))%fl = Some (throttle s rho))
  /\ (0 <= s -> forall rho1 rho2, 0 < rho1 -> rho1 <= rho2 ->
        throttle s rho2 <= throttle s rho1)
  /\ (0 < s -> forall eps, 0 < eps ->
        exists rho0, 0 < rho0
          /\ forall rho, 0 < rho -> rho < rho0 -> 1 - eps < throttle s rho)
  /\ (s < 0 -> forall eps, 0 < eps ->
        exists rho0, 0 < rho0
          /\ forall rho, 0 < rho -> rho < rho0 -> throttle s rho < eps).
Proof.
  assert (Hhigh : forall s', 0 < s' -> forall eps, 0 < eps ->
            exists rho0, 0 < rho0
              /\ forall rho, 0 < rho -> rho < rho0 ->
                   1 - eps < throttle s' rho).
  { intros s' Hs eps He. exists (s' * eps). split; [nra |].
    intros rho Hr Hlt. rewrite throttle_exp.
    assert (Hinv : 0 < / eps) by now apply Rinv_0_lt_compat.
    assert (Hx : / eps < s' / rho).
    { apply (Rmult_lt_reg_r (rho * eps)); [nra |].
      replace (/ eps * (rho * eps)) with rho by (field; lra).
      replace (s' / rho * (rho * eps)) with (s' * eps) by (field; lra).
      assumption. }
    pose proof (exp_ineq1 (2 * (s' / rho)) ltac:(lra)) as Hexp.
    set (E := exp (2 * (s' / rho))) in *.
    assert (HeE : 1 < eps * E).
    { replace 1 with (eps * / eps) by (field; lra).
      apply Rmult_lt_compat_l; lra. }
    apply (Rmult_lt_reg_r (E + 1)); [lra |].
    replace (E / (E + 1) * (E + 1)) with E by (field; lra).
    nra. }
  split; [intros rho Hr; now apply throttle_fl |].
  split; [| split].
  - intros Hs rho1 rho2 H1 H12. rewrite !throttle_exp.
    apply logistic_le; [apply exp_pos |]. apply exp_le.
    apply Rmult_le_compat_l; [lra |]. unfold Rdiv.
    apply Rmult_le_compat_l; [assumption |].
    apply Rinv_le_contravar; assumption.
  - exact (Hhigh s).
  - intros Hs eps He.
    destruct (Hhigh (- s) ltac:(lra) eps He) as (rho0 & H0 & H).
    exists rho0. split; [assumption |]. intros rho Hr Hlt.
    specialize (H rho Hr Hlt). rewrite throttle_odd in H. lra.
Qed.

(** ** [eom_mee_twobodyJ2_minfuel]: the two evaluations of the throttle *)

(** X15: the generated code evaluates the control-influence norm and the
    throttle twice, once for the state rates ([t46], [t49], [t60]) and once
    for the costate rates ([t101], [t113], [t112]); the two evaluations
    agree on every input, valid or not. *)
Theorem eom_throttle_twice (V : sc.t)
        (p f g h k L m pco1 pco2 pco3 pco4 pco5 pco6 pco7 rho : R) :
  Eom.t101 p f g h k L pco2 pco3 pco4 pco5 pco6
  = Eom.t46 p f g h k L pco2 pco3 pco4 pco5 pco6
  /\ Eom.t113 p f g h k L pco1 pco2 pco3 pco4 pco5 pco6
     = Eom.t49 p f g h k L pco1 pco2 pco3 pco4 pco5 pco6
  /\ Eom.t112 V p f g h k L m pco1 pco2 pco3 pco4 pco5 pco6 pco7 rho
     = Eom.t60 V p f g h k L m pco1 pco2 pco3 pco4 pco5 pco6 pco7 rho.
Proof.
  split; [apply eom_t101 |]. split; [apply eom_t113 | apply eom_t112].
Qed.

(** ** Mass and mass-costate rates *)

Section MassRates.

Variable K : cn.t.
Variable V : sc.t.
Variables p f g h k L m pco1 pco2 pco3 pco4 pco5 pco6 pco7 rho : R.

Hypothesis p_pos : 0 < p.
Hypothesis q_nonzero : qterm f g L <> 0.
Hypothesis m_nonzero : m <> 0.
Hypothesis rho_nonzero : rho <> 0.

Let btl := BTL_real p f g h k L pco1 pco2 pco3 pco4 pco5 pco6.
Let S_real : R :=
  sc.c V * sc.si2can V * norm_real btl / m + pco7 - 1.

Lemma eom_t60_real :
  Eom.t60 V p f g h k L m pco1 pco2 pco3 pco4 pco5 pco6 pco7 rho
  = Some (throttle S_real rho).
Proof.
  rewrite <- eom_t60. apply sample_delta_real; (assumption || lra).
Qed.

Lemma eom_mass_rate_aux :
  sc.c V <> 0 ->
  Eom.dxdt6 V p f g h k L m pco1 pco2 pco3 pco4 pco5 pco6 pco7 rho
  = Some (- (sc.Thr V * throttle S_real rho) / sc.c V).
Proof.
  intros Hc. unfold Eom.dxdt6, Eom.Thr, Eom.c. rewrite eom_t60_real.
  fl_norm. reflexivity.
Qed.


End MassRates.

(** X16: at a state at which the call returns ([p > 0], non-zero radius
    denominator, mass and [rho], non-zero control-influence vector) with
    [c > 0] and [Thr >= 0], the mass rate is [-(Thr * delta) / c] for the
    throttle [delta] of the switching scalar, [0 < delta < 1]: the mass
    never grows and is depleted no faster than [Thr / c]. *)
Theorem eom_mass_rate (K : cn.t) (V : sc.t) (t : R)
        (p f g h k L m pco1 pco2 pco3 pco4 pco5 pco6 pco7 rho : R)
        (eclipse : bool) :
  0 < p -> qterm f g L <> 0 -> m <> 0 -> rho <> 0 ->
  0 < sc.c V -> 0 <= sc.Thr V ->
  norm_real (BTL_real p f g h k L pco1 pco2 pco3 pco4 pco5 pco6) <> 0 ->
  let N := norm_real (BTL_real p f g h k L pco1 pco2 pco3 pco4 pco5 pco6) in
  exists (d : list fl) (delta : R),
    Eom.eom_mee_twobodyJ2_minfuel K V t
      [p; f; g; h; k; L; m; pco1; pco2; pco3; pco4; pco5; pco6; pco7]
      rho eclipse = Ok d
    /\ delta = throttle (sc.c V * sc.si2can V * N / m + pco7 - 1) rho
    /\ 0 < delta < 1
    /\ nth_error d 6 = Some (Some (- (sc.Thr V * delta) / sc.c V))
    /\ - (sc.Thr V / sc.c V) <= - (sc.Thr V * delta) / sc.c V <= 0.
Proof.
  intros Hp Hq Hm Hr Hc HT HN N.
  eexists. eexists.
  split; [apply eom_returns_valid; (assumption || lra) |].
  split; [reflexivity |].
  split; [apply throttle_range |].
  split.
  - unfold Eom.dxdt. cbn [nth_error]. f_equal.
    apply eom_mass_rate_aux; (assumption || lra).
  - match goal with |- context [throttle ?s rho] =>
      pose proof (throttle_range s rho) as Hd;
      set (dl := throttle s rho) in *; clearbody dl end.
    assert (Hic : 0 < / sc.c V) by now apply Rinv_0_lt_compat.
    assert (Hu : 0 <= sc.Thr V * / sc.c V) by nra.
    unfold Rdiv.
    replace (- (sc.Thr V * dl) * / sc.c V)
      with (- (sc.Thr V * / sc.c V * dl)) by ring.
    split; nra.
Qed.

Lemma eom_mass_rate_witness :
  0 < 1 /\ qterm 0 0 0 <> 0 /\ 1 <> 0 /\ 0 < sc.c V_unit
  /\ 0 <= sc.Thr V_unit
  /\ norm_real (BTL_real 1 0 0 0 0 0 0 1 0 0 0 0) <> 0
  /\ exists (d : list fl) (delta : R),
       Eom.eom_mee_twobodyJ2_minfuel K_unit V_unit 0 x_flam 1 false = Ok d
       /\ 0 < delta < 1
       /\ nth_error d 6
          = Some (Some (- (sc.Thr V_unit * delta) / sc.c V_unit)).
Proof.
  assert (Hp : 0 < 1) by lra.
  assert (Hq : qterm 0 0 0 <> 0) by (rewrite x_flam_qterm; lra).
  assert (Hm : 1 <> 0) by lra.
  assert (Hc : 0 < sc.c V_unit) by (cbn [sc.c V_unit]; lra).
  assert (HT : 0 <= sc.Thr V_unit) by (cbn [sc.Thr V_unit]; lra).
  split; [exact Hp |]. split; [exact Hq |]. split; [exact Hm |].
  split; [exact Hc |]. split; [exact HT |].
  split; [exact x_flam_BTL_nonzero |].
  destruct (eom_mass_rate K_unit V_unit 0 1 0 0 0 0 0 1 0 1 0 0 0 0 0 1
              false Hp Hq Hm Hm Hc HT x_flam_BTL_nonzero)
    as (d & delta & H1 & _ & H2 & H3 & _).
  exists d, delta. repeat split; (assumption || apply H2).
Defined.



(** ** Zero divisors and a negative semi-latus rectum *)

Lemma not_defined_none (x : fl) : ~ defined x -> x = None.
Proof.
  destruct x as [a |]; [| reflexivity].
  intros H. elim H. now exists a.
Qed.

Section NegativeP.

Variable K : cn.t.
Variable V : sc.t.
Variables p f g h k L m pco1 pco2 pco3 pco4 pco5 pco6 pco7 rho : R.

Hypothesis p_negative : p < 0.

Lemma negative_p_t60 :
  Eom.t60 V p f g h k L m pco1 pco2 pco3 pco4 pco5 pco6 pco7 rho = None.
Proof.
  rewrite <- eom_t60. apply not_defined_none. intros H.
  apply sample_delta_defined in H as (Hp & Hq & Hm & Hr). lra.
Qed.

Lemma negative_p_t112 :
  Eom.t112 V p f g h k L m pco1 pco2 pco3 pco4 pco5 pco6 pco7 rho = None.
Proof. rewrite eom_t112. apply negative_p_t60. Qed.

Lemma negative_p_t64 :
  Eom.t64 K V p f g h k L m pco1 pco2 pco3 pco4 pco5 pco6 pco7 rho = None.
Proof.
  pose proof negative_p_t60. unfold Eom.t64, Eom.t63. invalid.
Qed.

Lemma negative_p_t62 :
  Eom.t62 V p f g h k L m pco1 pco2 pco3 pco4 pco5 pco6 pco7 rho = None.
Proof. pose proof negative_p_t60. unfold Eom.t62. invalid. Qed.

Lemma negative_p_t67 :
  Eom.t67 K V p f g h k L m pco1 pco2 pco3 pco4 pco5 pco6 pco7 rho = None.
Proof.
  pose proof negative_p_t60. unfold Eom.t67, Eom.t66. invalid.
Qed.

Lemma negative_p_t115 :
  Eom.t115 K V p f g h k L m pco1 pco2 pco3 pco4 pco5 pco6 pco7 rho = None.
Proof.
  pose proof negative_p_t112. unfold Eom.t115, Eom.t114. invalid.
Qed.

Lemma negative_p_dxdt :
  Eom.dxdt K V p f g h k L m pco1 pco2 pco3 pco4 pco5 pco6 pco7 rho
  = repeat None 14.
Proof.
  pose proof negative_p_t60 as H60. pose proof negative_p_t112 as H112.
  pose proof negative_p_t62 as H62. pose proof negative_p_t64 as H64.
  pose proof negative_p_t67 as H67. pose proof negative_p_t115 as H115.
  unfold Eom.dxdt. cbn [repeat].
  change (Eom.dxdt0 K V p f g h k L m pco1 pco2 pco3 pco4 pco5 pco6 pco7 rho)
    with (Eom.t11 f g L * Eom.t17 p
          * Eom.t64 K V p f g h k L m pco1 pco2 pco3 pco4 pco5 pco6 pco7 rho
          * -2)%fl.
  rewrite H64.
  replace (Eom.dxdt1 K V p f g h k L m pco1 pco2 pco3 pco4 pco5 pco6 pco7 rho)
    with (@None R) by (symmetry; unfold Eom.dxdt1; invalid).
  replace (Eom.dxdt2 K V p f g h k L m pco1 pco2 pco3 pco4 pco5 pco6 pco7 rho)
    with (@None R) by (symmetry; unfold Eom.dxdt2; invalid).
  replace (Eom.dxdt3 K V p f g h k L m pco1 pco2 pco3 pco4 pco5 pco6 pco7 rho)
    with (@None R) by (symmetry; unfold Eom.dxdt3; invalid).
  replace (Eom.dxdt4 K V p f g h k L m pco1 pco2 pco3 pco4 pco5 pco6 pco7 rho)
    with (@None R) by (symmetry; unfold Eom.dxdt4; invalid).
  replace (Eom.dxdt5 K V p f g h k L m pco1 pco2 pco3 pco4 pco5 pco6 pco7 rho)
    with (@None R) by (symmetry; unfold Eom.dxdt5; invalid).
  replace (Eom.dxdt6 V p f g h k L m pco1 pco2 pco3 pco4 pco5 pco6 pco7 rho)
    with (@None R) by (symmetry; unfold Eom.dxdt6; invalid).
  replace (Eom.dxdt7 K V p f g h k L m pco1 pco2 pco3 pco4 pco5 pco6 pco7 rho)
    with (@None R) by (symmetry; unfold Eom.dxdt7; invalid).
  replace (Eom.dxdt8 K V p f g h k L m pco1 pco2 pco3 pco4 pco5 pco6 pco7 rho)
    with (@None R) by (symmetry; unfold Eom.dxdt8; invalid).
  replace (Eom.dxdt9 K V p f g h k L m pco1 pco2 pco3 pco4 pco5 pco6 pco7 rho)
    with (@None R) by (symmetry; unfold Eom.dxdt9; invalid).
  replace (Eom.dxdt10 K V p f g h k L m pco1 pco2 pco3 pco4 pco5 pco6 pco7 rho)
    with (@None R) by (symmetry; unfold Eom.dxdt10; invalid).
  replace (Eom.dxdt11 K V p f g h k L m pco1 pco2 pco3 pco4 pco5 pco6 pco7 rho)
    with (@None R) by (symmetry; unfold Eom.dxdt11; invalid).
  replace (Eom.dxdt12 K V p f g h k L m pco1 pco2 pco3 pco4 pco5 pco6 pco7 rho)
    with (@None R) by (symmetry; unfold Eom.dxdt12; invalid).
  replace (Eom.dxdt13 V p f g h k L m pco1 pco2 pco3 pco4 pco5 pco6 pco7 rho)
    with (@None R) by (symmetry; unfold Eom.dxdt13; invalid).
  now rewrite !fmul_none_r.
Qed.

End NegativeP.

(** X18: the call raises [ZeroDivisionError], and returns nothing, exactly
    when the mass, the radius denominator, [p], [rho] or [c] is zero or,
    for [p > 0], the control-influence vector is the zero vector.  When
    [p < 0] and none of these is zero no division raises: the square root
    of [p] is a NaN and the call returns fourteen NaN. *)
Theorem eom_zero_divisor_raises (K : cn.t) (V : sc.t) (t : R)
        (p f g h k L m pco1 pco2 pco3 pco4 pco5 pco6 pco7 rho : R)
        (eclipse : bool) :
  let x := [p; f; g; h; k; L; m; pco1; pco2; pco3; pco4; pco5; pco6; pco7] in
  let N := norm_real (BTL_real p f g h k L pco1 pco2 pco3 pco4 pco5 pco6) in
  (Eom.eom_mee_twobodyJ2_minfuel K V t x rho eclipse
   = Raise ZeroDivisionError
   <-> m = 0 \/ qterm f g L = 0 \/ p = 0 \/ rho = 0 \/ sc.c V = 0
       \/ (0 < p /\ N = 0))
  /\ (p < 0 -> qterm f g L <> 0 -> m <> 0 -> rho <> 0 -> sc.c V <> 0 ->
      Eom.eom_mee_twobodyJ2_minfuel K V t x rho eclipse
      = Ok (repeat None 14)).
Proof.
  intros x N. subst x N. split; [split |].
  - intros H.
    destruct (Req_dec m 0) as [Hm | Hm]; [tauto |].
    destruct (Req_dec (qterm f g L) 0) as [Hq | Hq]; [tauto |].
    destruct (Req_dec p 0) as [Hp | Hp]; [tauto |].
    destruct (Req_dec rho 0) as [Hr | Hr]; [tauto |].
    destruct (Req_dec (sc.c V) 0) as [Hc | Hc]; [tauto |].
    destruct (Rlt_dec 0 p) as [Hpos | Hneg];
      [destruct (Req_dec (norm_real (BTL_real p f g h k L pco1 pco2 pco3 pco4
                                       pco5 pco6)) 0) as [HN | HN];
       [tauto |] |];
      (rewrite eom_returns in H; [discriminate H | tauto]).
  - apply eom_raises.
  - intros Hp Hq Hm Hr Hc.
    rewrite eom_returns by (intros Z; repeat destruct Z as [Z | Z]; lra).
    f_equal. now apply negative_p_dxdt.
Qed.

Lemma eom_zero_divisor_raises_witness :
  Eom.eom_mee_twobodyJ2_minfuel K_unit V_unit 0
    [-1; 0; 0; 0; 0; 0; 1; 0; 1; 0; 0; 0; 0; 0] 1 false
  = Ok (repeat None 14).
Proof.
  apply (proj2 (eom_zero_divisor_raises K_unit V_unit 0
                  (-1) 0 0 0 0 0 1 0 1 0 0 0 0 0 1 false));
    first [rewrite x_flam_qterm; lra | cbn [sc.c V_unit]; lra | lra].
Defined.

(** ** Finiteness of the derivative at a valid state *)

Lemma defined_some (a : R) : defined (Some a).
Proof. now exists a. Qed.

Lemma defined_lift2_intro (op : R -> R -> R) (x y : fl) :
  defined x -> defined y -> defined (lift2 op x y).
Proof. intros [a ->] [b ->]. apply defined_some. Qed.

Lemma defined_lift1_intro (op : R -> R) (x : fl) :
  defined x -> defined (lift1 op x).
Proof. intros [a ->]. apply defined_some. Qed.

Lemma defined_fdiv_intro (x : fl) (b : R) :
  defined x -> b <> 0 -> defined (fdiv x (lit b)).
Proof.
  intros [a ->] Hb. unfold lit. rewrite fdiv_some by assumption.
  apply defined_some.
Qed.

Lemma defined_fpow_2 (x : fl) : defined x -> defined (fpow x 2).
Proof. intros [a ->]. rewrite fpow_2. apply defined_some. Qed.

Lemma defined_eq (x : fl) (a : R) : x = Some a -> defined x.
Proof. intros ->. apply defined_some. Qed.

(** Prove that a float expression is defined from its operands; a term of
    [eom] that is not among the hypotheses is unfolded. *)
Ltac head_of t :=
  lazymatch t with
  | ?fn _ => head_of fn
  | _ => t
  end.

Ltac is_defined :=
  lazymatch goal with
  | |- defined (lit _) => apply defined_some
  | |- defined (Some _) => apply defined_some
  | |- defined (fadd _ _) => apply defined_lift2_intro; is_defined
  | |- defined (fsub _ _) => apply defined_lift2_intro; is_defined
  | |- defined (fmul _ _) => apply defined_lift2_intro; is_defined
  | |- defined (fneg _) => apply defined_lift1_intro; is_defined
  | |- defined (fabs _) => apply defined_lift1_intro; is_defined
  | |- defined (fcos _) => apply defined_lift1_intro; is_defined
  | |- defined (fsin _) => apply defined_lift1_intro; is_defined
  | |- defined (ftanh _) => apply defined_lift1_intro; is_defined
  | |- defined (fdiv _ (lit _)) =>
      apply defined_fdiv_intro; [is_defined | first [assumption | lra]]
  | |- defined (fpow _ 2) => apply defined_fpow_2; is_defined
  | |- defined ?t =>
      first [ assumption
            | let hd := head_of t in unfold hd; is_defined ]
  end.

Section Valid.

Variable K : cn.t.
Variable V : sc.t.
Variables p f g h k L m pco1 pco2 pco3 pco4 pco5 pco6 pco7 rho : R.

Hypothesis p_pos : 0 < p.
Hypothesis q_nonzero : qterm f g L <> 0.
Hypothesis m_nonzero : m <> 0.
Hypothesis rho_nonzero : rho <> 0.
Hypothesis c_nonzero : sc.c V <> 0.
Hypothesis BTL_nonzero :
  norm_real (BTL_real p f g h k L pco1 pco2 pco3 pco4 pco5 pco6) <> 0.

Let sqrt_p_pos : 0 < sqrt p.
Proof. now apply sqrt_lt_R0. Qed.

Let q'_nonzero : f * cos L + g * sin L + 1 <> 0.
Proof. unfold qterm in q_nonzero. lra. Qed.

Let s_pos : 0 < h * h + k * k + 1.
Proof. nra. Qed.

Lemma valid_guarded :
  defined (Eom.t6 m) /\ defined (Eom.t10 p) /\ defined (Eom.t11 f g L)
  /\ defined (Eom.t17 p) /\ defined (Eom.t39 p) /\ defined (Eom.t41 h k)
  /\ defined (Eom.t43 rho) /\ defined (Eom.t70 p) /\ defined (Eom.t72 p)
  /\ defined (Eom.t78 h k) /\ defined (Eom.t79 p) /\ defined (Eom.t80 p)
  /\ defined (Eom.t82 f g L) /\ defined (Eom.t88 p)
  /\ defined (Eom.t104 h k) /\ defined (Eom.t158 m).
Proof.
  assert (Hp2 : 0 < p * p) by nra.
  assert (Hp3 : 0 < p * p * p) by nra.
  assert (Hp4 : 0 < p * p * p * p) by nra.
  assert (Hs2 : 0 < (h * h + k * k + 1) * (h * h + k * k + 1)) by nra.
  repeat split.
  - eapply defined_eq. now apply coast_t6.
  - eapply defined_eq. now apply coast_t10.
  - eapply defined_eq. now apply coast_t11.
  - eapply defined_eq. now apply coast_t17.
  - eapply defined_eq. now apply coast_t39.
  - eapply defined_eq. apply coast_t41.
  - eapply defined_eq. unfold Eom.t43. now apply fdiv_some.
  - eapply defined_eq. unfold Eom.t70, lit. rewrite fsqrt_some by lra.
    apply fdiv_some. lra.
  - eapply defined_eq. unfold Eom.t72, lit.
    rewrite (fpow_frac p _ 4) by (reflexivity || lra).
    apply fdiv_some. simpl. nra.
  - eapply defined_eq. autounfold with eom. fl_norm. reflexivity.
  - eapply defined_eq. now apply coast_t79.
  - eapply defined_eq. unfold Eom.t80, lit.
    rewrite (fpow_frac p _ 3) by (reflexivity || lra).
    apply fdiv_some. simpl. nra.
  - eapply defined_eq. autounfold with eom. fl_norm.
    rewrite ?fdiv_some by nra. reflexivity.
  - eapply defined_eq. unfold Eom.t88, lit.
    rewrite (fpow_frac p _ 2) by (reflexivity || lra).
    apply fdiv_some. simpl. nra.
  - eapply defined_eq. autounfold with eom. fl_norm.
    rewrite ?fdiv_some by nra. reflexivity.
  - eapply defined_eq. autounfold with eom. unfold lit. rewrite fpow_2.
    apply fdiv_some. nra.
Qed.

Lemma valid_dxdt :
  Forall defined
    (Eom.dxdt K V p f g h k L m pco1 pco2 pco3 pco4 pco5 pco6 pco7 rho).
Proof.
  destruct valid_guarded
    as (H6 & H10 & H11 & H17 & H39 & H41 & H43 & H70 & H72 & H78 & H79
        & H80 & H82 & H88 & H104 & H158).
  assert (H49 : defined (Eom.t49 p f g h k L pco1 pco2 pco3 pco4 pco5 pco6)).
  { eapply defined_eq.
    now apply (coast_t49 p f g h k L m pco1 pco2 pco3 pco4 pco5 pco6 pco7). }
  assert (H113 : defined
                   (Eom.t113 p f g h k L pco1 pco2 pco3 pco4 pco5 pco6))
    by now rewrite eom_t113.
  assert (H60 : defined
                  (Eom.t60 V p f g h k L m pco1 pco2 pco3 pco4 pco5 pco6
                     pco7 rho)).
  { eapply defined_eq. now apply eom_t60_real. }
  assert (H112 : defined
                   (Eom.t112 V p f g h k L m pco1 pco2 pco3 pco4 pco5 pco6
                      pco7 rho))
    by now rewrite eom_t112.
  assert (H64 : defined
                  (Eom.t64 K V p f g h k L m pco1 pco2 pco3 pco4 pco5 pco6
                     pco7 rho))
    by is_defined.
  assert (H67 : defined
                  (Eom.t67 K V p f g h k L m pco1 pco2 pco3 pco4 pco5 pco6
                     pco7 rho))
    by is_defined.
  assert (H62 : defined
                  (Eom.t62 V p f g h k L m pco1 pco2 pco3 pco4 pco5 pco6
                     pco7 rho))
    by is_defined.
  assert (H115 : defined
                   (Eom.t115 K V p f g h k L m pco1 pco2 pco3 pco4 pco5 pco6
                      pco7 rho))
    by is_defined.
  assert (H0 : defined
                 (Eom.dxdt0 K V p f g h k L m pco1 pco2 pco3 pco4 pco5 pco6
                    pco7 rho)).
  { change (Eom.dxdt0 K V p f g h k L m pco1 pco2 pco3 pco4 pco5 pco6 pco7
              rho)
      with (Eom.t11 f g L * Eom.t17 p
            * Eom.t64 K V p f g h k L m pco1 pco2 pco3 pco4 pco5 pco6 pco7
                rho
            * -2)%fl.
    is_defined. }
  unfold Eom.dxdt.
  repeat (apply Forall_cons; [first [exact H0 | is_defined] |]).
  apply Forall_nil.
Qed.

End Valid.

(** X19: at a valid state, [p > 0], non-zero radius denominator, mass,
    [rho] and [c], with a non-zero control-influence vector, every guarded
    operation of the derivative has a valid operand: all fourteen
    components are finite. *)
Theorem eom_valid_finite (K : cn.t) (V : sc.t) (t : R)
        (p f g h k L m pco1 pco2 pco3 pco4 pco5 pco6 pco7 rho : R)
        (eclipse : bool) :
  0 < p -> qterm f g L <> 0 -> m <> 0 -> rho <> 0 -> sc.c V <> 0 ->
  norm_real (BTL_real p f g h k L pco1 pco2 pco3 pco4 pco5 pco6) <> 0 ->
  exists d,
    Eom.eom_mee_twobodyJ2_minfuel K V t
      [p; f; g; h; k; L; m; pco1; pco2; pco3; pco4; pco5; pco6; pco7]
      rho eclipse = Ok d
    /\ List.length d = 14%nat
    /\ Forall defined d.
Proof.
  intros Hp Hq Hm Hr Hc HN.
  eexists. split; [now apply eom_returns_valid |]. split; [reflexivity |].
  now apply valid_dxdt.
Qed.

Lemma eom_valid_finite_witness :
  0 < 1 /\ qterm 0 0 0 <> 0 /\ 1 <> 0 /\ sc.c V_unit <> 0
  /\ norm_real (BTL_real 1 0 0 0 0 0 0 1 0 0 0 0) <> 0
  /\ exists d,
       Eom.eom_mee_twobodyJ2_minfuel K_unit V_unit 0 x_flam 1 false = Ok d
       /\ List.length d = 14%nat
       /\ Forall defined d.
Proof.
  assert (Hp : 0 < 1) by lra.
  assert (Hq : qterm 0 0 0 <> 0) by (rewrite x_flam_qterm; lra).
  assert (Hm : 1 <> 0) by lra.
  assert (Hc : sc.c V_unit <> 0) by (cbn [sc.c V_unit]; lra).
  split; [exact Hp |]. split; [exact Hq |]. split; [exact Hm |].
  split; [exact Hc |]. split; [exact x_flam_BTL_nonzero |].
  exact (eom_valid_finite K_unit V_unit 0 1 0 0 0 0 0 1 0 1 0 0 0 0 0 1 false
           Hp Hq Hm Hm Hc x_flam_BTL_nonzero).
Defined.

